(** * gen_k8s_diagrams: relationship resolution over Kubernetes manifests

    A shallow embedding of [scripts/gen_k8s_diagrams.py].  The script reads
    manifest objects (parsed JSON/YAML documents), sorts them into role
    buckets, and derives three families of edges:

    - Service -> Workload   (label-selector matching, lines 89-104),
    - Ingress -> Service    (rule/path parsing, lines 143-156 and 195-206),
    - Workload -> Pod       (owner references, lines 183-192),

    plus the per-namespace grouping of the container view (lines 122-131).
    Around this core the embedding has the loader (lines 5-33), the text of
    the three diagrams (lines 106-208) and the files the run leaves (lines
    118, 159, 209).

    The script is duck-typed: every field access is a [dict.get] on whatever
    the parser produced, so the embedding works on a datatype of parsed
    documents and threads Python's exceptions through an error monad. *)

From Stdlib Require Import QArith Qreduction.
From Stdlib Require Import ZArith List String Ascii Bool Lia.
From Stdlib Require Import DecimalString OrdersEx Sorted Permutation.
From Stdlib Require Import RelationClasses.
Import ListNotations.
Close Scope Q_scope.

(** ** Python values and the primitives the script uses *)

Module Py.

(** A Python float other than a NaN: a finite double by its exact value
    (every finite double is a rational; the rationals that are no doubles
    are floats the parser never hands out), the negative zero, which only
    printing tells from [0.0], or an infinity. *)
Inductive pyfloat : Type :=
| FFin (q : Q)
| FNegZero
| FInf (negative : bool).

(** The value of a number, as [==] and [<] see it: Python compares ints,
    bools and floats with one another exactly. *)
Inductive num : Type :=
| NFin (q : Q)
| NInf (negative : bool).

Definition fval (f : pyfloat) : num :=
  match f with
  | FFin q => NFin q
  | FNegZero => NFin 0%Q
  | FInf negative => NInf negative
  end.

Definition num_eqb (x y : num) : bool :=
  match x, y with
  | NFin p, NFin q => Qeq_bool p q
  | NInf a, NInf b => Bool.eqb a b
  | _, _ => false
  end.

Definition num_ltb (x y : num) : bool :=
  match x, y with
  | NFin p, NFin q => match Qcompare p q with Lt => true | _ => false end
  | NFin _, NInf negative => negb negative
  | NInf negative, NFin _ => negative
  | NInf a, NInf b => a && negb b
  end.

(** A parsed document: the values of JSON.  Integers are Python ints
    (unbounded) and floats are held by their exact value; a NaN, which no
    comparison orders, is outside the model.  A dict keeps its items in
    insertion order, with string keys (as every JSON object has).  What YAML
    has beyond JSON (timestamps, binary data, sets, maps with keys that are
    no strings) is outside the model as well. *)
#[warnings="-register-all"]
Inductive json : Type :=
| JNull
| JBool (b : bool)
| JInt (z : Z)
| JFloat (f : pyfloat)
| JStr (s : string)
| JList (l : list json)
| JDict (d : list (string * json)).

(** The two exceptions the script can raise on a parsed document. *)
Inductive exn : Type :=
| AttributeError   (* e.g. [None.get], ["abc".items] *)
| TypeError.       (* e.g. iterating [None], hashing a list, [None < "a"] *)

Inductive result (A : Type) : Type :=
| Ok (a : A)
| Raise (e : exn).

Arguments Ok {A} a.
Arguments Raise {A} e.

Definition bind {A B} (m : result A) (f : A -> result B) : result B :=
  match m with
  | Ok a => f a
  | Raise e => Raise e
  end.

(** [for x in xs: acc = body(acc, x)], stopping at the first exception. *)
Fixpoint for_each {A S} (xs : list A) (body : S -> A -> result S) (acc : S)
  : result S :=
  match xs with
  | [] => Ok acc
  | x :: xs' => bind (body acc x) (for_each xs' body)
  end.

(** [all(test(x) for x in xs)]: short-circuits on the first [False]. *)
Fixpoint all_of {A} (xs : list A) (test : A -> result bool) : result bool :=
  match xs with
  | [] => Ok true
  | x :: xs' =>
      bind (test x) (fun b => if b then all_of xs' test else Ok false)
  end.

(** Lookup in the item list of a dict. *)
Fixpoint assoc {V} (k : string) (d : list (string * V)) : option V :=
  match d with
  | [] => None
  | (k', v) :: d' => if String.eqb k k' then Some v else assoc k d'
  end.

(** [d.get(k, dflt)].  Only dicts have [.get]. *)
Definition get (d : json) (k : string) (dflt : json) : result json :=
  match d with
  | JDict kv =>
      Ok (match assoc k kv with Some v => v | None => dflt end)
  | _ => Raise AttributeError
  end.

(** Truth value of a document, as [if x], [not x] and [x or y] see it. *)
Definition truthy (v : json) : bool :=
  match v with
  | JNull => false
  | JBool b => b
  | JInt z => negb (Z.eqb z 0)
  | JFloat f => negb (num_eqb (fval f) (NFin 0%Q))
  | JStr s => negb (String.eqb s "")
  | JList l => match l with [] => false | _ => true end
  | JDict d => match d with [] => false | _ => true end
  end.

(** [a or b] *)
Definition or_else (a b : json) : json := if truthy a then a else b.

(** [d.items()].  Only dicts have [.items]. *)
Definition items (d : json) : result (list (string * json)) :=
  match d with
  | JDict kv => Ok kv
  | _ => Raise AttributeError
  end.

Fixpoint chars (s : string) : list json :=
  match s with
  | EmptyString => []
  | String c s' => JStr (String c EmptyString) :: chars s'
  end.

(** [for x in v]: lists yield their elements, dicts their keys, strings
    their characters; [None], bools, ints and floats are not iterable. *)
Definition iter (v : json) : result (list json) :=
  match v with
  | JList l => Ok l
  | JDict kv => Ok (map (fun kv => JStr (fst kv)) kv)
  | JStr s => Ok (chars s)
  | JNull | JBool _ | JInt _ | JFloat _ => Raise TypeError
  end.

(** [a == b].  [bool] is a subclass of [int] ([True == 1]) and a float equals
    the int of the same value ([1.0 == 1]); lists compare element-wise;
    dicts compare as mappings, whatever the item order. *)
Fixpoint py_eq (a b : json) {struct a} : bool :=
  match a, b with
  | JNull, JNull => true
  | JBool x, JBool y => Bool.eqb x y
  | JBool x, JInt y => Z.eqb (Z.b2z x) y
  | JInt x, JBool y => Z.eqb x (Z.b2z y)
  | JInt x, JInt y => Z.eqb x y
  | JFloat x, JFloat y => num_eqb (fval x) (fval y)
  | JFloat x, JInt y => num_eqb (fval x) (NFin (inject_Z y))
  | JInt x, JFloat y => num_eqb (NFin (inject_Z x)) (fval y)
  | JFloat x, JBool y => num_eqb (fval x) (NFin (inject_Z (Z.b2z y)))
  | JBool x, JFloat y => num_eqb (NFin (inject_Z (Z.b2z x))) (fval y)
  | JStr x, JStr y => String.eqb x y
  | JList xs, JList ys =>
      (fix eq_list (xs ys : list json) {struct xs} : bool :=
         match xs, ys with
         | [], [] => true
         | x :: xs', y :: ys' => py_eq x y && eq_list xs' ys'
         | _, _ => false
         end) xs ys
  | JDict xs, JDict ys =>
      Nat.eqb (List.length xs) (List.length ys) &&
      (fix eq_items (xs : list (string * json)) {struct xs} : bool :=
         match xs with
         | [] => true
         | (k, v) :: xs' =>
             match assoc k ys with
             | Some v' => py_eq v v' && eq_items xs'
             | None => false
             end
         end) xs
  | _, _ => false
  end.

(** Hashable values and their identity as dict keys: [True], [1] and [1.0]
    are the same key, as are [0], [0.0] and [-0.0]; lists and dicts are
    unhashable.  A number is the key of its value: an integer, else a
    fraction in lowest terms, else an infinity. *)
Inductive hkey : Type :=
| HNone
| HInt (z : Z)
| HFrac (q : Q)
| HInf (negative : bool)
| HStr (s : string).

Definition hkey_eqb (a b : hkey) : bool :=
  match a, b with
  | HNone, HNone => true
  | HInt x, HInt y => Z.eqb x y
  | HFrac x, HFrac y =>
      Z.eqb (Qnum x) (Qnum y) && Pos.eqb (Qden x) (Qden y)
  | HInf x, HInf y => Bool.eqb x y
  | HStr x, HStr y => String.eqb x y
  | _, _ => false
  end.

Definition num_key (x : num) : hkey :=
  match x with
  | NFin q =>
      let r := Qred q in
      if Pos.eqb (Qden r) 1 then HInt (Qnum r) else HFrac r
  | NInf negative => HInf negative
  end.

Definition hash (v : json) : result hkey :=
  match v with
  | JNull => Ok HNone
  | JBool b => Ok (HInt (Z.b2z b))
  | JInt z => Ok (HInt z)
  | JFloat f => Ok (num_key (fval f))
  | JStr s => Ok (HStr s)
  | JList _ | JDict _ => Raise TypeError
  end.

(** The value of a numeric key. *)
Definition key_num (h : hkey) : option num :=
  match h with
  | HInt z => Some (NFin (inject_Z z))
  | HFrac q => Some (NFin q)
  | HInf negative => Some (NInf negative)
  | HNone | HStr _ => None
  end.

(** [a < b] on dict keys, as [sorted] compares them: strings by code point,
    ints, bools and floats by value; anything else is a [TypeError]. *)
Definition py_lt (a b : json) : result bool :=
  match hash a, hash b with
  | Ok (HStr x), Ok (HStr y) =>
      Ok (match String_as_OT.compare x y with Lt => true | _ => false end)
  | Ok x, Ok y =>
      match key_num x, key_num y with
      | Some p, Some q => Ok (num_ltb p q)
      | _, _ => Raise TypeError
      end
  | _, _ => Raise TypeError
  end.

End Py.

Import Py.

Declare Scope py_scope.
Delimit Scope py_scope with py.
Notation "x <- m ;; k" := (bind m (fun x => k))
  (at level 61, m at next level, right associativity) : py_scope.
Notation "m ;;; k" := (bind m (fun _ => k))
  (at level 61, right associativity) : py_scope.
Open Scope string_scope.
Open Scope list_scope.
Open Scope py_scope.

(** ** Insertion-ordered dictionaries ([dict], [defaultdict]) *)

Section OrderedDict.
Variables (K V : Type).
Variable eqb : K -> K -> bool.

Definition odict : Type := list (K * V).

Fixpoint od_find (k : K) (d : odict) : option V :=
  match d with
  | [] => None
  | (k', v) :: d' => if eqb k k' then Some v else od_find k d'
  end.

(** [d[k] = f(d[k])] on a [defaultdict] whose factory returns [dflt]:
    an existing key keeps its position, a new key goes last. *)
Fixpoint od_modify (dflt : V) (f : V -> V) (k : K) (d : odict) : odict :=
  match d with
  | [] => [(k, f dflt)]
  | (k', v) :: d' =>
      if eqb k k' then (k', f v) :: d'
      else (k', v) :: od_modify dflt f k d'
  end.
End OrderedDict.

Arguments od_find {K V} eqb k d.
Arguments od_modify {K V} eqb dflt f k d.

(** A dict keyed by namespace values.  Python identifies keys by hash and
    [==]; an entry remembers the key object that created it, which is what
    [items()] hands back. *)
Definition nsdict (V : Type) : Type := odict hkey (json * V).

(** [d[k] = f(d[k])] on a [defaultdict]; an unhashable [k] is a [TypeError]. *)
Definition nd_modify {V} (dflt : V) (f : V -> V) (k : json) (d : nsdict V)
  : result (nsdict V) :=
  h <- hash k ;;
  Ok (od_modify hkey_eqb (k, dflt) (fun e => (fst e, f (snd e))) h d).

(** [d.get(k, dflt)]: never creates the entry. *)
Definition nd_get {V} (d : nsdict V) (k : json) (dflt : V) : result V :=
  h <- hash k ;;
  Ok (match od_find hkey_eqb h d with Some e => snd e | None => dflt end).

(** [d.items()] *)
Definition nd_items {V} (d : nsdict V) : list (json * V) := map snd d.

(** [sorted(items)] on (key, value) pairs with pairwise distinct keys: the
    tuples are ordered by their keys.  An insertion sort stands for Python's
    stable sort; both raise exactly when two keys cannot be compared. *)
Fixpoint insert_sorted {V} (x : json * V) (l : list (json * V))
  : result (list (json * V)) :=
  match l with
  | [] => Ok [x]
  | y :: l' =>
      b <- py_lt (fst x) (fst y) ;;
      if b then Ok (x :: y :: l')
      else r <- insert_sorted x l' ;; Ok (y :: r)
  end.

Definition sorted {V} (l : list (json * V)) : result (list (json * V)) :=
  for_each l (fun acc x => insert_sorted x acc) [].

(** ** The script *)

Section Script.

(** What [format] prints for a float, a list or a dict inside an f-string
    (their [repr]).  The script only ever concatenates and compares such
    strings, so this printer is left abstract. *)
Variable repr : json -> string.

(** [f"{v}"] *)
Definition str (v : json) : string :=
  match v with
  | JStr s => s
  | JNull => "None"
  | JBool true => "True"
  | JBool false => "False"
  | JInt z => NilZero.string_of_int (Z.to_int z)
  | JFloat _ | JList _ | JDict _ => repr v
  end.

Definition empty_dict : json := JDict [].
Definition empty_list : json := JList [].

(** lines 28-33: [load_objects] keeps the documents that are dicts with a
    ["kind"] and a ["metadata"] key. *)
Definition has_key (k : string) (o : json) : bool :=
  match o with
  | JDict kv => match assoc k kv with Some _ => true | None => false end
  | _ => false
  end.

Definition normalize (objs : list json) : list json :=
  filter (fun o => has_key "kind" o && has_key "metadata" o) objs.

(** lines 35-37 *)
Definition ns (obj : json) : result json :=
  m <- get obj "metadata" empty_dict ;; get m "namespace" (JStr "default").

Definition name (obj : json) : result json :=
  m <- get obj "metadata" empty_dict ;; get m "name" (JStr "").

Definition kind (obj : json) : result json := get obj "kind" (JStr "").

(** line 39 *)
Definition label_map (obj : json) : result json :=
  m <- get obj "metadata" empty_dict ;;
  l <- get m "labels" empty_dict ;;
  Ok (or_else l empty_dict).

(** lines 47-49 *)
Definition svc_selector (obj : json) : result json :=
  sp <- get obj "spec" empty_dict ;;
  sel <- get sp "selector" empty_dict ;;
  Ok (or_else sel empty_dict).

(** lines 51-52 *)
Definition workload_kinds : list string :=
  ["Deployment"; "StatefulSet"; "DaemonSet"; "Job"; "CronJob"].

Definition workload_type (k : json) : bool :=
  existsb (fun c => py_eq k (JStr c)) workload_kinds.

(** line 54 *)
Definition obj_key (obj : json) : result string :=
  n <- ns obj ;;
  k <- kind obj ;;
  nm <- name obj ;;
  Ok (str n ++ ":" ++ str k ++ ":" ++ str nm)%string.

(** lines 70-87: the role buckets, each in load order. *)
Record buckets : Type := Buckets {
  workloads : list json;
  services : list json;
  ingresses : list json;
  pods : list json;
  endpoints : list json
}.

Definition no_buckets : buckets := Buckets [] [] [] [] [].

Definition classify_one (b : buckets) (o : json) : result buckets :=
  k <- kind o ;;
  Ok (if workload_type k then
        Buckets (workloads b ++ [o]) (services b) (ingresses b) (pods b)
                (endpoints b)
      else if py_eq k (JStr "Service") then
        Buckets (workloads b) (services b ++ [o]) (ingresses b) (pods b)
                (endpoints b)
      else if py_eq k (JStr "Ingress") then
        Buckets (workloads b) (services b) (ingresses b ++ [o]) (pods b)
                (endpoints b)
      else if py_eq k (JStr "Pod") then
        Buckets (workloads b) (services b) (ingresses b) (pods b ++ [o])
                (endpoints b)
      else if py_eq k (JStr "Endpoints") || py_eq k (JStr "EndpointSlice")
      then
        Buckets (workloads b) (services b) (ingresses b) (pods b)
                (endpoints b ++ [o])
      else b).

Definition classify (objs : list json) : result buckets :=
  for_each objs classify_one no_buckets.

(** *** Service -> Workload (lines 89-104) *)

(** lines 90-92: [wl_by_ns] *)
Definition build_wl_by_ns (wls : list json) : result (nsdict (list json)) :=
  for_each wls
    (fun wl_by_ns w =>
       n <- ns w ;; nd_modify [] (fun l => l ++ [w]) n wl_by_ns)
    [].

(** line 103: [all(wl_labels.get(k) == v for k, v in sel.items())] *)
Definition labels_match (wl_labels sel : json) : result bool :=
  kvs <- items sel ;;
  all_of kvs
    (fun kv => g <- get wl_labels (fst kv) JNull ;; Ok (py_eq g (snd kv))).

Definition backend_table : Type := odict string (list json).

(** lines 101-104, one candidate *)
Definition match_candidate (s sel : json) (svc_backends : backend_table)
           (w : json) : result backend_table :=
  wl_labels <- label_map w ;;
  hit <- labels_match wl_labels sel ;;
  if hit then
    skey <- obj_key s ;;
    Ok (od_modify String.eqb [] (fun l => l ++ [w]) skey svc_backends)
  else Ok svc_backends.

(** lines 95-104, one Service *)
Definition match_service (wl_by_ns : nsdict (list json))
           (svc_backends : backend_table) (s : json)
  : result backend_table :=
  sel <- svc_selector s ;;
  if negb (truthy sel) then Ok svc_backends
  else
    n <- ns s ;;
    candidates <- nd_get wl_by_ns n [] ;;
    for_each candidates (match_candidate s sel) svc_backends.

(** lines 89-104 *)
Definition build_svc_backends (wls svcs : list json) : result backend_table :=
  wl_by_ns <- build_wl_by_ns wls ;;
  for_each svcs (match_service wl_by_ns) [].

(** [svc_backends.get(skey, [])], lines 141 and 179 *)
Definition table_get (svc_backends : backend_table) (skey : string)
  : list json :=
  match od_find String.eqb skey svc_backends with
  | Some l => l
  | None => []
  end.

Definition backends_of (svc_backends : backend_table) (s : json)
  : result (list json) :=
  skey <- obj_key s ;; Ok (table_get svc_backends skey).

(** An edge Service -> Workload, as drawn by lines 139-142 and 177-180. *)
Record backend_edge : Type := BackendEdge {
  be_service : json;
  be_workload : json
}.

Definition backend_edges (svc_backends : backend_table) (svcs : list json)
  : result (list backend_edge) :=
  for_each svcs
    (fun acc s =>
       ws <- backends_of svc_backends s ;;
       Ok (acc ++ map (BackendEdge s) ws))
    [].

(** *** Namespace grouping of the container view (lines 122-131) *)

Record group : Type := Group {
  grp_services : list json;
  grp_workloads : list json
}.

Definition no_group : group := Group [] [].

Definition add_service (s : json) (g : group) : group :=
  Group (grp_services g ++ [s]) (grp_workloads g).

Definition add_workload (w : json) (g : group) : group :=
  Group (grp_services g) (grp_workloads g ++ [w]).

(** lines 122-124: [by_ns] *)
Definition build_by_ns (svcs wls : list json) : result (nsdict group) :=
  by_ns <- for_each svcs
             (fun by_ns s =>
                n <- ns s ;; nd_modify no_group (add_service s) n by_ns)
             [] ;;
  for_each wls
    (fun by_ns w =>
       n <- ns w ;; nd_modify no_group (add_workload w) n by_ns)
    by_ns.

(** line 131: [sorted(by_ns.items())] *)
Definition namespace_groups (svcs wls : list json)
  : result (list (json * group)) :=
  by_ns <- build_by_ns svcs wls ;; sorted (nd_items by_ns).

(** *** Ingress -> Service (lines 143-156, repeated at 195-206) *)

(** An edge Ingress -> Service name, drawn towards [svc_{name}_{ns_ing}]. *)
Record route_edge : Type := RouteEdge {
  re_ingress : json;
  re_service_name : json;
  re_namespace : json
}.

(** lines 151-156 / 202-206, one path *)
Definition path_routes (ing ns_ing : json) (acc : list route_edge)
           (p : json) : result (list route_edge) :=
  b <- get p "backend" empty_dict ;;
  svc <- get b "service" empty_dict ;;
  svcname <- get svc "name" JNull ;;
  if truthy svcname then Ok (acc ++ [RouteEdge ing svcname ns_ing])
  else Ok acc.

(** lines 149-156 / 200-206, one rule *)
Definition rule_routes (ing ns_ing : json) (acc : list route_edge)
           (r : json) : result (list route_edge) :=
  h <- get r "http" empty_dict ;;
  paths <- get h "paths" empty_list ;;
  ps <- iter paths ;;
  for_each ps (path_routes ing ns_ing) acc.

(** lines 145-156 / 196-206, one Ingress *)
Definition ingress_routes (acc : list route_edge) (ing : json)
  : result (list route_edge) :=
  ns_ing <- ns ing ;;
  sp <- get ing "spec" empty_dict ;;
  rules <- get sp "rules" empty_list ;;
  rs <- iter rules ;;
  for_each rs (rule_routes ing ns_ing) acc.

Definition resolve_routes (ings : list json) : result (list route_edge) :=
  for_each ings ingress_routes [].

(** [routesOf]: the routes of one Ingress. *)
Definition routes_of (ing : json) : result (list route_edge) :=
  ingress_routes [] ing.

(** *** Workload -> Pod (lines 183-192) *)

(** An edge Workload -> Pod ("controls"). *)
Record owner_edge : Type := OwnerEdge {
  oe_workload : json;
  oe_pod : json
}.

(** lines 190-192, one Workload tried against one owner reference *)
Definition try_owner (p oname okind : json) (acc : list owner_edge)
           (w : json) : result (list owner_edge) :=
  nw <- ns w ;;
  np <- ns p ;;
  if py_eq nw np then
    nmw <- name w ;;
    if py_eq nmw oname then
      kw <- kind w ;;
      if py_eq kw okind then Ok (acc ++ [OwnerEdge w p]) else Ok acc
    else Ok acc
  else Ok acc.

(** lines 187-192, one owner reference *)
Definition owner_links (wls : list json) (p : json)
           (acc : list owner_edge) (oref : json)
  : result (list owner_edge) :=
  oname <- get oref "name" JNull ;;
  okind <- get oref "kind" JNull ;;
  for_each wls (try_owner p oname okind) acc.

(** lines 185-192, one Pod *)
Definition pod_links (wls : list json) (acc : list owner_edge) (p : json)
  : result (list owner_edge) :=
  m <- get p "metadata" empty_dict ;;
  o <- get m "ownerReferences" empty_list ;;
  owners <- iter (or_else o empty_list) ;;
  for_each owners (owner_links wls p) acc.

(** lines 184-192 *)
Definition resolve_owners (wls pds : list json) : result (list owner_edge) :=
  for_each pds (pod_links wls) [].

(** [ownerWorkloadOf]: the Workloads linked to one Pod. *)
Definition owner_workloads_of (wls : list json) (p : json)
  : result (list json) :=
  es <- pod_links wls [] p ;; Ok (map oe_workload es).

(** *** [main] (lines 67-209), without argument parsing and file output

    The text of the diagrams is not modelled: each [append] of an edge line
    is recorded as the edge it draws.  The lines in between format [ns],
    [name] and [kind] of objects; where these were not read before, the
    read is kept ([node_lines]), as it may raise. *)

(** lines 168-175: every node line formats [ns] and [name] of its object. *)
Definition node_line (o : json) : result unit :=
  ns o ;;; name o ;;; Ok tt.

Definition node_lines (os : list json) : result unit :=
  for_each os (fun _ o => node_line o) tt.

Record graph : Type := Graph {
  (** container view *)
  g_groups : list (json * group);
  g_container_backends : list backend_edge;
  g_container_routes : list route_edge;
  (** topology view *)
  g_backends : list backend_edge;
  g_owners : list owner_edge;
  g_routes : list route_edge
}.

(** [docs] are the documents read from the files (lines 6-26);
    [include_pods] is the flag [--include-pods]. *)
Definition main (include_pods : bool) (docs : list json) : result graph :=
  let objs := normalize docs in
  b <- classify objs ;;
  svc_backends <- build_svc_backends (workloads b) (services b) ;;
  (* container view, lines 122-157 *)
  groups <- namespace_groups (services b) (workloads b) ;;
  cb <- backend_edges svc_backends (services b) ;;
  cr <- resolve_routes (ingresses b) ;;
  (* topology view, lines 163-206 *)
  node_lines (services b) ;;;
  node_lines (workloads b) ;;;
  (if include_pods then node_lines (pods b) else Ok tt) ;;;
  tb <- backend_edges svc_backends (services b) ;;
  own <- (if include_pods then resolve_owners (workloads b) (pods b)
          else Ok []) ;;
  tr <- resolve_routes (ingresses b) ;;
  Ok (Graph groups cb cr tb own tr).

(** *** [load_objects] (lines 5-33)

    Reading and parsing the files is left out: what [json.load] and
    [yaml.safe_load_all] hand back is the input. *)

Record sources : Type := Sources {
  src_json : option json;               (* the document of [--json] *)
  src_yaml : option (list json);        (* the documents of [--yaml] *)
  src_dir : option (list (list json))   (* those of each file of [--dir] *)
}.

(** lines 10-15: a [kubectl get -o json] list, or a single object.
    [objs.extend(items)] iterates [items]. *)
Definition read_json (data : json) : result (list json) :=
  items <- get data "items" empty_list ;;
  if truthy items then iter items else Ok [data].

(** lines 18-20 and 24-26: [if doc: objs.append(doc)] *)
Definition read_yaml (docs : list json) : list json := filter truthy docs.

(** lines 6-26 *)
Definition read_objects (a : sources) : result (list json) :=
  from_json <- match src_json a with
               | Some data => read_json data
               | None => Ok []
               end ;;
  Ok (from_json
        ++ match src_yaml a with Some docs => read_yaml docs | None => [] end
        ++ match src_dir a with
           | Some files => flat_map read_yaml files
           | None => []
           end).

(** lines 5-33 *)
Definition load_objects (a : sources) : result (list json) :=
  objs <- read_objects a ;; Ok (normalize objs).

(** lines 40-45 *)
Definition selector_map (obj : json) : result json :=
  sp <- get obj "spec" empty_dict ;;
  sel <- get sp "selector" empty_dict ;;
  match sel with
  | JDict _ =>
      ml <- get sel "matchLabels" sel ;; Ok (or_else ml empty_dict)
  | _ => Ok empty_dict
  end.

(** *** The text of the diagrams (lines 106-209)

    A double quote is written [dq], a line feed [nl]. *)

Definition dq : string := String (ascii_of_nat 34) EmptyString.
Definition nl : string := String (ascii_of_nat 10) EmptyString.
Definition quoted (s : string) : string := (dq ++ s ++ dq)%string.

(** ["\n".join(lines)] *)
Definition join_lines (lines : list string) : string := String.concat nl lines.

(** lines 107-117: the context diagram is a fixed text. *)
Definition c4_ctx : string :=
  (join_lines
     ["@startuml";
      "!include https://raw.githubusercontent.com/plantuml-stdlib/C4-PlantUML/master/C4_Context.puml";
      "title System Context - Your Platform";
      "";
      "Person(user, " ++ quoted "User" ++ ", "
        ++ quoted "Human using the platform" ++ ")";
      "System_Boundary(sys, " ++ quoted "Your Platform" ++ ") {";
      "  System(system, " ++ quoted "Kubernetes-based Data Platform" ++ ", "
        ++ quoted "Ingestion, Processing, Inference, Visualization" ++ ")";
      "}";
      "Rel(user, system, " ++ quoted "Uses" ++ ", " ++ quoted "HTTPS" ++ ")";
      "@enduml"]
   ++ nl)%string.

(** line 168 *)
Definition n_id (prefix : string) (o : json) : result string :=
  nm <- name o ;;
  n <- ns o ;;
  Ok (prefix ++ "_" ++ str nm ++ "_" ++ str n)%string.

(** **** Container view (lines 126-158) *)

Definition container_header : list string :=
  ["@startuml";
   "!include https://raw.githubusercontent.com/plantuml-stdlib/C4-PlantUML/master/C4_Container.puml";
   "title Container View - Namespaces, Services, Workloads";
   ("System_Boundary(k8s, " ++ quoted "Kubernetes Cluster" ++ ") {")%string].

(** line 132 *)
Definition boundary_open (namespace : json) : string :=
  ("  Container_Boundary(ns_" ++ str namespace ++ ", "
     ++ quoted ("Namespace: " ++ str namespace) ++ ") {")%string.

(** line 134 *)
Definition svc_container_line (namespace s : json) : result string :=
  nm <- name s ;;
  nm' <- name s ;;
  Ok ("    Container(svc_" ++ str nm ++ "_" ++ str namespace ++ ", "
        ++ quoted ("Service: " ++ str nm') ++ ", " ++ quoted "K8s Service"
        ++ ")")%string.

(** line 136 *)
Definition wl_container_line (namespace w : json) : result string :=
  nm <- name w ;;
  k <- kind w ;;
  nm' <- name w ;;
  Ok ("    Container(wl_" ++ str nm ++ "_" ++ str namespace ++ ", "
        ++ quoted (str k ++ ": " ++ str nm') ++ ", " ++ quoted "K8s Workload"
        ++ ")")%string.

(** lines 131-137, one group *)
Definition group_lines (lines : list string) (kg : json * group)
  : result (list string) :=
  let namespace := fst kg in
  lines <- for_each (grp_services (snd kg))
             (fun lines s =>
                l <- svc_container_line namespace s ;; Ok (lines ++ [l]))
             (lines ++ [boundary_open namespace]) ;;
  lines <- for_each (grp_workloads (snd kg))
             (fun lines w =>
                l <- wl_container_line namespace w ;; Ok (lines ++ [l]))
             lines ;;
  Ok (lines ++ ["  }"]).

(** line 142 *)
Definition rel_line (s w : json) : result string :=
  nms <- name s ;;
  nss <- ns s ;;
  nmw <- name w ;;
  nsw <- ns w ;;
  Ok ("Rel(svc_" ++ str nms ++ "_" ++ str nss ++ ", wl_" ++ str nmw ++ "_"
        ++ str nsw ++ ", " ++ quoted "routes to" ++ ")")%string.

(** lines 139-142, one Service *)
Definition backend_rel_lines (svc_backends : backend_table)
           (lines : list string) (s : json) : result (list string) :=
  skey <- obj_key s ;;
  for_each (table_get svc_backends skey)
    (fun lines w => l <- rel_line s w ;; Ok (lines ++ [l]))
    lines.

(** line 155 *)
Definition ingress_boundary_line (ing ns_ing : json) : result string :=
  nm <- name ing ;;
  nm' <- name ing ;;
  Ok ("Boundary(ing_" ++ str nm ++ "_" ++ str ns_ing ++ ", "
        ++ quoted ("Ingress: " ++ str nm') ++ ")")%string.

(** line 156 *)
Definition ingress_rel_line (ing ns_ing svcname : json) : result string :=
  nm <- name ing ;;
  Ok ("Rel(ing_" ++ str nm ++ "_" ++ str ns_ing ++ ", svc_" ++ str svcname
        ++ "_" ++ str ns_ing ++ ", " ++ quoted "forwards" ++ ")")%string.

(** lines 150-156, one path *)
Definition path_rel_lines (ing ns_ing : json) (lines : list string)
           (p : json) : result (list string) :=
  b <- get p "backend" empty_dict ;;
  svc <- get b "service" empty_dict ;;
  svcname <- get svc "name" JNull ;;
  if truthy svcname then
    l1 <- ingress_boundary_line ing ns_ing ;;
    l2 <- ingress_rel_line ing ns_ing svcname ;;
    Ok ((lines ++ [l1]) ++ [l2])
  else Ok lines.

(** lines 148-156, one rule *)
Definition rule_rel_lines (ing ns_ing : json) (lines : list string)
           (r : json) : result (list string) :=
  h <- get r "http" empty_dict ;;
  paths <- get h "paths" empty_list ;;
  ps <- iter paths ;;
  for_each ps (path_rel_lines ing ns_ing) lines.

(** lines 143-156, one Ingress *)
Definition ingress_rel_lines (lines : list string) (ing : json)
  : result (list string) :=
  ns_ing <- ns ing ;;
  sp <- get ing "spec" empty_dict ;;
  rules <- get sp "rules" empty_list ;;
  rs <- iter rules ;;
  for_each rs (rule_rel_lines ing ns_ing) lines.

(** lines 122-158 *)
Definition container_view (svc_backends : backend_table) (b : buckets)
  : result (list string) :=
  by_ns <- build_by_ns (services b) (workloads b) ;;
  groups <- sorted (nd_items by_ns) ;;
  lines <- for_each groups group_lines container_header ;;
  lines <- for_each (services b) (backend_rel_lines svc_backends) lines ;;
  lines <- for_each (ingresses b) ingress_rel_lines lines ;;
  Ok ((lines ++ ["}"]) ++ ["@enduml"]).

(** **** Topology view (lines 163-208) *)

Definition topology_header : list string :=
  ["@startuml";
   "title Kubernetes Topology - Services ↔ Workloads";
   "skinparam linetype ortho"].

(** line 170 *)
Definition svc_node_line (s : json) : result string :=
  n <- ns s ;;
  nm <- name s ;;
  id <- n_id "svc" s ;;
  Ok ("node " ++ quoted (str n ++ "/svc/" ++ str nm) ++ " as " ++ id)%string.

(** line 172 *)
Definition wl_node_line (w : json) : result string :=
  n <- ns w ;;
  k <- kind w ;;
  nm <- name w ;;
  id <- n_id "wl" w ;;
  Ok ("component " ++ quoted (str n ++ "/" ++ str k ++ "/" ++ str nm)
        ++ " as " ++ id)%string.

(** line 175 *)
Definition pod_node_line (p : json) : result string :=
  n <- ns p ;;
  nm <- name p ;;
  id <- n_id "pod" p ;;
  Ok ("() " ++ quoted (str n ++ "/pod/" ++ str nm) ++ " as " ++ id)%string.

(** line 180 *)
Definition backend_arrow_line (s w : json) : result string :=
  ids <- n_id "svc" s ;;
  idw <- n_id "wl" w ;;
  Ok (ids ++ " --> " ++ idw ++ " : routes")%string.

(** lines 177-180, one Service *)
Definition backend_arrow_lines (svc_backends : backend_table)
           (low : list string) (s : json) : result (list string) :=
  skey <- obj_key s ;;
  for_each (table_get svc_backends skey)
    (fun low w => l <- backend_arrow_line s w ;; Ok (low ++ [l]))
    low.

(** line 192 *)
Definition owner_arrow_line (w p : json) : result string :=
  idw <- n_id "wl" w ;;
  idp <- n_id "pod" p ;;
  Ok (idw ++ " --> " ++ idp ++ " : controls")%string.

(** lines 190-192, one Workload tried against one owner reference *)
Definition try_owner_line (p oname okind : json) (low : list string)
           (w : json) : result (list string) :=
  nw <- ns w ;;
  np <- ns p ;;
  if py_eq nw np then
    nmw <- name w ;;
    if py_eq nmw oname then
      kw <- kind w ;;
      if py_eq kw okind then
        l <- owner_arrow_line w p ;; Ok (low ++ [l])
      else Ok low
    else Ok low
  else Ok low.

(** lines 186-192, one owner reference *)
Definition owner_link_lines (wls : list json) (p : json)
           (low : list string) (oref : json) : result (list string) :=
  oname <- get oref "name" JNull ;;
  okind <- get oref "kind" JNull ;;
  for_each wls (try_owner_line p oname okind) low.

(** lines 184-192, one Pod *)
Definition pod_link_lines (wls : list json) (low : list string) (p : json)
  : result (list string) :=
  m <- get p "metadata" empty_dict ;;
  o <- get m "ownerReferences" empty_list ;;
  owners <- iter (or_else o empty_list) ;;
  for_each owners (owner_link_lines wls p) low.

(** line 196 *)
Definition cloud_line (ing : json) : result string :=
  n <- ns ing ;;
  nm <- name ing ;;
  id <- n_id "ing" ing ;;
  Ok ("cloud " ++ quoted (str n ++ "/ing/" ++ str nm) ++ " as " ++ id)%string.

(** line 206 *)
Definition forward_line (ing ns_ing svcname : json) : result string :=
  id <- n_id "ing" ing ;;
  Ok (id ++ " --> svc_" ++ str svcname ++ "_" ++ str ns_ing
        ++ " : forwards")%string.

(** lines 201-206, one path *)
Definition path_arrow_lines (ing ns_ing : json) (low : list string)
           (p : json) : result (list string) :=
  b <- get p "backend" empty_dict ;;
  svc <- get b "service" empty_dict ;;
  svcname <- get svc "name" JNull ;;
  if truthy svcname then
    l <- forward_line ing ns_ing svcname ;; Ok (low ++ [l])
  else Ok low.

(** lines 199-206, one rule *)
Definition rule_arrow_lines (ing ns_ing : json) (low : list string)
           (r : json) : result (list string) :=
  h <- get r "http" empty_dict ;;
  paths <- get h "paths" empty_list ;;
  ps <- iter paths ;;
  for_each ps (path_arrow_lines ing ns_ing) low.

(** lines 195-206, one Ingress *)
Definition ingress_arrow_lines (low : list string) (ing : json)
  : result (list string) :=
  cl <- cloud_line ing ;;
  ns_ing <- ns ing ;;
  sp <- get ing "spec" empty_dict ;;
  rules <- get sp "rules" empty_list ;;
  rs <- iter rules ;;
  for_each rs (rule_arrow_lines ing ns_ing) (low ++ [cl]).

Definition node_lines_of (line : json -> result string)
           (low : list string) (os : list json) : result (list string) :=
  for_each os (fun low o => l <- line o ;; Ok (low ++ [l])) low.

(** lines 163-208 *)
Definition topology_view (include_pods : bool)
           (svc_backends : backend_table) (b : buckets)
  : result (list string) :=
  low <- node_lines_of svc_node_line topology_header (services b) ;;
  low <- node_lines_of wl_node_line low (workloads b) ;;
  low <- (if include_pods then node_lines_of pod_node_line low (pods b)
          else Ok low) ;;
  low <- for_each (services b) (backend_arrow_lines svc_backends) low ;;
  low <- (if include_pods
          then for_each (pods b) (pod_link_lines (workloads b)) low
          else Ok low) ;;
  low <- for_each (ingresses b) ingress_arrow_lines low ;;
  Ok (low ++ ["@enduml"]).

(** **** The texts of the three files (lines 118, 159, 209)

    The texts that the script hands to [write], one after the other, as far
    as it gets when no [write] fails, with the way the resolution and the
    rendering end. *)
Definition main_texts (include_pods : bool) (docs : list json)
  : list (string * string) * result unit :=
  match (b <- classify (normalize docs) ;;
         t <- build_svc_backends (workloads b) (services b) ;;
         Ok (b, t)) with
  | Raise e => ([], Raise e)
  | Ok (b, svc_backends) =>
      let written := [("c4-context.puml", c4_ctx)] in
      match container_view svc_backends b with
      | Raise e => (written, Raise e)
      | Ok lines =>
          let written :=
            written ++ [("c4-container.puml", join_lines lines)] in
          match topology_view include_pods svc_backends b with
          | Raise e => (written, Raise e)
          | Ok low =>
              (written ++ [("k8s-topology.puml", join_lines low)], Ok tt)
          end
      end
  end.

(** **** The files written (lines 118, 159, 209)

    [open(path, "w").write(text)]: [open] creates the file, or empties the
    one that is there; [write] then encodes the whole text with the default
    encoding of the platform and raises [UnicodeEncodeError], nothing
    written, when the text holds a character the encoding lacks (a lone
    surrogate out of a JSON escape under UTF-8; the arrow of the topology
    title under an ASCII locale).  Which texts the encoding takes is the
    parameter [encodes].  The output directory is taken to be writable. *)

(** How the script ends. *)
Inductive ending : Type :=
| Done
| Raised (e : exn)    (* out of the resolution or of the rendering *)
| EncodeFailed.       (* [UnicodeEncodeError] out of a [write] *)

(** The files the run created, in the order of their creation, each with
    what it holds when the script ends, and the way the script ends. *)
Definition main_files (encodes : string -> bool) (include_pods : bool)
           (docs : list json) : list (string * string) * ending :=
  match (b <- classify (normalize docs) ;;
         t <- build_svc_backends (workloads b) (services b) ;;
         Ok (b, t)) with
  | Raise e => ([], Raised e)
  | Ok (b, svc_backends) =>
      if encodes c4_ctx then
        let written := [("c4-context.puml", c4_ctx)] in
        match container_view svc_backends b with
        | Raise e => (written, Raised e)
        | Ok lines =>
            if encodes (join_lines lines) then
              let written :=
                written ++ [("c4-container.puml", join_lines lines)] in
              match topology_view include_pods svc_backends b with
              | Raise e => (written, Raised e)
              | Ok low =>
                  if encodes (join_lines low) then
                    (written ++ [("k8s-topology.puml", join_lines low)],
                     Done)
                  else
                    (written ++ [("k8s-topology.puml", "")], EncodeFailed)
              end
            else ([("c4-context.puml", c4_ctx); ("c4-container.puml", "")],
                  EncodeFailed)
        end
      else ([("c4-context.puml", "")], EncodeFailed)
  end.

(** ** Vocabulary of the statements *)

(** The dict key of an object's namespace, when it has one. *)
Definition ns_key (o : json) : option hkey :=
  match ns o with
  | Ok n => match hash n with Ok h => Some h | Raise _ => None end
  | Raise _ => None
  end.

Definition in_namespace (h : hkey) (o : json) : bool :=
  match ns_key o with Some h' => hkey_eqb h h' | None => false end.

(** Line 103 succeeded and said yes. *)
Definition hits (sel w : json) : bool :=
  match label_map w with
  | Ok lbl => match labels_match lbl sel with Ok b => b | Raise _ => false end
  | Raise _ => false
  end.

(** What one Service adds under [key]: nothing unless its selector is
    truthy and [key] is its own key; otherwise the Workloads of its
    namespace that line 103 accepts, in load order. *)
Definition contribution (wls : list json) (key : string) (s : json)
  : list json :=
  match svc_selector s, ns_key s, obj_key s with
  | Ok sel, Some h, Ok skey =>
      if truthy sel && String.eqb key skey
      then filter (fun w => in_namespace h w && hits sel w) wls
      else []
  | _, _, _ => []
  end.

Definition nd_lookup (h : hkey) (d : nsdict (list json)) : list json :=
  match od_find hkey_eqb h d with Some e => snd e | None => [] end.

Definition kind_is (c : string) (o : json) : bool :=
  match kind o with Ok k => py_eq k (JStr c) | Raise _ => false end.

Definition is_workload (o : json) : bool :=
  match kind o with Ok k => workload_type k | Raise _ => false end.

Definition is_endpoint (o : json) : bool :=
  kind_is "Endpoints" o || kind_is "EndpointSlice" o.

(** Every pair of the selector is found in the Workload's labels:
    [wl_labels.get(k) == v] for each [(k, v)] of [sel.items()]. *)
Definition selector_satisfied (sel w : json) : Prop :=
  exists kvs lbl,
    items sel = Ok kvs /\
    label_map w = Ok lbl /\
    forall k v, In (k, v) kvs ->
                exists g, get lbl k JNull = Ok g /\ py_eq g v = true.

(** Two objects whose namespaces are the same dict key. *)
Definition same_namespace (a b : json) : Prop :=
  exists h, ns_key a = Some h /\ ns_key b = Some h.

(** No other loaded Service is filed under the key of [s]. *)
Definition key_unique (svcs : list json) (s : json) : Prop :=
  forall s', In s' svcs -> obj_key s' = obj_key s -> s' = s.

(** [emit_all emit xs]: the emissions of the elements of [xs], in order,
    stopping at the first exception. *)
Fixpoint emit_all {A T} (emit : A -> result (list T)) (xs : list A)
  : result (list T) :=
  match xs with
  | [] => Ok []
  | x :: xs' => e <- emit x ;; es <- emit_all emit xs' ;; Ok (e ++ es)
  end.

(** [p.get("backend", {}).get("service", {}).get("name")], lines 151-153 *)
Definition path_service_name (p : json) : result json :=
  b <- get p "backend" empty_dict ;;
  svc <- get b "service" empty_dict ;;
  get svc "name" JNull.

(** The paths a rule is iterated over, line 149 *)
Definition rule_paths (r : json) : result (list json) :=
  h <- get r "http" empty_dict ;;
  paths <- get h "paths" empty_list ;;
  iter paths.

(** The rules an Ingress is iterated over, line 146 *)
Definition ingress_rules (ing : json) : result (list json) :=
  sp <- get ing "spec" empty_dict ;;
  rules <- get sp "rules" empty_list ;;
  iter rules.

(** One path: one edge when it carries a truthy service name. *)
Definition path_emit (ing ns_ing p : json) : result (list route_edge) :=
  svcname <- path_service_name p ;;
  Ok (if truthy svcname then [RouteEdge ing svcname ns_ing] else []).

Definition rule_emit (ing ns_ing r : json) : result (list route_edge) :=
  ps <- rule_paths r ;; emit_all (path_emit ing ns_ing) ps.

Definition ingress_emit (ing : json) : result (list route_edge) :=
  ns_ing <- ns ing ;;
  rs <- ingress_rules ing ;;
  emit_all (rule_emit ing ns_ing) rs.



(** The owner references a Pod is iterated over, line 185 *)
Definition owner_refs (p : json) : result (list json) :=
  m <- get p "metadata" empty_dict ;;
  o <- get m "ownerReferences" empty_list ;;
  iter (or_else o empty_list).

(** The test of line 191 *)
Definition owner_test (p oname okind w : json) : result bool :=
  nw <- ns w ;;
  np <- ns p ;;
  if py_eq nw np then
    nmw <- name w ;;
    if py_eq nmw oname then kw <- kind w ;; Ok (py_eq kw okind)
    else Ok false
  else Ok false.

(** Same namespace, same name, same kind. *)
Definition owner_matches (p oref w : json) : Prop :=
  exists nw np nmw kw oname okind,
    ns w = Ok nw /\ ns p = Ok np /\ py_eq nw np = true /\
    name w = Ok nmw /\ get oref "name" JNull = Ok oname /\
    py_eq nmw oname = true /\
    kind w = Ok kw /\ get oref "kind" JNull = Ok okind /\
    py_eq kw okind = true.

Definition workload_emit (p oname okind w : json) : result (list owner_edge) :=
  b <- owner_test p oname okind w ;;
  Ok (if b then [OwnerEdge w p] else []).

Definition owner_emit (wls : list json) (p oref : json)
  : result (list owner_edge) :=
  oname <- get oref "name" JNull ;;
  okind <- get oref "kind" JNull ;;
  emit_all (workload_emit p oname okind) wls.

Definition pod_emit (wls : list json) (p : json) : result (list owner_edge) :=
  owners <- owner_refs p ;; emit_all (owner_emit wls p) owners.

(** The identity of a Workload whose namespace, kind and name are strings. *)
Definition str_ident (w : json) : option (string * string * string) :=
  match ns w, kind w, name w with
  | Ok (JStr n), Ok (JStr k), Ok (JStr m) => Some (n, k, m)
  | _, _, _ => None
  end.

(** A fraction key is in lowest terms and is not an integer: the form in
    which [hash] hands out the key of a number. *)
Definition key_ok (h : hkey) : Prop :=
  match h with
  | HFrac q => Qred q = q /\ Qden q <> 1%positive
  | _ => True
  end.

(** Strictly ascending keys, as [<] orders them. *)
Definition key_lt {V} (a b : json * V) : Prop :=
  py_lt (fst a) (fst b) = Ok true.

(** What a loop filing objects under their namespace keeps true. *)
Definition nsdict_ok {V} (d : nsdict V) : Prop :=
  NoDup (map fst d) /\ Forall (fun e => hash (fst (snd e)) = Ok (fst e)) d.

(** Line 191, for one owner reference and one Workload, as a boolean. *)
Definition owner_matchb (p oref w : json) : bool :=
  match get oref "name" JNull, get oref "kind" JNull with
  | Ok oname, Ok okind =>
      match owner_test p oname okind w with Ok b => b | Raise _ => false end
  | _, _ => false
  end.

(** The order "namespace, then kind, then name" on string identities. *)
Definition ident_compare (a b : string * string * string) : comparison :=
  match a, b with
  | (na, ka, ma), (nb, kb, mb) =>
      match String_as_OT.compare na nb with
      | Eq => match String_as_OT.compare ka kb with
              | Eq => String_as_OT.compare ma mb
              | c => c
              end
      | c => c
      end
  end.

(** A list of objects laid out in (namespace, kind, name) order. *)
Definition in_key_order (l : list json) : Prop :=
  forall i j a b,
    (i < j)%nat -> nth_error l i = Some a -> nth_error l j = Some b ->
    exists ka kb,
      str_ident a = Some ka /\ str_ident b = Some kb /\
      ident_compare ka kb <> Gt.

(** An object whose [metadata] can be read. *)
Definition readable (o : json) : Prop := exists n, ns o = Ok n.

(** *** Documents whose optional fields are absent or of the expected type *)

Definition is_str (v : json) : bool :=
  match v with JStr _ => true | _ => false end.

Definition is_dict (v : json) : bool :=
  match v with JDict _ => true | _ => false end.

Definition falsy_or (P : json -> bool) (v : json) : bool :=
  negb (truthy v) || P v.

Definition absent_or (P : json -> bool) (k : string)
           (kv : list (string * json)) : bool :=
  match assoc k kv with Some v => P v | None => true end.

Definition list_of (P : json -> bool) (v : json) : bool :=
  match v with JList l => forallb P l | _ => false end.

Definition dict_with (P : list (string * json) -> bool) (v : json) : bool :=
  match v with JDict kv => P kv | _ => false end.

Definition shaped_path : json -> bool :=
  dict_with (absent_or (dict_with (absent_or is_dict "service")) "backend").

Definition shaped_rule : json -> bool :=
  dict_with
    (absent_or (dict_with (absent_or (list_of shaped_path) "paths")) "http").

Definition shaped_meta : json -> bool :=
  dict_with
    (fun mk =>
       absent_or is_str "namespace" mk &&
       absent_or (falsy_or is_dict) "labels" mk &&
       absent_or (falsy_or (list_of is_dict)) "ownerReferences" mk).

Definition shaped_spec : json -> bool :=
  dict_with
    (fun sk =>
       absent_or (falsy_or is_dict) "selector" sk &&
       absent_or (list_of shaped_rule) "rules" sk).

(** A manifest object every field of which the script reads is either
    absent or of the type the script expects ([null] is neither, except
    where the script writes [or {}] / [or []]). *)
Definition shaped : json -> bool :=
  dict_with
    (fun kv =>
       absent_or shaped_meta "metadata" kv && absent_or shaped_spec "spec" kv).

(** *** Vocabulary of the further statements *)

(** [c] occurs in [s]. *)
Fixpoint has_char (c : ascii) (s : string) : bool :=
  match s with
  | EmptyString => false
  | String c' s' => Ascii.eqb c c' || has_char c s'
  end.

(** The value filed under a namespace key, or the factory's value. *)
Definition nd_value {V} (dflt : V) (h : hkey) (d : nsdict V) : V :=
  match od_find hkey_eqb h d with Some e => snd e | None => dflt end.

(** The kinds [main] looks at after classification. *)
Definition recognised (o : json) : bool :=
  is_workload o || kind_is "Service" o || kind_is "Ingress" o
  || kind_is "Pod" o.

(** *** What the diagrams say about a graph *)

(** The text of a field that was read, as an f-string prints it. *)
Definition txt (r : result json) : string :=
  match r with Ok v => str v | Raise _ => "" end.

(** The alias of the node of an object: [prefix_name_namespace]. *)
Definition alias (prefix : string) (o : json) : string :=
  (prefix ++ "_" ++ txt (name o) ++ "_" ++ txt (ns o))%string.

Definition render_svc_container (namespace s : json) : string :=
  ("    Container(svc_" ++ txt (name s) ++ "_" ++ str namespace ++ ", "
     ++ quoted ("Service: " ++ txt (name s)) ++ ", " ++ quoted "K8s Service"
     ++ ")")%string.

Definition render_wl_container (namespace w : json) : string :=
  ("    Container(wl_" ++ txt (name w) ++ "_" ++ str namespace ++ ", "
     ++ quoted (txt (kind w) ++ ": " ++ txt (name w)) ++ ", "
     ++ quoted "K8s Workload" ++ ")")%string.

Definition render_group (kg : json * group) : list string :=
  boundary_open (fst kg)
  :: map (render_svc_container (fst kg)) (grp_services (snd kg))
  ++ map (render_wl_container (fst kg)) (grp_workloads (snd kg))
  ++ ["  }"].

Definition render_rel (e : backend_edge) : string :=
  ("Rel(svc_" ++ txt (name (be_service e)) ++ "_" ++ txt (ns (be_service e))
     ++ ", wl_" ++ txt (name (be_workload e)) ++ "_"
     ++ txt (ns (be_workload e)) ++ ", " ++ quoted "routes to" ++ ")")%string.

Definition render_route_rel (e : route_edge) : list string :=
  [("Boundary(ing_" ++ txt (name (re_ingress e)) ++ "_"
      ++ str (re_namespace e) ++ ", "
      ++ quoted ("Ingress: " ++ txt (name (re_ingress e))) ++ ")")%string;
   ("Rel(ing_" ++ txt (name (re_ingress e)) ++ "_" ++ str (re_namespace e)
      ++ ", svc_" ++ str (re_service_name e) ++ "_" ++ str (re_namespace e)
      ++ ", " ++ quoted "forwards" ++ ")")%string].

(** The container view of groups, backend edges and route edges. *)
Definition render_container (gs : list (json * group))
           (cb : list backend_edge) (cr : list route_edge) : list string :=
  container_header ++ flat_map render_group gs ++ map render_rel cb
  ++ flat_map render_route_rel cr ++ ["}"; "@enduml"].

Definition render_svc_node (s : json) : string :=
  ("node " ++ quoted (txt (ns s) ++ "/svc/" ++ txt (name s)) ++ " as "
     ++ alias "svc" s)%string.

Definition render_wl_node (w : json) : string :=
  ("component "
     ++ quoted (txt (ns w) ++ "/" ++ txt (kind w) ++ "/" ++ txt (name w))
     ++ " as " ++ alias "wl" w)%string.

Definition render_pod_node (p : json) : string :=
  ("() " ++ quoted (txt (ns p) ++ "/pod/" ++ txt (name p)) ++ " as "
     ++ alias "pod" p)%string.

Definition render_arrow (e : backend_edge) : string :=
  (alias "svc" (be_service e) ++ " --> " ++ alias "wl" (be_workload e)
     ++ " : routes")%string.

Definition render_owner (e : owner_edge) : string :=
  (alias "wl" (oe_workload e) ++ " --> " ++ alias "pod" (oe_pod e)
     ++ " : controls")%string.

Definition render_cloud (ing : json) : string :=
  ("cloud " ++ quoted (txt (ns ing) ++ "/ing/" ++ txt (name ing)) ++ " as "
     ++ alias "ing" ing)%string.

Definition render_forward (e : route_edge) : string :=
  (alias "ing" (re_ingress e) ++ " --> svc_" ++ str (re_service_name e)
     ++ "_" ++ str (re_namespace e) ++ " : forwards")%string.

(** The routes of an Ingress, none if reading it raises. *)
Definition routes_list (ing : json) : list route_edge :=
  match routes_of ing with Ok es => es | Raise _ => [] end.

(** The topology view of the role buckets and the edges. *)
Definition render_topology (include_pods : bool)
           (svcs wls pds ings : list json)
           (tb : list backend_edge) (own : list owner_edge) : list string :=
  topology_header
  ++ map render_svc_node svcs
  ++ map render_wl_node wls
  ++ (if include_pods then map render_pod_node pds else [])
  ++ map render_arrow tb
  ++ map render_owner own
  ++ flat_map
       (fun ing => render_cloud ing :: map render_forward (routes_list ing))
       ings
  ++ ["@enduml"].

Definition file_names : list string :=
  ["c4-context.puml"; "c4-container.puml"; "k8s-topology.puml"].

Definition not_pod (o : json) : bool := negb (kind_is "Pod" o).

(** A bool, an int or a float. *)
Definition is_num (v : json) : bool :=
  match v with JBool _ | JInt _ | JFloat _ => true | _ => false end.


(** What becomes of texts that are written one after the other: each is
    stored whole, up to the first one that the encoding refuses, whose file
    is left empty; the flag says whether all were taken. *)
Fixpoint written (encodes : string -> bool) (texts : list (string * string))
  : list (string * string) * bool :=
  match texts with
  | [] => ([], true)
  | (name, text) :: rest =>
      if encodes text then
        ((name, text) :: fst (written encodes rest),
         snd (written encodes rest))
      else ([(name, "")], false)
  end.

Definition ending_of (all_taken : bool) (r : result unit) : ending :=
  if all_taken then match r with Ok _ => Done | Raise e => Raised e end
  else EncodeFailed.

(** The arrow of the topology title (U+2194). *)
Definition title_arrow : string := "↔".

(** ** Sample manifests *)

Definition obj (k : string) (meta spec : list (string * json)) : json :=
  JDict [("kind", JStr k); ("metadata", JDict meta); ("spec", JDict spec)].

Definition strs (kv : list (string * string)) : json :=
  JDict (map (fun p => (fst p, JStr (snd p))) kv).

Definition svc_frontend : json :=
  obj "Service" [("name", JStr "frontend"); ("namespace", JStr "web")]
      [("selector", strs [("app", "frontend")])].

Definition deploy_frontend : json :=
  obj "Deployment"
      [("name", JStr "frontend-deploy"); ("namespace", JStr "web");
       ("labels", strs [("app", "frontend"); ("tier", "ui")])]
      [].

(** A printer of containers to run the samples with; none of them has a
    container where a name or a namespace is expected. *)
Definition plain_repr (v : json) : string := "".

(** A Service of the same name and namespace as [svc_frontend], without a
    selector. *)
Definition svc_headless : json :=
  obj "Service" [("name", JStr "frontend"); ("namespace", JStr "web")]
      [("clusterIP", JStr "None")].

Definition ingress_main : json :=
  obj "Ingress" [("name", JStr "main"); ("namespace", JStr "web")]
      [("rules",
        JList
          [JDict
             [("http",
               JDict
                 [("paths",
                   JList
                     [JDict
                        [("path", JStr "/");
                         ("backend",
                          JDict
                            [("service",
                              JDict [("name", JStr "frontend")])])]])])]])].

(** [spec: {rules: null}], as a manifest with an empty [rules:] parses. *)
Definition ingress_null_rules : json :=
  obj "Ingress" [("name", JStr "main"); ("namespace", JStr "web")]
      [("rules", JNull)].

Definition owner_ref (k n : string) : json :=
  JDict [("kind", JStr k); ("name", JStr n)].

Definition pod_frontend : json :=
  obj "Pod"
      [("name", JStr "frontend-deploy-abc123"); ("namespace", JStr "web");
       ("ownerReferences",
        JList [owner_ref "ReplicaSet" "frontend-deploy-rs"])]
      [].

Definition rs_frontend : json :=
  obj "ReplicaSet"
      [("name", JStr "frontend-deploy-rs"); ("namespace", JStr "web");
       ("ownerReferences", JList [owner_ref "Deployment" "frontend-deploy"])]
      [].

Definition sts_db : json :=
  obj "StatefulSet" [("name", JStr "db"); ("namespace", JStr "web")] [].

Definition pod_two_owners : json :=
  obj "Pod"
      [("name", JStr "shared"); ("namespace", JStr "web");
       ("ownerReferences",
        JList [owner_ref "Deployment" "frontend-deploy";
               owner_ref "StatefulSet" "db"])]
      [].

Definition deploy_named (n : string) (labels : list (string * string))
  : json :=
  obj "Deployment"
      [("name", JStr n); ("namespace", JStr "web"); ("labels", strs labels)]
      [].

Definition svc_selecting (n : string) (sel : list (string * string)) : json :=
  obj "Service" [("name", JStr n); ("namespace", JStr "web")]
      [("selector", strs sel)].

(** Two documents for one Deployment [web/x], with different labels. *)
Definition deploy_x_first : json := deploy_named "x" [("app", "a")].
Definition deploy_x_second : json := deploy_named "x" [("app", "b")].

Definition pod_batch : json :=
  obj "Pod" [("name", JStr "worker"); ("namespace", JStr "batch")] [].

Definition pod_of_deploy : json :=
  obj "Pod"
      [("name", JStr "frontend-deploy-xyz789"); ("namespace", JStr "web");
       ("ownerReferences", JList [owner_ref "Deployment" "frontend-deploy"])]
      [].

Definition svc_api : json :=
  obj "Service" [("name", JStr "gateway"); ("namespace", JStr "api")] [].

Definition deploy_zeta : json := deploy_named "zeta" [("app", "frontend")].
Definition deploy_alpha : json := deploy_named "alpha" [("app", "frontend")].

(** A second document for the Service [web/frontend], selecting something
    else, and the Deployment it selects. *)
Definition svc_frontend_other : json :=
  svc_selecting "frontend" [("app", "other")].

Definition deploy_other : json := deploy_named "other" [("app", "other")].

(** Documents with optional fields left out: a Deployment without namespace
    and labels, an Ingress whose only path has a resource backend. *)
Definition deploy_bare : json := obj "Deployment" [("name", JStr "worker")] [].

Definition ingress_resource_backend : json :=
  obj "Ingress" [("name", JStr "assets"); ("namespace", JStr "web")]
      [("rules",
        JList
          [JDict [("host", JStr "static.example.com")];
           JDict
             [("http",
               JDict
                 [("paths",
                   JList
                     [JDict
                        [("path", JStr "/");
                         ("backend",
                          JDict
                            [("resource",
                              JDict [("kind", JStr "StorageBucket")])])]])])]])].




(** What [kubectl get svc,deploy -o json] prints: a list document. *)
Definition kubectl_list : json :=
  JDict [("apiVersion", JStr "v1"); ("kind", JStr "List");
         ("metadata", JDict []);
         ("items", JList [svc_frontend; deploy_frontend])].

(** A Deployment with the selector layout of workloads. *)
Definition deploy_with_selector : json :=
  obj "Deployment" [("name", JStr "frontend-deploy"); ("namespace", JStr "web")]
      [("selector", JDict [("matchLabels", strs [("app", "frontend")])])].

(** An encoding that takes ASCII only: every byte below 128. *)
Definition ascii_char (c : ascii) : bool :=
  match c with Ascii _ _ _ _ _ _ _ high => negb high end.

Fixpoint ascii_only (s : string) : bool :=
  match s with
  | EmptyString => true
  | String c s' => ascii_char c && ascii_only s'
  end.

(** Workloads whose namespaces are the numbers [2], [1.5] and [True]. *)
Definition deploy_in (n : string) (namespace : json) : json :=
  obj "Deployment" [("name", JStr n); ("namespace", namespace)] [].

Definition deploy_two : json := deploy_in "b" (JInt 2).
Definition deploy_one_and_a_half : json :=
  deploy_in "a" (JFloat (FFin (3 # 2))).
Definition deploy_true : json := deploy_in "d" (JBool true).

(** ** Reasoning about the error monad and the loops *)

Lemma bind_ok {A B} (m : result A) (f : A -> result B) (b : B) :
  bind m f = Ok b -> exists a, m = Ok a /\ f a = Ok b.
Proof.
  destruct m as [a|e]; simpl; intros H; [eauto | discriminate].
Qed.

(** Split a successful monadic computation into its successful steps. *)
Tactic Notation "unbind" hyp(H) "as" ident(a) ident(Ha) :=
  apply bind_ok in H; destruct H as (a & Ha & H).

Lemma all_of_true {A} (xs : list A) (test : A -> result bool) :
  all_of xs test = Ok true <-> forall x, In x xs -> test x = Ok true.
Proof.
  induction xs as [|x xs IH]; simpl.
  - split; [intros _ y [] | reflexivity].
  - split.
    + intros H. unbind H as v E. destruct v; [|discriminate].
      intros y [<-|Hy]; [assumption|]. now apply IH.
    + intros H. rewrite (H x) by now left. simpl.
      apply IH. intros; apply H; now right.
Qed.

Lemma hkey_eqb_eq (a b : hkey) : hkey_eqb a b = true <-> a = b.
Proof.
  destruct a as [|x|x|x|x], b as [|y|y|y|y]; simpl; split; intros H;
    try discriminate; try reflexivity.
  - apply Z.eqb_eq in H; now subst.
  - inversion H; apply Z.eqb_refl.
  - apply andb_prop in H. destruct H as [H1 H2].
    apply Z.eqb_eq in H1. apply Pos.eqb_eq in H2.
    destruct x, y; simpl in *. now subst.
  - inversion H; subst. now rewrite Z.eqb_refl, Pos.eqb_refl.
  - apply Bool.eqb_prop in H; now subst.
  - inversion H; apply Bool.eqb_reflx.
  - apply String.eqb_eq in H; now subst.
  - inversion H; apply String.eqb_refl.
Qed.

Lemma hkey_eqb_refl (a : hkey) : hkey_eqb a a = true.
Proof. now apply hkey_eqb_eq. Qed.

Section OrderedDictFacts.
Variables (K V : Type) (eqb : K -> K -> bool).
Hypothesis eqb_eq : forall a b, eqb a b = true <-> a = b.

Let lookup (dflt : V) (k : K) (d : odict K V) : V :=
  match od_find eqb k d with Some v => v | None => dflt end.

Lemma od_find_modify (dflt : V) (f : V -> V) (k k' : K) (d : odict K V) :
  od_find eqb k' (od_modify eqb dflt f k d)
  = if eqb k' k then Some (f (lookup dflt k d)) else od_find eqb k' d.
Proof.
  unfold lookup.
  induction d as [|[k0 v0] d IH]; simpl.
  - destruct (eqb k' k); reflexivity.
  - destruct (eqb k k0) eqn:E0; simpl.
    + apply eqb_eq in E0; subst k0.
      destruct (eqb k' k); reflexivity.
    + rewrite IH. destruct (eqb k' k0) eqn:E1; [|reflexivity].
      apply eqb_eq in E1; subst k0.
      destruct (eqb k' k) eqn:E2; [|reflexivity].
      apply eqb_eq in E2; subst k'.
      assert (eqb k k = true) by now apply eqb_eq. congruence.
Qed.

Lemma od_keys_modify (dflt : V) (f : V -> V) (k k' : K) (d : odict K V) :
  In k' (map fst (od_modify eqb dflt f k d))
  <-> k' = k \/ In k' (map fst d).
Proof.
  induction d as [|[k0 v0] d IH]; simpl.
  - intuition.
  - destruct (eqb k k0) eqn:E0; simpl.
    + apply eqb_eq in E0; subst k0. intuition.
    + rewrite IH. intuition.
Qed.

Lemma od_nodup_modify (dflt : V) (f : V -> V) (k : K) (d : odict K V) :
  NoDup (map fst d) -> NoDup (map fst (od_modify eqb dflt f k d)).
Proof.
  induction d as [|[k0 v0] d IH]; simpl; intros H.
  - constructor; [intros []|constructor].
  - inversion H as [|? ? Hn Hd]; subst.
    destruct (eqb k k0) eqn:E0; simpl.
    + constructor; assumption.
    + constructor; [|now apply IH].
      rewrite od_keys_modify. intros [->|Hin]; [|contradiction].
      assert (eqb k k = true) by now apply eqb_eq. congruence.
Qed.

End OrderedDictFacts.

(** ** Service -> Workload: what the table holds *)

Lemma filter_filter {A} (p q : A -> bool) (l : list A) :
  filter p (filter q l) = filter (fun x => q x && p x) l.
Proof.
  induction l as [|x l IH]; simpl; [reflexivity|].
  destruct (q x); simpl; [destruct (p x)|]; now rewrite IH.
Qed.

Lemma index_loop_spec (wls : list json) :
  forall d0 d,
    for_each wls
      (fun wl_by_ns w =>
         n <- ns w ;; nd_modify [] (fun l => l ++ [w]) n wl_by_ns) d0
    = Ok d ->
    forall h, nd_lookup h d = nd_lookup h d0 ++ filter (in_namespace h) wls.
Proof.
  induction wls as [|w wls IH]; simpl; intros d0 d H h.
  - inversion H; subst. now rewrite app_nil_r.
  - unbind H as d1 E. unbind E as n En. unfold nd_modify in E.
    unbind E as hw Eh. inversion E; subst d1; clear E.
    rewrite (IH _ _ H h). unfold nd_lookup at 1.
    rewrite (od_find_modify _ _ hkey_eqb hkey_eqb_eq).
    unfold in_namespace at 2, ns_key. rewrite En, Eh.
    destruct (hkey_eqb h hw) eqn:Ehh; [|reflexivity].
    apply hkey_eqb_eq in Ehh; subst hw. simpl.
    unfold nd_lookup. destruct (od_find hkey_eqb h d0); simpl;
      [now rewrite <- app_assoc | reflexivity].
Qed.

Lemma build_wl_by_ns_spec (wls : list json) (d : nsdict (list json)) :
  build_wl_by_ns wls = Ok d ->
  forall h, nd_lookup h d = filter (in_namespace h) wls.
Proof.
  intros H h. apply (index_loop_spec wls [] d H h).
Qed.

Lemma ns_ok_dict (o n : json) :
  ns o = Ok n -> exists kv, o = JDict kv.
Proof.
  unfold ns, get. destruct o; simpl; try discriminate. eauto.
Qed.

Lemma obj_key_ok (o n : json) :
  ns o = Ok n -> exists skey, obj_key o = Ok skey.
Proof.
  intros H. unfold obj_key. rewrite H. simpl.
  destruct (ns_ok_dict _ _ H) as [kv ->].
  unfold ns in H. unbind H as m Em.
  unfold kind, name. rewrite Em. simpl.
  destruct m; simpl in *; try discriminate. eauto.
Qed.

Lemma table_get_modify (t : backend_table) (skey key : string) (w : json) :
  table_get (od_modify String.eqb [] (fun l => l ++ [w]) skey t) key
  = table_get t key ++ (if String.eqb key skey then [w] else []).
Proof.
  unfold table_get. rewrite (od_find_modify _ _ String.eqb String.eqb_eq).
  destruct (String.eqb key skey) eqn:E.
  - apply String.eqb_eq in E; subst. reflexivity.
  - now rewrite app_nil_r.
Qed.

Lemma candidates_loop_spec (s sel : json) (skey : string)
      (cands : list json) :
  obj_key s = Ok skey ->
  forall t0 t,
    for_each cands (match_candidate s sel) t0 = Ok t ->
    forall key,
      table_get t key
      = table_get t0 key
        ++ (if String.eqb key skey then filter (hits sel) cands else []).
Proof.
  intros Hk. induction cands as [|w cands IH]; simpl; intros t0 t H key.
  - inversion H; subst. destruct (String.eqb key skey); now rewrite app_nil_r.
  - unbind H as t1 E. rewrite (IH _ _ H key).
    unfold match_candidate in E. unbind E as lbl El. unbind E as hit Eh.
    unfold hits at 2. rewrite El, Eh.
    destruct hit.
    + rewrite Hk in E. simpl in E. inversion E; subst t1.
      rewrite table_get_modify.
      destruct (String.eqb key skey); simpl; now rewrite <- app_assoc.
    + inversion E; subst t1. reflexivity.
Qed.

Lemma match_service_spec (wls : list json) (idx : nsdict (list json))
      (s : json) (t0 t : backend_table) :
  build_wl_by_ns wls = Ok idx ->
  match_service idx t0 s = Ok t ->
  forall key, table_get t key = table_get t0 key ++ contribution wls key s.
Proof.
  intros Hidx H key. unfold match_service in H. unbind H as sel Es.
  unfold contribution. rewrite Es.
  destruct (truthy sel) eqn:Et; simpl in H.
  - unbind H as n En. unbind H as cands Ec.
    unfold nd_get in Ec. unbind Ec as h Eh. inversion Ec; subst cands.
    fold (nd_lookup h idx) in H.
    rewrite (build_wl_by_ns_spec _ _ Hidx) in H.
    destruct (obj_key_ok _ _ En) as [skey Hk].
    unfold ns_key. rewrite En, Eh, Hk. simpl.
    rewrite (candidates_loop_spec _ _ _ _ Hk _ _ H key), filter_filter.
    reflexivity.
  - inversion H; subst t.
    destruct (ns_key s); [destruct (obj_key s)|]; now rewrite app_nil_r.
Qed.

(** lines 89-104 in one equation: the list stored under a key is made of
    the contributions of the Services, in load order. *)
Lemma build_svc_backends_spec (wls svcs : list json) (t : backend_table) :
  build_svc_backends wls svcs = Ok t ->
  forall key, table_get t key = flat_map (contribution wls key) svcs.
Proof.
  unfold build_svc_backends. intros H key. unbind H as idx Hidx.
  assert (G : forall t0 t,
             for_each svcs (match_service idx) t0 = Ok t ->
             table_get t key
             = table_get t0 key ++ flat_map (contribution wls key) svcs).
  { clear H t. induction svcs as [|s svcs IH]; simpl; intros t0 t H.
    - inversion H; subst. now rewrite app_nil_r.
    - unbind H as t1 E. rewrite (IH _ _ H).
      rewrite (match_service_spec _ _ _ _ _ Hidx E key). now rewrite app_assoc. }
  apply (G [] t H).
Qed.

(** ** Classification (lines 76-87) keeps every recognised document *)

Lemma py_eq_str (k : json) (c : string) :
  py_eq k (JStr c) = true <-> k = JStr c.
Proof.
  destruct k; simpl; split; intros H; try discriminate.
  - apply String.eqb_eq in H; now subst.
  - inversion H; apply String.eqb_refl.
Qed.

Lemma workload_type_str (k : json) :
  workload_type k = true -> exists c, k = JStr c /\ In c workload_kinds.
Proof.
  unfold workload_type. rewrite existsb_exists.
  intros (c & Hin & Heq). apply py_eq_str in Heq. eauto.
Qed.

Lemma classify_loop_spec (objs : list json) :
  forall b0 b,
    for_each objs classify_one b0 = Ok b ->
    workloads b = workloads b0 ++ filter is_workload objs /\
    services b = services b0 ++ filter (kind_is "Service") objs /\
    ingresses b = ingresses b0 ++ filter (kind_is "Ingress") objs /\
    pods b = pods b0 ++ filter (kind_is "Pod") objs /\
    endpoints b = endpoints b0 ++ filter is_endpoint objs.
Proof.
  induction objs as [|o objs IH]; simpl; intros b0 b H.
  - inversion H; subst. now rewrite !app_nil_r.
  - unbind H as b1 E. unfold classify_one in E. unbind E as k Ek.
    destruct (IH _ _ H) as (Hw & Hs & Hi & Hp & He).
    rewrite Hw, Hs, Hi, Hp, He. clear IH H Hw Hs Hi Hp He.
    unfold is_endpoint, is_workload, kind_is. rewrite Ek.
    destruct (workload_type k) eqn:Ew.
    { destruct (workload_type_str _ Ew) as (c & -> & Hc).
      inversion E; subst b1; simpl.
      repeat (destruct Hc as [<-|Hc]; [simpl; now rewrite <- ?app_assoc|]).
      destruct Hc. }
    destruct (py_eq k (JStr "Service")) eqn:E1.
    { apply py_eq_str in E1; subst k.
      inversion E; subst b1; simpl. now rewrite <- ?app_assoc. }
    destruct (py_eq k (JStr "Ingress")) eqn:E2.
    { apply py_eq_str in E2; subst k.
      inversion E; subst b1; simpl. now rewrite <- ?app_assoc. }
    destruct (py_eq k (JStr "Pod")) eqn:E3.
    { apply py_eq_str in E3; subst k.
      inversion E; subst b1; simpl. now rewrite <- ?app_assoc. }
    destruct (py_eq k (JStr "Endpoints")) eqn:E4.
    { apply py_eq_str in E4; subst k.
      inversion E; subst b1; simpl. now rewrite <- ?app_assoc. }
    destruct (py_eq k (JStr "EndpointSlice")) eqn:E5.
    { apply py_eq_str in E5; subst k.
      inversion E; subst b1; simpl. now rewrite <- ?app_assoc. }
    inversion E; subst b1; simpl. auto.
Qed.

Lemma classify_spec (objs : list json) (b : buckets) :
  classify objs = Ok b ->
  workloads b = filter is_workload objs /\
  services b = filter (kind_is "Service") objs /\
  ingresses b = filter (kind_is "Ingress") objs /\
  pods b = filter (kind_is "Pod") objs /\
  endpoints b = filter is_endpoint objs.
Proof.
  intros H. apply (classify_loop_spec objs no_buckets b H).
Qed.

Lemma classify_total (objs : list json) :
  (forall o, In o objs -> exists kv, o = JDict kv) ->
  exists b, classify objs = Ok b.
Proof.
  unfold classify. generalize no_buckets.
  induction objs as [|o objs IH]; simpl; intros b0 H; [eauto|].
  destruct (H o (or_introl eq_refl)) as [kv ->].
  unfold classify_one at 1. simpl. apply IH. intros; apply H; now right.
Qed.

(** ** Service -> Workload: the matching rule *)

Lemma hits_iff (sel w : json) :
  hits sel w = true <-> selector_satisfied sel w.
Proof.
  unfold hits, selector_satisfied, labels_match. split.
  - destruct (label_map w) as [lbl|] eqn:El; [|discriminate].
    destruct (items sel) as [kvs|] eqn:Ei; simpl; [|discriminate].
    destruct (all_of kvs _) as [b|] eqn:Ea; [|discriminate].
    intros ->. exists kvs, lbl. repeat split.
    intros k v Hin.
    pose proof (proj1 (all_of_true _ _) Ea (k, v) Hin) as Hkv.
    simpl in Hkv. unbind Hkv as g Eg. inversion Hkv. eauto.
  - intros (kvs & lbl & Hi & Hl & Hall). rewrite Hl, Hi. simpl.
    assert (Ha : all_of kvs
                   (fun kv => g <- get lbl (fst kv) JNull ;;
                              Ok (py_eq g (snd kv))) = Ok true).
    { apply all_of_true. intros [k v] Hin. simpl.
      destruct (Hall k v Hin) as (g & -> & Hg). simpl. now rewrite Hg. }
    now rewrite Ha.
Qed.

Lemma contribution_in (wls : list json) (key : string) (s w : json) :
  In w (contribution wls key s) ->
  obj_key s = Ok key /\
  exists sel, svc_selector s = Ok sel /\ truthy sel = true.
Proof.
  unfold contribution.
  destruct (svc_selector s) as [sel|]; [|intros []].
  destruct (ns_key s); [|intros []].
  destruct (obj_key s) as [skey|]; [|intros []].
  destruct (truthy sel) eqn:Et; simpl; [|intros []].
  destruct (String.eqb key skey) eqn:Ek; [|intros []].
  apply String.eqb_eq in Ek; subst. eauto.
Qed.

Lemma contribution_own (wls : list json) (key : string) (s sel : json)
      (h : hkey) :
  svc_selector s = Ok sel -> truthy sel = true ->
  ns_key s = Some h -> obj_key s = Ok key ->
  contribution wls key s
  = filter (fun w => in_namespace h w && hits sel w) wls.
Proof.
  intros Hs Ht Hn Hk. unfold contribution.
  now rewrite Hs, Hn, Hk, Ht, String.eqb_refl.
Qed.

Lemma ns_key_obj_key (o : json) (h : hkey) :
  ns_key o = Some h -> exists key, obj_key o = Ok key.
Proof.
  unfold ns_key. destruct (ns o) as [n|] eqn:En; [|discriminate].
  intros _. eapply obj_key_ok; eauto.
Qed.

(** With a key of its own, a Service with a truthy selector is served by
    exactly the Workloads of its namespace that line 103 accepts, in load
    order. *)
Lemma backends_unique_key (wls svcs : list json) (t : backend_table)
      (s sel : json) (h : hkey) (key : string) :
  build_svc_backends wls svcs = Ok t ->
  In s svcs -> key_unique svcs s ->
  svc_selector s = Ok sel -> truthy sel = true ->
  ns_key s = Some h -> obj_key s = Ok key ->
  forall w, In w (table_get t key)
            <-> In w wls /\ in_namespace h w = true /\ hits sel w = true.
Proof.
  intros Hr Hs Hu Hsel Ht Hn Hk w.
  rewrite (build_svc_backends_spec _ _ _ Hr key), in_flat_map. split.
  - intros (s' & Hs' & Hin).
    destruct (contribution_in _ _ _ _ Hin) as (Hk' & _).
    assert (s' = s) by (apply Hu; congruence). subst s'.
    rewrite (contribution_own wls _ _ _ _ Hsel Ht Hn Hk) in Hin.
    apply filter_In in Hin. destruct Hin as [Hw Hb].
    apply andb_prop in Hb. tauto.
  - intros (Hw & Hns & Hh). exists s. split; [assumption|].
    rewrite (contribution_own wls _ _ _ _ Hsel Ht Hn Hk).
    apply filter_In. split; [assumption|]. now rewrite Hns, Hh.
Qed.

(** A Service whose selector is falsy adds nothing to the table. *)
Lemma contribution_falsy (wls : list json) (key : string) (s sel : json) :
  svc_selector s = Ok sel -> truthy sel = false ->
  contribution wls key s = [].
Proof.
  intros Hs Ht. unfold contribution. rewrite Hs, Ht.
  destruct (ns_key s); [destruct (obj_key s)|]; reflexivity.
Qed.

Lemma backend_edges_spec (t : backend_table) (svcs : list json)
      (es : list backend_edge) :
  backend_edges t svcs = Ok es ->
  forall e, In e es ->
            In (be_service e) svcs /\
            exists key, obj_key (be_service e) = Ok key /\
                        In (be_workload e) (table_get t key).
Proof.
  unfold backend_edges. intros H.
  assert (G : forall acc es,
             for_each svcs
               (fun acc s => ws <- backends_of t s ;;
                             Ok (acc ++ map (BackendEdge s) ws)) acc
             = Ok es ->
             forall e, In e es ->
               In e acc \/
               (In (be_service e) svcs /\
                exists key, obj_key (be_service e) = Ok key /\
                            In (be_workload e) (table_get t key))).
  { clear H es. induction svcs as [|s svcs IH]; simpl; intros acc es H e He.
    - inversion H; subst. now left.
    - unbind H as acc1 E. unbind E as ws Ew. inversion E; subst acc1.
      destruct (IH _ _ H e He) as [Hin|(Hin & Hk)].
      + apply in_app_or in Hin. destruct Hin as [Hin|Hin]; [now left|].
        right. apply in_map_iff in Hin. destruct Hin as (w & <- & Hw).
        simpl. split; [now left|].
        unfold backends_of in Ew. unbind Ew as key Ek.
        inversion Ew; subst ws. eauto.
      + right. split; [now right | assumption]. }
  intros e He. destruct (G [] es H e He) as [[]|G']; assumption.
Qed.

(** ** Loops that only append *)

Lemma for_each_emit_all {A T} (body : list T -> A -> result (list T))
      (emit : A -> result (list T)) (xs : list A) :
  (forall acc x, body acc x = (e <- emit x ;; Ok (acc ++ e))) ->
  forall acc,
    for_each xs body acc = (es <- emit_all emit xs ;; Ok (acc ++ es)).
Proof.
  intros Hb. induction xs as [|x xs IH]; intros acc; simpl.
  - now rewrite app_nil_r.
  - rewrite Hb. destruct (emit x) as [e|]; simpl; [|reflexivity].
    rewrite IH. destruct (emit_all emit xs) as [es|]; simpl; [|reflexivity].
    now rewrite app_assoc.
Qed.

Lemma emit_all_ext {A T} (f g : A -> result (list T)) (xs : list A) :
  (forall x, f x = g x) -> emit_all f xs = emit_all g xs.
Proof.
  intros H. induction xs as [|x xs IH]; simpl; [reflexivity|].
  now rewrite H, IH.
Qed.

Lemma emit_all_total {A T} (emit : A -> result (list T)) (xs : list A) :
  (forall x, In x xs -> exists e, emit x = Ok e) ->
  exists es, emit_all emit xs = Ok es.
Proof.
  induction xs as [|x xs IH]; intros H; simpl; [eauto|].
  destruct (H x (or_introl eq_refl)) as [e ->]. simpl.
  destruct IH as [es ->]; [intros; apply H; now right|]. simpl. eauto.
Qed.

(** ** Ingress -> Service *)

Lemma path_routes_emit (ing ns_ing : json) (acc : list route_edge) (p : json) :
  path_routes ing ns_ing acc p
  = (e <- path_emit ing ns_ing p ;; Ok (acc ++ e)).
Proof.
  unfold path_routes, path_emit, path_service_name.
  destruct (get p "backend" empty_dict) as [b|]; simpl; [|reflexivity].
  destruct (get b "service" empty_dict) as [svc|]; simpl; [|reflexivity].
  destruct (get svc "name" JNull) as [nm|]; simpl; [|reflexivity].
  destruct (truthy nm); [reflexivity | now rewrite app_nil_r].
Qed.

Lemma rule_routes_emit (ing ns_ing : json) (acc : list route_edge) (r : json) :
  rule_routes ing ns_ing acc r
  = (e <- rule_emit ing ns_ing r ;; Ok (acc ++ e)).
Proof.
  unfold rule_routes, rule_emit, rule_paths.
  destruct (get r "http" empty_dict) as [h|]; simpl; [|reflexivity].
  destruct (get h "paths" empty_list) as [paths|]; simpl; [|reflexivity].
  destruct (iter paths) as [ps|]; simpl; [|reflexivity].
  apply for_each_emit_all. intros; apply path_routes_emit.
Qed.

Lemma ingress_routes_emit (acc : list route_edge) (ing : json) :
  ingress_routes acc ing = (e <- ingress_emit ing ;; Ok (acc ++ e)).
Proof.
  unfold ingress_routes, ingress_emit, ingress_rules.
  destruct (ns ing) as [n|]; simpl; [|reflexivity].
  destruct (get ing "spec" empty_dict) as [sp|]; simpl; [|reflexivity].
  destruct (get sp "rules" empty_list) as [rules|]; simpl; [|reflexivity].
  destruct (iter rules) as [rs|]; simpl; [|reflexivity].
  apply for_each_emit_all. intros; apply rule_routes_emit.
Qed.

Lemma resolve_routes_emit (ings : list json) :
  resolve_routes ings = emit_all ingress_emit ings.
Proof.
  unfold resolve_routes.
  rewrite (for_each_emit_all _ ingress_emit ings ingress_routes_emit).
  destruct (emit_all ingress_emit ings); reflexivity.
Qed.


(** ** Workload -> Pod *)

Lemma try_owner_emit (p oname okind : json) (acc : list owner_edge)
      (w : json) :
  try_owner p oname okind acc w
  = (e <- workload_emit p oname okind w ;; Ok (acc ++ e)).
Proof.
  unfold try_owner, workload_emit, owner_test.
  destruct (ns w) as [nw|]; simpl; [|reflexivity].
  destruct (ns p) as [np|]; simpl; [|reflexivity].
  destruct (py_eq nw np); simpl; [|now rewrite app_nil_r].
  destruct (name w) as [nmw|]; simpl; [|reflexivity].
  destruct (py_eq nmw oname); simpl; [|now rewrite app_nil_r].
  destruct (kind w) as [kw|]; simpl; [|reflexivity].
  destruct (py_eq kw okind); simpl; [reflexivity | now rewrite app_nil_r].
Qed.

Lemma owner_links_emit (wls : list json) (p : json) (acc : list owner_edge)
      (oref : json) :
  owner_links wls p acc oref = (e <- owner_emit wls p oref ;; Ok (acc ++ e)).
Proof.
  unfold owner_links, owner_emit.
  destruct (get oref "name" JNull) as [oname|]; simpl; [|reflexivity].
  destruct (get oref "kind" JNull) as [okind|]; simpl; [|reflexivity].
  apply for_each_emit_all. intros; apply try_owner_emit.
Qed.

Lemma pod_links_emit (wls : list json) (acc : list owner_edge) (p : json) :
  pod_links wls acc p = (e <- pod_emit wls p ;; Ok (acc ++ e)).
Proof.
  unfold pod_links, pod_emit, owner_refs.
  destruct (get p "metadata" empty_dict) as [m|]; simpl; [|reflexivity].
  destruct (get m "ownerReferences" empty_list) as [o|]; simpl;
    [|reflexivity].
  destruct (iter (or_else o empty_list)) as [owners|]; simpl; [|reflexivity].
  apply for_each_emit_all. intros; apply owner_links_emit.
Qed.

Lemma resolve_owners_emit (wls pds : list json) :
  resolve_owners wls pds = emit_all (pod_emit wls) pds.
Proof.
  unfold resolve_owners.
  rewrite (for_each_emit_all _ (pod_emit wls) pds (pod_links_emit wls)).
  destruct (emit_all (pod_emit wls) pds); reflexivity.
Qed.

Lemma owner_test_true (p oname okind w : json) :
  owner_test p oname okind w = Ok true <->
  exists nw np nmw kw,
    ns w = Ok nw /\ ns p = Ok np /\ py_eq nw np = true /\
    name w = Ok nmw /\ py_eq nmw oname = true /\
    kind w = Ok kw /\ py_eq kw okind = true.
Proof.
  unfold owner_test. split.
  - intros H. unbind H as nw Enw. unbind H as np Enp.
    destruct (py_eq nw np) eqn:E1; [|discriminate].
    unbind H as nmw Enm.
    destruct (py_eq nmw oname) eqn:E2; [|discriminate].
    unbind H as kw Ekw. inversion H as [E3].
    exists nw, np, nmw, kw. rewrite E3. auto 10.
  - intros (nw & np & nmw & kw & -> & -> & E1 & -> & E2 & -> & E3).
    simpl. rewrite E1. simpl. rewrite E2. simpl. now rewrite E3.
Qed.

(** ** Sorting the namespace groups *)

Lemma Qred_inject_Z (z : Z) : Qred (inject_Z z) = inject_Z z.
Proof.
  unfold Qred, inject_Z.
  pose proof (Z.ggcd_gcd z 1) as Hg.
  pose proof (Z.ggcd_correct_divisors z 1) as Hd.
  destruct (Z.ggcd z 1) as [g [aa bb]]. simpl in *.
  rewrite Z.gcd_1_r in Hg. subst g. destruct Hd as [Ha Hb].
  rewrite Z.mul_1_l in Ha, Hb. subst. reflexivity.
Qed.

Lemma num_key_ok (x : num) : key_ok (num_key x).
Proof.
  destruct x as [q|n]; [|exact I]. unfold num_key. cbv zeta.
  destruct (Pos.eqb (Qden (Qred q)) 1) eqn:E; [exact I|]. split.
  - apply Qred_complete, Qred_correct.
  - intros H. rewrite H in E. discriminate.
Qed.

Lemma key_num_num_key (x : num) : exists p, key_num (num_key x) = Some p.
Proof.
  destruct x as [q|n]; [|eexists; reflexivity]. unfold num_key. cbv zeta.
  destruct (Pos.eqb (Qden (Qred q)) 1); eexists; reflexivity.
Qed.

Lemma hash_str (k : json) (n : string) : hash k = Ok (HStr n) -> k = JStr n.
Proof.
  destruct k as [| | |f| | |]; simpl; intros H; inversion H; try reflexivity.
  destruct (key_num_num_key (fval f)) as [p Hp]. rewrite H1 in Hp.
  discriminate.
Qed.

Lemma hash_key_ok (a : json) (h : hkey) : hash a = Ok h -> key_ok h.
Proof.
  destruct a; simpl; intros H; inversion H; subst; try exact I.
  apply num_key_ok.
Qed.

Lemma key_num_inj (x y : hkey) (p q : num) :
  key_ok x -> key_ok y ->
  key_num x = Some p -> key_num y = Some q ->
  num_eqb p q = true -> x = y.
Proof.
  intros Hx Hy Ex Ey H.
  destruct x as [|a|a|a|a]; try discriminate;
    destruct y as [|b|b|b|b]; try discriminate;
    simpl in Ex, Ey; inversion Ex; inversion Ey; subst p q; simpl in H;
    try discriminate.
  - apply Qeq_bool_iff in H. apply Qred_complete in H.
    rewrite !Qred_inject_Z in H. inversion H. reflexivity.
  - exfalso. destruct Hy as [Hr Hd]. apply Qeq_bool_iff in H.
    apply Qred_complete in H. rewrite Qred_inject_Z, Hr in H.
    subst b. apply Hd. reflexivity.
  - exfalso. destruct Hx as [Hr Hd]. apply Qeq_bool_iff in H.
    apply Qred_complete in H. rewrite Qred_inject_Z, Hr in H.
    subst a. apply Hd. reflexivity.
  - destruct Hx as [Hx _], Hy as [Hy _]. apply Qeq_bool_iff in H.
    apply Qred_complete in H. rewrite Hx, Hy in H. now subst.
  - apply Bool.eqb_prop in H. now subst.
Qed.

Lemma num_ltb_trans (x y z : num) :
  num_ltb x y = true -> num_ltb y z = true -> num_ltb x z = true.
Proof.
  destruct x as [p|[|]], y as [q|[|]], z as [r|[|]];
    cbn [num_ltb negb andb]; try discriminate; try reflexivity.
  intros H1 H2.
  destruct (Qcompare p q) eqn:E1; try discriminate.
  destruct (Qcompare q r) eqn:E2; try discriminate.
  apply Qlt_alt in E1, E2.
  pose proof (proj1 (Qlt_alt p r) (Qlt_trans _ _ _ E1 E2)) as E3.
  change (Qcompare p r = Lt) in E3. now rewrite E3.
Qed.

Lemma num_ltb_total (x y : num) :
  num_ltb x y = false -> num_eqb x y = false -> num_ltb y x = true.
Proof.
  destruct x as [p|[|]], y as [q|[|]];
    cbn [num_ltb num_eqb negb andb Bool.eqb];
    try discriminate; try reflexivity.
  intros H1 H2. destruct (Qcompare_spec p q) as [He|Hl|Hg].
  - apply Qeq_bool_iff in He. congruence.
  - discriminate.
  - pose proof (proj1 (Qlt_alt q p) Hg) as E.
    change (Qcompare q p = Lt) in E. now rewrite E.
Qed.

(** The two ways [a < b] returns: two strings, or two numbers. *)
Lemma py_lt_cases (a b : json) (r : bool) :
  py_lt a b = Ok r ->
  (exists x y,
      hash a = Ok (HStr x) /\ hash b = Ok (HStr y) /\
      r = match String_as_OT.compare x y with Lt => true | _ => false end) \/
  (exists ha hb p q,
      hash a = Ok ha /\ hash b = Ok hb /\
      key_num ha = Some p /\ key_num hb = Some q /\ r = num_ltb p q).
Proof.
  unfold py_lt.
  destruct (hash a) as [ha|]; [|discriminate].
  destruct (hash b) as [hb|]; [|destruct ha; discriminate].
  destruct ha as [|x|x|x|x], hb as [|y|y|y|y]; simpl;
    intros H; try discriminate; inversion H; subst r;
    try (left; eauto 6; fail);
    right; do 4 eexists; repeat split; reflexivity.
Qed.

Lemma py_lt_str (a b : json) (x y : string) :
  hash a = Ok (HStr x) -> hash b = Ok (HStr y) ->
  py_lt a b
  = Ok (match String_as_OT.compare x y with Lt => true | _ => false end).
Proof. unfold py_lt. now intros -> ->. Qed.

Lemma py_lt_num (a b : json) (ha hb : hkey) (p q : num) :
  hash a = Ok ha -> hash b = Ok hb ->
  key_num ha = Some p -> key_num hb = Some q ->
  py_lt a b = Ok (num_ltb p q).
Proof.
  unfold py_lt. intros -> -> Hp Hq.
  destruct ha, hb; simpl in *; try discriminate;
    inversion Hp; inversion Hq; reflexivity.
Qed.

Lemma py_lt_trans (a b c : json) :
  py_lt a b = Ok true -> py_lt b c = Ok true -> py_lt a c = Ok true.
Proof.
  intros H1 H2.
  destruct (py_lt_cases _ _ _ H1) as
      [(x & y & Ha & Hb & E1)|(ha & hb & p & q & Ha & Hb & Kp & Kq & E1)];
    destruct (py_lt_cases _ _ _ H2) as
      [(y' & z & Hb' & Hc & E2)|(hb' & hc & q' & r & Hb' & Hc & Kq' & Kr & E2)];
    rewrite Hb in Hb'; inversion Hb'; subst.
  - rewrite (py_lt_str _ _ _ _ Ha Hc). f_equal.
    destruct (String_as_OT.compare x y') eqn:C1; try discriminate.
    destruct (String_as_OT.compare y' z) eqn:C2; try discriminate.
    assert (C3 : String_as_OT.lt x z).
    { apply (@StrictOrder_Transitive _ _ String_as_OT.lt_strorder x y' z);
        assumption. }
    unfold String_as_OT.lt in C3. now rewrite C3.
  - discriminate.
  - discriminate.
  - rewrite Kq in Kq'. inversion Kq'; subst q'.
    rewrite (py_lt_num _ _ _ _ _ _ Ha Hc Kp Kr). f_equal.
    eapply num_ltb_trans; eauto.
Qed.

Lemma py_lt_total (a b : json) :
  py_lt a b = Ok false -> hash a <> hash b -> py_lt b a = Ok true.
Proof.
  intros H Hne.
  destruct (py_lt_cases _ _ _ H) as
      [(x & y & Ha & Hb & E)|(ha & hb & p & q & Ha & Hb & Kp & Kq & E)].
  - rewrite (py_lt_str _ _ _ _ Hb Ha). f_equal.
    destruct (String_as_OT.compare_spec x y) as [Heq|Hlt|Hgt].
    + exfalso. apply Hne. now rewrite Ha, Hb, Heq.
    + discriminate.
    + unfold String_as_OT.lt in Hgt. now rewrite Hgt.
  - rewrite (py_lt_num _ _ _ _ _ _ Hb Ha Kq Kp). f_equal.
    apply num_ltb_total; [now symmetry|].
    destruct (num_eqb p q) eqn:Eq; [|reflexivity].
    exfalso. apply Hne. rewrite Ha, Hb. f_equal.
    apply (key_num_inj ha hb p q); eauto using hash_key_ok.
Qed.

Lemma insert_sorted_spec {V} (x : json * V) (l r : list (json * V)) :
  insert_sorted x l = Ok r ->
  StronglySorted key_lt l ->
  (forall y, In y l -> hash (fst y) <> hash (fst x)) ->
  StronglySorted key_lt r /\ Permutation (x :: l) r.
Proof.
  revert r. induction l as [|y l IH]; simpl; intros r H Hs Hd.
  - inversion H; subst. split; [|reflexivity].
    constructor; [constructor | constructor].
  - unbind H as b Eb. inversion Hs as [|? ? Hsl Hall]; subst.
    destruct b.
    + inversion H; subst r. split; [|reflexivity].
      constructor; [assumption|]. constructor; [exact Eb|].
      rewrite Forall_forall in *. intros z Hz.
      eapply py_lt_trans; [exact Eb | apply Hall, Hz].
    + unbind H as r' Er. inversion H; subst r.
      destruct (IH _ Er Hsl) as [Hs' Hp].
      { intros z Hz. apply Hd. now right. }
      split.
      * constructor; [assumption|].
        rewrite Forall_forall in *. intros z Hz.
        apply (Permutation_in _ (Permutation_sym Hp)) in Hz.
        destruct Hz as [<-|Hz]; [|now apply Hall].
        apply py_lt_total; [exact Eb|].
        intros Heq. apply (Hd y); [now left | now symmetry].
      * rewrite perm_swap. now constructor.
Qed.

Lemma sorted_spec {V} (l r : list (json * V)) :
  sorted l = Ok r ->
  NoDup (map (fun kg => hash (fst kg)) l) ->
  StronglySorted key_lt r /\ Permutation l r.
Proof.
  unfold sorted. intros H Hnd.
  assert (G : forall l acc r,
             for_each l (fun acc x => insert_sorted x acc) acc = Ok r ->
             StronglySorted key_lt acc ->
             NoDup (map (fun kg : json * V => hash (fst kg)) (acc ++ l)) ->
             StronglySorted key_lt r /\ Permutation (acc ++ l) r).
  { clear. induction l as [|x l IH]; simpl; intros acc r H Hs Hnd.
    - inversion H; subst. now rewrite app_nil_r.
    - unbind H as acc1 E.
      destruct (insert_sorted_spec _ _ _ E Hs) as [Hs1 Hp1].
      { intros y Hy Heq. rewrite map_app in Hnd. simpl in Hnd.
        apply NoDup_remove_2 in Hnd. apply Hnd.
        rewrite <- Heq. apply in_or_app. left.
        now apply (in_map (fun kg : json * V => hash (fst kg))). }
      assert (Hp : Permutation (acc ++ x :: l) (acc1 ++ l)).
      { rewrite <- Hp1. symmetry. apply Permutation_middle. }
      destruct (IH _ _ H Hs1) as [Hs' Hp'].
      { eapply Permutation_NoDup; [|exact Hnd].
        now apply Permutation_map. }
      split; [assumption|]. now rewrite Hp. }
  apply (G l [] r H); [constructor | assumption].
Qed.

(** ** Grouping by namespace *)

Lemma od_modify_forall {K V} (eqb : K -> K -> bool) (P : K * V -> Prop)
      (dflt : V) (f : V -> V) (k : K) (d : odict K V) :
  (forall a b, eqb a b = true <-> a = b) ->
  Forall P d -> P (k, f dflt) -> (forall v, P (k, v) -> P (k, f v)) ->
  Forall P (od_modify eqb dflt f k d).
Proof.
  intros Heq Hd H0 Hf. induction d as [|[k0 v0] d IH]; simpl.
  - constructor; [assumption | constructor].
  - inversion Hd as [|? ? Hp Hd']; subst.
    destruct (eqb k k0) eqn:E.
    + apply Heq in E; subst k0. constructor; auto.
    + constructor; auto.
Qed.

Lemma file_by_ns_spec {V} (dflt : V) (f : json -> V -> V) (xs : list json) :
  forall d0 d,
    for_each xs (fun d x => n <- ns x ;; nd_modify dflt (f x) n d) d0 = Ok d ->
    nsdict_ok d0 ->
    nsdict_ok d /\
    forall h, In h (map fst d) <->
              In h (map fst d0) \/ exists o, In o xs /\ ns_key o = Some h.
Proof.
  induction xs as [|x xs IH]; simpl; intros d0 d H [Hnd Hall].
  - inversion H; subst. split; [now split|].
    intros h. split; [auto | intros [?|(? & [] & _)]; assumption].
  - unbind H as d1 E. unbind E as n En. unfold nd_modify in E.
    unbind E as hx Eh. inversion E; subst d1; clear E.
    destruct (IH _ _ H) as [Hok Hkeys].
    { split.
      - now apply od_nodup_modify; [apply hkey_eqb_eq|].
      - apply od_modify_forall; auto using hkey_eqb_eq. }
    split; [assumption|]. intros h. rewrite Hkeys.
    rewrite (od_keys_modify _ _ hkey_eqb hkey_eqb_eq).
    unfold ns_key. split.
    + intros [[->|Hin]|(o & Ho & Hk)]; [| now left |].
      * right. exists x. split; [now left|]. unfold ns_key.
        now rewrite En, Eh.
      * right. exists o. split; [now right | assumption].
    + intros [Hin|(o & [<-|Ho] & Hk)]; [now left; right | |].
      * left; left. unfold ns_key in Hk. rewrite En, Eh in Hk. congruence.
      * right. eauto.
Qed.

Lemma build_by_ns_spec (svcs wls : list json) (d : nsdict group) :
  build_by_ns svcs wls = Ok d ->
  nsdict_ok d /\
  forall h, In h (map fst d) <->
            exists o, In o (svcs ++ wls) /\ ns_key o = Some h.
Proof.
  unfold build_by_ns. intros H. unbind H as d1 E1.
  destruct (file_by_ns_spec no_group add_service svcs [] d1 E1) as [Hok1 Hk1].
  { split; constructor. }
  destruct (file_by_ns_spec no_group add_workload wls d1 d H Hok1)
    as [Hok Hk].
  split; [assumption|]. intros h. rewrite Hk, Hk1. simpl. split.
  - intros [[[]|(o & Ho & Hn)]|(o & Ho & Hn)]; exists o;
      (split; [apply in_or_app; auto | assumption]).
  - intros (o & Ho & Hn). apply in_app_or in Ho.
    destruct Ho as [Ho|Ho]; [left; right | right]; eauto.
Qed.

Lemma nsdict_items_keys {V} (d : nsdict V) :
  nsdict_ok d ->
  (forall h, In h (map fst d) <->
             exists k v, In (k, v) (nd_items d) /\ hash k = Ok h) /\
  NoDup (map (fun kg => hash (fst kg)) (nd_items d)).
Proof.
  intros [Hnd Hall]. rewrite Forall_forall in Hall. split.
  - intros h. unfold nd_items. split.
    + intros Hin. apply in_map_iff in Hin.
      destruct Hin as ([h' [k v]] & <- & Hin).
      exists k, v. split.
      * change (k, v) with (snd (h', (k, v))). now apply in_map.
      * apply (Hall _ Hin).
    + intros (k & v & Hin & Hh). apply in_map_iff in Hin.
      destruct Hin as ([h' [k' v']] & Heq & Hin). simpl in Heq.
      inversion Heq; subst k' v'.
      pose proof (Hall _ Hin) as Hh'. simpl in Hh'.
      assert (h' = h) by congruence. subst h'.
      change h with (fst (h, (k, v))). now apply in_map.
  - unfold nd_items. rewrite map_map.
    assert (E : map (fun x : hkey * (json * V) => hash (fst (snd x))) d
                = map Ok (map fst d)).
    { rewrite map_map. apply map_ext_in. intros e He. apply (Hall _ He). }
    rewrite E. apply Finite.Injective_map_NoDup; [|assumption].
    intros a b Hab. now inversion Hab.
Qed.

(** line 131: the groups come out in strictly ascending key order, one per
    namespace that files a Service or a Workload. *)
Lemma namespace_groups_spec (svcs wls : list json)
      (gs : list (json * group)) :
  namespace_groups svcs wls = Ok gs ->
  StronglySorted key_lt gs /\
  forall h, (exists k g, In (k, g) gs /\ hash k = Ok h) <->
            (exists o, In o (svcs ++ wls) /\ ns_key o = Some h).
Proof.
  unfold namespace_groups. intros H. unbind H as d Ed.
  destruct (build_by_ns_spec _ _ _ Ed) as [Hok Hkeys].
  destruct (nsdict_items_keys d Hok) as [Hitems Hnd].
  destruct (sorted_spec _ _ H Hnd) as [Hs Hp].
  split; [assumption|]. intros h. rewrite <- Hkeys, Hitems. split.
  - intros (k & g & Hin & Hh). exists k, g. split; [|assumption].
    now apply (Permutation_in _ (Permutation_sym Hp)).
  - intros (k & g & Hin & Hh). exists k, g. split; [|assumption].
    now apply (Permutation_in _ Hp).
Qed.

(** ** The run, step by step *)

Lemma main_ok (include_pods : bool) (docs : list json) (g : graph) :
  main include_pods docs = Ok g ->
  exists b t,
    classify (normalize docs) = Ok b /\
    build_svc_backends (workloads b) (services b) = Ok t /\
    namespace_groups (services b) (workloads b) = Ok (g_groups g) /\
    backend_edges t (services b) = Ok (g_backends g) /\
    g_container_backends g = g_backends g /\
    resolve_routes (ingresses b) = Ok (g_routes g) /\
    g_container_routes g = g_routes g /\
    (if include_pods
     then resolve_owners (workloads b) (pods b) = Ok (g_owners g)
     else g_owners g = []).
Proof.
  unfold main. intros H.
  unbind H as b Eb. unbind H as t Et. unbind H as groups Eg.
  unbind H as cb Ecb. unbind H as cr Ecr.
  unbind H as u1 E1. unbind H as u2 E2. unbind H as u3 E3.
  unbind H as tb Etb. unbind H as own Eown. unbind H as tr Etr.
  inversion H; subst g; simpl.
  exists b, t. repeat split; try assumption; try congruence.
  destruct include_pods; [assumption|]. now inversion Eown.
Qed.

(** ** Explicit edge lists on readable input *)

Lemma paths_emit_names (ing ns_ing : json) (ps nms : list json) :
  Forall2 (fun p nm => path_service_name p = Ok nm) ps nms ->
  emit_all (path_emit ing ns_ing) ps
  = Ok (map (fun nm => RouteEdge ing nm ns_ing) (filter truthy nms)).
Proof.
  induction 1 as [|p nm ps nms Hp HF IH]; simpl; [reflexivity|].
  unfold path_emit at 1. rewrite Hp. simpl. rewrite IH. simpl.
  destruct (truthy nm); reflexivity.
Qed.

Lemma rules_emit_names (ing ns_ing : json) (rs : list json)
      (pss : list (list json)) :
  Forall2 (fun r ps => rule_paths r = Ok ps) rs pss ->
  forall nms,
    Forall2 (fun p nm => path_service_name p = Ok nm) (List.concat pss) nms ->
    emit_all (rule_emit ing ns_ing) rs
    = Ok (map (fun nm => RouteEdge ing nm ns_ing) (filter truthy nms)).
Proof.
  induction 1 as [|r ps rs pss Hr HF IH]; simpl; intros nms Hn.
  - inversion Hn; subst. reflexivity.
  - apply Forall2_app_inv_l in Hn.
    destruct Hn as (n1 & n2 & H1 & H2 & ->).
    unfold rule_emit at 1. rewrite Hr. simpl.
    rewrite (paths_emit_names _ _ _ _ H1). simpl.
    rewrite (IH _ H2). simpl. now rewrite filter_app, map_app.
Qed.

Lemma ns_ok_name_kind (o n : json) :
  ns o = Ok n -> exists nm k, name o = Ok nm /\ kind o = Ok k.
Proof.
  intros H. destruct (ns_ok_dict _ _ H) as [kv ->].
  unfold ns in H. unbind H as m Em. unfold name, kind. rewrite Em. simpl.
  destruct m; simpl in *; try discriminate. eauto.
Qed.

Lemma owner_test_total (p oname okind w : json) :
  readable p -> readable w -> exists b, owner_test p oname okind w = Ok b.
Proof.
  intros [np Hp] [nw Hw]. unfold owner_test. rewrite Hw, Hp. simpl.
  destruct (ns_ok_name_kind _ _ Hw) as (nm & k & -> & ->). simpl.
  destruct (py_eq nw np); [|eauto].
  destruct (py_eq nm oname); eauto.
Qed.

Lemma owner_matchb_iff (p oref w : json) :
  owner_matchb p oref w = true <-> owner_matches p oref w.
Proof.
  unfold owner_matchb, owner_matches. split.
  - destruct (get oref "name" JNull) as [oname|]; [|discriminate].
    destruct (get oref "kind" JNull) as [okind|]; [|discriminate].
    destruct (owner_test p oname okind w) as [b|] eqn:Et; [|discriminate].
    intros ->. apply owner_test_true in Et.
    destruct Et as (nw & np & nmw & kw & ? & ? & ? & ? & ? & ? & ?).
    exists nw, np, nmw, kw, oname, okind. auto 12.
  - intros (nw & np & nmw & kw & oname & okind &
            ? & ? & ? & ? & -> & ? & ? & -> & ?).
    assert (Ht : owner_test p oname okind w = Ok true).
    { apply owner_test_true. exists nw, np, nmw, kw. auto 10. }
    now rewrite Ht.
Qed.

Lemma owner_emit_explicit (wls : list json) (p oref : json) :
  readable p -> (forall w, In w wls -> readable w) ->
  (exists kv, oref = JDict kv) ->
  owner_emit wls p oref
  = Ok (map (fun w => OwnerEdge w p) (filter (owner_matchb p oref) wls)).
Proof.
  intros Hp Hw [kv ->]. unfold owner_emit, owner_matchb. simpl.
  set (oname := match assoc "name" kv with Some v => v | None => JNull end).
  set (okind := match assoc "kind" kv with Some v => v | None => JNull end).
  induction wls as [|w wls IH]; simpl; [reflexivity|].
  unfold workload_emit at 1.
  destruct (owner_test_total p oname okind w Hp) as [b Hb];
    [apply Hw; now left|].
  rewrite Hb. simpl. rewrite IH by (intros; apply Hw; now right). simpl.
  destruct b; reflexivity.
Qed.

Lemma pod_emit_explicit (wls : list json) (p : json) (owners : list json) :
  readable p -> (forall w, In w wls -> readable w) ->
  owner_refs p = Ok owners ->
  (forall oref, In oref owners -> exists kv, oref = JDict kv) ->
  pod_emit wls p
  = Ok (flat_map
          (fun oref =>
             map (fun w => OwnerEdge w p) (filter (owner_matchb p oref) wls))
          owners).
Proof.
  intros Hp Hw Ho Hd. unfold pod_emit. rewrite Ho. simpl. clear Ho.
  induction owners as [|oref owners IH]; simpl; [reflexivity|].
  rewrite (owner_emit_explicit wls p oref Hp Hw) by (apply Hd; now left).
  simpl. rewrite IH by (intros; apply Hd; now right). reflexivity.
Qed.

(** Among Workloads with pairwise distinct string identities, at most one
    passes line 191 for a given Pod and owner reference. *)
Lemma py_eq_str_l (s : string) (v : json) :
  py_eq (JStr s) v = true -> v = JStr s.
Proof.
  destruct v; simpl; try discriminate.
  intros H. apply String.eqb_eq in H. now subst.
Qed.

Lemma owner_match_ident (p oref w1 w2 : json) :
  owner_matches p oref w1 -> owner_matches p oref w2 ->
  str_ident w1 <> None -> str_ident w2 <> None ->
  str_ident w1 = str_ident w2.
Proof.
  intros (nw1 & np1 & nm1 & k1 & on1 & ok1 &
          Hn1 & Hp1 & E1 & Hm1 & Ho1 & F1 & Hk1 & Hq1 & G1)
         (nw2 & np2 & nm2 & k2 & on2 & ok2 &
          Hn2 & Hp2 & E2 & Hm2 & Ho2 & F2 & Hk2 & Hq2 & G2).
  unfold str_ident. rewrite Hn1, Hk1, Hm1, Hn2, Hk2, Hm2.
  rewrite Hp1 in Hp2. rewrite Ho1 in Ho2. rewrite Hq1 in Hq2.
  inversion Hp2; inversion Ho2; inversion Hq2; subst np2 on2 ok2.
  destruct nw1; try congruence. destruct k1; try congruence.
  destruct nm1; try congruence.
  destruct nw2; try congruence. destruct k2; try congruence.
  destruct nm2; try congruence.
  intros _ _.
  apply py_eq_str_l in E1, E2, F1, F2, G1, G2. congruence.
Qed.

Lemma filter_at_most_one {A B} (f : A -> B) (P : A -> bool) (l : list A) :
  NoDup (map f l) ->
  (forall x y, In x l -> In y l -> P x = true -> P y = true -> f x = f y) ->
  (List.length (filter P l) <= 1)%nat.
Proof.
  induction l as [|a l IH]; simpl; intros Hnd Hf; [lia|].
  inversion Hnd as [|? ? Hn Hd]; subst.
  destruct (P a) eqn:Ea.
  - assert (E : filter P l = []).
    { destruct (filter P l) as [|y ys] eqn:Ef; [reflexivity|].
      assert (Hy : In y (filter P l)) by (rewrite Ef; now left).
      apply filter_In in Hy. destruct Hy as [Hy Py].
      exfalso. apply Hn. rewrite (Hf a y); auto.
      now apply in_map. }
    rewrite E. simpl. lia.
  - apply IH; [assumption|]. intros; apply Hf; auto.
Qed.

Lemma emit_all_concat {A T} (emit : A -> result (list T)) (xs : list A)
      (ess : list (list T)) :
  Forall2 (fun x es => emit x = Ok es) xs ess ->
  emit_all emit xs = Ok (List.concat ess).
Proof.
  induction 1 as [|x es xs ess Hx HF IH]; simpl; [reflexivity|].
  rewrite Hx. simpl. rewrite IH. reflexivity.
Qed.


Lemma index_loop_readable (wls : list json) :
  forall d0 d,
    for_each wls
      (fun wl_by_ns w =>
         n <- ns w ;; nd_modify [] (fun l => l ++ [w]) n wl_by_ns) d0
    = Ok d ->
    forall w, In w wls -> readable w.
Proof.
  induction wls as [|x wls IH]; simpl; intros d0 d H w Hin; [destruct Hin|].
  unbind H as d1 E. unbind E as n En.
  destruct Hin as [<-|Hin]; [now exists n | exact (IH _ _ H w Hin)].
Qed.

Lemma build_svc_backends_readable (wls svcs : list json) (t : backend_table) :
  build_svc_backends wls svcs = Ok t -> forall w, In w wls -> readable w.
Proof.
  unfold build_svc_backends. intros H. unbind H as idx Hidx.
  exact (index_loop_readable wls [] idx Hidx).
Qed.

Lemma owner_workloads_explicit (wls : list json) (p : json)
      (owners : list json) :
  readable p -> (forall w, In w wls -> readable w) ->
  owner_refs p = Ok owners ->
  (forall oref, In oref owners -> exists kv, oref = JDict kv) ->
  owner_workloads_of wls p
  = Ok (flat_map (fun oref => filter (owner_matchb p oref) wls) owners).
Proof.
  intros Hp Hw Ho Hd. unfold owner_workloads_of.
  rewrite pod_links_emit, (pod_emit_explicit _ _ _ Hp Hw Ho Hd). simpl.
  f_equal. clear. induction owners as [|oref owners IH]; simpl;
    [reflexivity|].
  rewrite map_app, IH, map_map. simpl. now rewrite map_id.
Qed.

(** ** Dict keys: two hashable values are one key exactly when they are
    [==] *)

Lemma num_key_eq_iff (p q : num) :
  num_key p = num_key q <-> num_eqb p q = true.
Proof.
  destruct p as [p|a], q as [q|b]; unfold num_key; cbv zeta;
    cbn [num_eqb].
  - rewrite Qeq_bool_iff, <- Qred_eq_iff. split.
    + destruct (Pos.eqb (Qden (Qred p)) 1) eqn:Ep,
        (Pos.eqb (Qden (Qred q)) 1) eqn:Eq;
        intros H; inversion H; try reflexivity.
      apply Pos.eqb_eq in Ep, Eq.
      destruct (Qred p) as [np dp], (Qred q) as [nq dq]. simpl in *.
      now subst.
    + now intros ->.
  - destruct (Pos.eqb (Qden (Qred p)) 1); split; discriminate.
  - destruct (Pos.eqb (Qden (Qred q)) 1); split; discriminate.
  - split.
    + intros H. inversion H. apply Bool.eqb_reflx.
    + intros H. apply Bool.eqb_prop in H. now subst.
Qed.

Lemma num_key_inject_Z (z : Z) : num_key (NFin (inject_Z z)) = HInt z.
Proof. unfold num_key. now rewrite Qred_inject_Z. Qed.

Lemma hash_eq_iff (a b : json) (ha hb : hkey) :
  hash a = Ok ha -> hash b = Ok hb -> (ha = hb <-> py_eq a b = true).
Proof.
  assert (Hint : forall x y, HInt x = HInt y <-> Z.eqb x y = true).
  { intros x y. rewrite Z.eqb_eq. split; [now inversion 1 | now intros ->]. }
  assert (Hnum : forall f h, num_key (fval f) = h -> h <> HNone).
  { intros f h <- E. destruct (key_num_num_key (fval f)) as [p Hp].
    rewrite E in Hp. discriminate. }
  assert (Hstr : forall f s, num_key (fval f) <> HStr s).
  { intros f s E. destruct (key_num_num_key (fval f)) as [p Hp].
    rewrite E in Hp. discriminate. }
  destruct a as [|x|x|x|x| |], b as [|y|y|y|y| |]; simpl;
    intros Ha Hb; inversion Ha; inversion Hb; subst ha hb;
    try (split; [discriminate | discriminate]);
    try (split; [reflexivity | reflexivity]).
  - split; [intros E; symmetry in E; now apply Hnum in E | discriminate].
  - rewrite Hint. destruct x, y; simpl; split; congruence.
  - apply Hint.
  - rewrite <- (num_key_inject_Z (Z.b2z x)). apply num_key_eq_iff.
  - rewrite Hint. rewrite Z.eqb_sym. reflexivity.
  - apply Hint.
  - rewrite <- (num_key_inject_Z x). apply num_key_eq_iff.
  - split; [intros E; now apply Hnum in E | discriminate].
  - rewrite <- (num_key_inject_Z (Z.b2z y)). apply num_key_eq_iff.
  - rewrite <- (num_key_inject_Z y). apply num_key_eq_iff.
  - apply num_key_eq_iff.
  - split; [intros E; now apply Hstr in E | discriminate].
  - split; [intros E; symmetry in E; now apply Hstr in E | discriminate].
  - rewrite String.eqb_eq. split; [now inversion 1 | now intros ->].
Qed.

(** ** Totality on shaped documents *)

Lemma for_each_total {A S} (P : S -> Prop) (body : S -> A -> result S)
      (xs : list A) :
  (forall acc x, In x xs -> P acc ->
                 exists acc', body acc x = Ok acc' /\ P acc') ->
  forall acc, P acc -> exists r, for_each xs body acc = Ok r /\ P r.
Proof.
  induction xs as [|x xs IH]; simpl; intros Hb acc Hacc; [eauto|].
  destruct (Hb acc x (or_introl eq_refl) Hacc) as (acc' & -> & Hacc').
  simpl. apply IH; [|assumption]. intros; apply Hb; auto.
Qed.

Lemma all_of_total {A} (xs : list A) (test : A -> result bool) :
  (forall x, exists b, test x = Ok b) -> exists b, all_of xs test = Ok b.
Proof.
  intros Ht. induction xs as [|x xs IH]; simpl; [eauto|].
  destruct (Ht x) as [b ->]. simpl. destruct b; eauto.
Qed.

Lemma or_else_dict (v : json) :
  falsy_or is_dict v = true -> exists kv, or_else v empty_dict = JDict kv.
Proof.
  unfold falsy_or, or_else. destruct (truthy v); simpl.
  - destruct v; try discriminate. eauto.
  - intros _. unfold empty_dict. eauto.
Qed.

Lemma shaped_metadata (o : json) :
  shaped o = true ->
  exists mk,
    get o "metadata" empty_dict = Ok (JDict mk) /\
    absent_or is_str "namespace" mk = true /\
    absent_or (falsy_or is_dict) "labels" mk = true /\
    absent_or (falsy_or (list_of is_dict)) "ownerReferences" mk = true.
Proof.
  destruct o as [| | | | | |kv]; try discriminate. simpl.
  intros H. apply andb_prop in H. destruct H as [H _].
  unfold absent_or in H. destruct (assoc "metadata" kv) as [m|].
  - destruct m as [| | | | | |mk]; try discriminate. simpl in H.
    apply andb_prop in H. destruct H as [H H3].
    apply andb_prop in H. destruct H as [H1 H2]. eauto.
  - exists []. auto.
Qed.

Lemma shaped_spec_block (o : json) :
  shaped o = true ->
  exists sk,
    get o "spec" empty_dict = Ok (JDict sk) /\
    absent_or (falsy_or is_dict) "selector" sk = true /\
    absent_or (list_of shaped_rule) "rules" sk = true.
Proof.
  destruct o as [| | | | | |kv]; try discriminate. simpl.
  intros H. apply andb_prop in H. destruct H as [_ H].
  unfold absent_or in H. destruct (assoc "spec" kv) as [sp|].
  - destruct sp as [| | | | | |sk]; try discriminate. simpl in H.
    apply andb_prop in H. destruct H as [H1 H2]. eauto.
  - exists []. auto.
Qed.

Lemma shaped_ns (o : json) :
  shaped o = true -> exists s, ns o = Ok (JStr s).
Proof.
  intros H. destruct (shaped_metadata _ H) as (mk & Hm & Hn & _).
  unfold ns. rewrite Hm. simpl. unfold absent_or in Hn.
  destruct (assoc "namespace" mk) as [v|]; [|eauto].
  destruct v; try discriminate. eauto.
Qed.

Lemma shaped_readable (o : json) : shaped o = true -> readable o.
Proof.
  intros H. destruct (shaped_ns _ H) as [s Hs]. now exists (JStr s).
Qed.

Lemma shaped_obj_key (o : json) :
  shaped o = true -> exists key, obj_key o = Ok key.
Proof.
  intros H. destruct (shaped_ns _ H) as [s Hs]. eapply obj_key_ok; eauto.
Qed.

Lemma shaped_label_map (o : json) :
  shaped o = true -> exists lbl, label_map o = Ok (JDict lbl).
Proof.
  intros H. destruct (shaped_metadata _ H) as (mk & Hm & _ & Hl & _).
  unfold label_map. rewrite Hm. simpl. unfold absent_or in Hl.
  destruct (assoc "labels" mk) as [v|].
  - destruct (or_else_dict _ Hl) as [kv ->]. eauto.
  - exists []. reflexivity.
Qed.

Lemma shaped_selector (o : json) :
  shaped o = true -> exists sel, svc_selector o = Ok (JDict sel).
Proof.
  intros H. destruct (shaped_spec_block _ H) as (sk & Hs & Hsel & _).
  unfold svc_selector. rewrite Hs. simpl. unfold absent_or in Hsel.
  destruct (assoc "selector" sk) as [v|].
  - destruct (or_else_dict _ Hsel) as [kv ->]. eauto.
  - exists []. reflexivity.
Qed.

Lemma shaped_owner_refs (o : json) :
  shaped o = true ->
  exists owners,
    owner_refs o = Ok owners /\
    forall oref, In oref owners -> exists kv, oref = JDict kv.
Proof.
  intros H. destruct (shaped_metadata _ H) as (mk & Hm & _ & _ & Ho).
  unfold owner_refs. rewrite Hm. simpl. unfold absent_or in Ho.
  destruct (assoc "ownerReferences" mk) as [v|].
  - unfold falsy_or, or_else in *. destruct (truthy v); simpl in *.
    + destruct v as [| | | | |l|]; try discriminate. simpl.
      exists l. split; [reflexivity|]. intros oref Hin.
      simpl in Ho. rewrite forallb_forall in Ho. specialize (Ho _ Hin).
      destruct oref; try discriminate. eauto.
    + exists []. split; [reflexivity | intros ? []].
  - exists []. split; [reflexivity | intros ? []].
Qed.

Lemma shaped_path_name (p : json) :
  shaped_path p = true -> exists nm, path_service_name p = Ok nm.
Proof.
  destruct p as [| | | | | |kv]; try discriminate. simpl.
  unfold path_service_name, absent_or. simpl.
  destruct (assoc "backend" kv) as [b|]; [|simpl; eauto].
  destruct b as [| | | | | |bk]; try discriminate. simpl.
  destruct (assoc "service" bk) as [svc|]; [|simpl; eauto].
  destruct svc; try discriminate. simpl. eauto.
Qed.

Lemma shaped_rule_paths (r : json) :
  shaped_rule r = true ->
  exists ps, rule_paths r = Ok ps /\ forallb shaped_path ps = true.
Proof.
  destruct r as [| | | | | |kv]; try discriminate. simpl.
  unfold rule_paths, absent_or. simpl.
  destruct (assoc "http" kv) as [h|]; [|simpl; eauto].
  destruct h as [| | | | | |hk]; try discriminate. simpl.
  destruct (assoc "paths" hk) as [paths|]; [|simpl; eauto].
  destruct paths; try discriminate. simpl. eauto.
Qed.

Lemma shaped_ingress_rules (o : json) :
  shaped o = true ->
  exists rs, ingress_rules o = Ok rs /\ forallb shaped_rule rs = true.
Proof.
  intros H. destruct (shaped_spec_block _ H) as (sk & Hs & _ & Hr).
  unfold ingress_rules. rewrite Hs. simpl. unfold absent_or in Hr.
  destruct (assoc "rules" sk) as [rules|]; [|simpl; eauto].
  destruct rules; try discriminate. simpl. eauto.
Qed.

Lemma shaped_ingress_emit (o : json) :
  shaped o = true -> exists es, ingress_emit o = Ok es.
Proof.
  intros H. destruct (shaped_ns _ H) as [n Hn].
  destruct (shaped_ingress_rules _ H) as (rs & Hr & Hrs).
  unfold ingress_emit. rewrite Hn, Hr. simpl.
  apply emit_all_total. intros r Hin.
  rewrite forallb_forall in Hrs.
  destruct (shaped_rule_paths _ (Hrs _ Hin)) as (ps & Hp & Hps).
  unfold rule_emit. rewrite Hp. simpl.
  apply emit_all_total. intros p Hpin.
  rewrite forallb_forall in Hps.
  destruct (shaped_path_name _ (Hps _ Hpin)) as [nm Hnm].
  unfold path_emit. rewrite Hnm. simpl. eauto.
Qed.

Lemma labels_match_total (lbl sel : list (string * json)) :
  exists b, labels_match (JDict lbl) (JDict sel) = Ok b.
Proof.
  unfold labels_match. simpl. apply all_of_total.
  intros kv. simpl. eauto.
Qed.

Lemma build_wl_by_ns_total (wls : list json) :
  (forall w, In w wls -> shaped w = true) ->
  exists idx, build_wl_by_ns wls = Ok idx.
Proof.
  intros Hw. unfold build_wl_by_ns.
  assert (H : exists r,
             for_each wls
               (fun wl_by_ns w =>
                  n <- ns w ;; nd_modify [] (fun l => l ++ [w]) n wl_by_ns)
               [] = Ok r /\ True).
  { apply (for_each_total (fun _ => True)); [|exact I].
    intros acc w Hin _. destruct (shaped_ns _ (Hw _ Hin)) as [s ->].
    unfold nd_modify. simpl. eauto. }
  destruct H as (r & Hr & _). eauto.
Qed.

Lemma match_service_total (wls : list json) (idx : nsdict (list json))
      (t : backend_table) (s : json) :
  (forall w, In w wls -> shaped w = true) ->
  build_wl_by_ns wls = Ok idx ->
  shaped s = true ->
  exists t', match_service idx t s = Ok t'.
Proof.
  intros Hw Hidx Hs. unfold match_service.
  destruct (shaped_selector _ Hs) as [sel ->]. simpl.
  destruct sel as [|kv0 sel]; simpl; [eauto|].
  destruct (shaped_ns _ Hs) as [n Hn]. rewrite Hn. simpl.
  fold (nd_lookup (HStr n) idx).
  rewrite (build_wl_by_ns_spec _ _ Hidx).
  destruct (shaped_obj_key _ Hs) as [key Hk].
  assert (H : exists r,
             for_each (filter (in_namespace (HStr n)) wls)
               (match_candidate s (JDict (kv0 :: sel))) t = Ok r /\ True).
  { apply (for_each_total (fun _ => True)); [|exact I].
    intros acc w Hin _. apply filter_In in Hin. destruct Hin as [Hin _].
    unfold match_candidate.
    destruct (shaped_label_map _ (Hw _ Hin)) as [lbl ->]. simpl.
    destruct (labels_match_total lbl (kv0 :: sel)) as [b ->]. simpl.
    destruct b; [|eauto]. rewrite Hk. simpl. eauto. }
  destruct H as (r & Hr & _). eauto.
Qed.

Lemma build_svc_backends_total (wls svcs : list json) :
  (forall w, In w wls -> shaped w = true) ->
  (forall s, In s svcs -> shaped s = true) ->
  exists t, build_svc_backends wls svcs = Ok t.
Proof.
  intros Hw Hs. unfold build_svc_backends.
  destruct (build_wl_by_ns_total _ Hw) as [idx Hidx]. rewrite Hidx. simpl.
  assert (H : exists r,
             for_each svcs (match_service idx) [] = Ok r /\ True).
  { apply (for_each_total (fun _ => True)); [|exact I].
    intros acc s Hin _.
    destruct (match_service_total wls idx acc s Hw Hidx (Hs _ Hin))
      as [t' ->].
    eauto. }
  destruct H as (r & Hr & _). eauto.
Qed.

Lemma backend_edges_total (t : backend_table) (svcs : list json) :
  (forall s, In s svcs -> shaped s = true) ->
  exists es, backend_edges t svcs = Ok es.
Proof.
  intros Hs. unfold backend_edges.
  assert (H : exists r,
             for_each svcs
               (fun acc s => ws <- backends_of t s ;;
                             Ok (acc ++ map (BackendEdge s) ws))
               [] = Ok r /\ True).
  { apply (for_each_total (fun _ => True)); [|exact I].
    intros acc s Hin _. unfold backends_of.
    destruct (shaped_obj_key _ (Hs _ Hin)) as [key ->]. simpl. eauto. }
  destruct H as (r & Hr & _). eauto.
Qed.

Lemma node_lines_total (os : list json) :
  (forall o, In o os -> shaped o = true) -> node_lines os = Ok tt.
Proof.
  intros Ho. unfold node_lines.
  induction os as [|o os IH]; simpl; [reflexivity|].
  destruct (shaped_ns _ (Ho _ (or_introl eq_refl))) as [s Hs].
  unfold node_line. rewrite Hs. simpl.
  destruct (ns_ok_name_kind _ _ Hs) as (nm & k & -> & _). simpl.
  apply IH. intros; apply Ho; now right.
Qed.

Lemma resolve_routes_total (ings : list json) :
  (forall o, In o ings -> shaped o = true) ->
  exists es, resolve_routes ings = Ok es.
Proof.
  intros Ho. rewrite resolve_routes_emit. apply emit_all_total.
  intros o Hin. apply shaped_ingress_emit, Ho, Hin.
Qed.

Lemma resolve_owners_total (wls pds : list json) :
  (forall w, In w wls -> shaped w = true) ->
  (forall p, In p pds -> shaped p = true) ->
  exists es, resolve_owners wls pds = Ok es.
Proof.
  intros Hw Hp. rewrite resolve_owners_emit. apply emit_all_total.
  intros p Hin.
  destruct (shaped_owner_refs _ (Hp _ Hin)) as (owners & Ho & Hd).
  rewrite (pod_emit_explicit wls p owners); eauto.
  - apply shaped_readable, Hp, Hin.
  - intros w Hwin. apply shaped_readable, Hw, Hwin.
Qed.

(** Sorting string keys never raises. *)
Lemma insert_sorted_total {V} (x : json * V) (l : list (json * V)) :
  is_str (fst x) = true ->
  Forall (fun y => is_str (fst y) = true) l ->
  exists r, insert_sorted x l = Ok r /\
            Forall (fun y => is_str (fst y) = true) r.
Proof.
  intros Hx. induction 1 as [|y l Hy Hl IH]; simpl.
  - eexists. split; [reflexivity|]. now constructor.
  - destruct x as [kx vx], y as [ky vy]. simpl in *.
    destruct kx; try discriminate. destruct ky; try discriminate.
    unfold py_lt. simpl.
    destruct (String_as_OT.compare s s0).
    + destruct IH as (r & -> & Hr). simpl. eexists.
      split; [reflexivity|]. now constructor.
    + eexists. split; [reflexivity|]. repeat constructor; assumption.
    + destruct IH as (r & -> & Hr). simpl. eexists.
      split; [reflexivity|]. now constructor.
Qed.

Lemma sorted_total {V} (l : list (json * V)) :
  Forall (fun y => is_str (fst y) = true) l -> exists r, sorted l = Ok r.
Proof.
  intros Hl. unfold sorted.
  assert (H : exists r,
             for_each l (fun acc x => insert_sorted x acc) [] = Ok r /\
             Forall (fun y : json * V => is_str (fst y) = true) r).
  { apply (for_each_total
             (fun acc : list (json * V) =>
                Forall (fun y => is_str (fst y) = true) acc));
      [|constructor].
    intros acc x Hin Hacc. rewrite Forall_forall in Hl.
    apply insert_sorted_total; auto. }
  destruct H as (r & Hr & _). eauto.
Qed.

Lemma file_by_ns_total {V} (dflt : V) (f : json -> V -> V) (xs : list json)
      (d0 : nsdict V) :
  (forall x, In x xs -> shaped x = true) ->
  Forall (fun e => is_str (fst (snd e)) = true) d0 ->
  exists d,
    for_each xs (fun d x => n <- ns x ;; nd_modify dflt (f x) n d) d0 = Ok d /\
    Forall (fun e => is_str (fst (snd e)) = true) d.
Proof.
  intros Hx Hd0.
  apply (for_each_total
           (fun d : nsdict V =>
              Forall (fun e => is_str (fst (snd e)) = true) d));
    [|assumption].
  intros acc x Hin Hacc. destruct (shaped_ns _ (Hx _ Hin)) as [s ->].
  unfold nd_modify. simpl. eexists. split; [reflexivity|].
  apply od_modify_forall; auto using hkey_eqb_eq.
Qed.

Lemma namespace_groups_total (svcs wls : list json) :
  (forall s, In s svcs -> shaped s = true) ->
  (forall w, In w wls -> shaped w = true) ->
  exists gs, namespace_groups svcs wls = Ok gs.
Proof.
  intros Hs Hw. unfold namespace_groups, build_by_ns.
  destruct (file_by_ns_total no_group add_service svcs [] Hs)
    as (d1 & -> & Hd1); [constructor|]. simpl.
  destruct (file_by_ns_total no_group add_workload wls d1 Hw Hd1)
    as (d & -> & Hd). simpl.
  apply sorted_total. unfold nd_items. rewrite Forall_forall in *.
  intros y Hy. apply in_map_iff in Hy. destruct Hy as (e & <- & He). auto.
Qed.

(** X19.  A run over shaped documents resolves its graph: nothing is
    raised, whichever of the optional fields are absent. *)
Theorem main_total_on_shaped (include_pods : bool) (docs : list json) :
  (forall o, In o (normalize docs) -> shaped o = true) ->
  exists g, main include_pods docs = Ok g.
Proof.
  intros Hs. unfold main.
  destruct (classify_total (normalize docs)) as [b Hb].
  { intros o Hin. specialize (Hs o Hin). destruct o; try discriminate. eauto. }
  rewrite Hb. simpl.
  destruct (classify_spec _ _ Hb) as (Hw & Hsv & Hi & Hp & _).
  assert (Sw : forall w, In w (workloads b) -> shaped w = true).
  { intros w Hin. rewrite Hw in Hin. apply filter_In in Hin. apply Hs, Hin. }
  assert (Ss : forall s, In s (services b) -> shaped s = true).
  { intros s Hin. rewrite Hsv in Hin. apply filter_In in Hin. apply Hs, Hin. }
  assert (Si : forall o, In o (ingresses b) -> shaped o = true).
  { intros o Hin. rewrite Hi in Hin. apply filter_In in Hin. apply Hs, Hin. }
  assert (Sp : forall p, In p (pods b) -> shaped p = true).
  { intros p Hin. rewrite Hp in Hin. apply filter_In in Hin. apply Hs, Hin. }
  destruct (build_svc_backends_total _ _ Sw Ss) as [t ->]. simpl.
  destruct (namespace_groups_total _ _ Ss Sw) as [gs ->]. simpl.
  destruct (backend_edges_total t _ Ss) as [be ->]. simpl.
  destruct (resolve_routes_total _ Si) as [rt ->]. simpl.
  rewrite (node_lines_total _ Ss), (node_lines_total _ Sw). simpl.
  destruct include_pods.
  - rewrite (node_lines_total _ Sp). simpl.
    destruct (resolve_owners_total _ _ Sw Sp) as [own ->]. simpl. eauto.
  - simpl. eauto.
Qed.

(** ** Further facts: loading *)

Lemma has_key_truthy (k : string) (o : json) :
  has_key k o = true -> truthy o = true.
Proof.
  destruct o as [| | | | | |kv]; try discriminate.
  destruct kv; [discriminate | reflexivity].
Qed.

Lemma normalize_read_yaml (docs : list json) :
  normalize (read_yaml docs) = normalize docs.
Proof.
  unfold normalize, read_yaml. rewrite filter_filter.
  apply filter_ext. intros o.
  destruct (has_key "kind" o) eqn:Ek; simpl.
  - now rewrite (has_key_truthy _ _ Ek).
  - now rewrite andb_false_r.
Qed.

Lemma normalize_app (xs ys : list json) :
  normalize (xs ++ ys) = normalize xs ++ normalize ys.
Proof. apply filter_app. Qed.

Lemma normalize_idem (docs : list json) :
  normalize (normalize docs) = normalize docs.
Proof.
  unfold normalize. rewrite filter_filter. apply filter_ext.
  intros o. now rewrite andb_diag.
Qed.

Lemma normalize_flat_read_yaml (files : list (list json)) :
  normalize (flat_map read_yaml files) = normalize (List.concat files).
Proof.
  induction files as [|f files IH]; simpl; [reflexivity|].
  now rewrite !normalize_app, normalize_read_yaml, IH.
Qed.

Lemma normalize_in (docs : list json) (o : json) :
  In o (normalize docs) ->
  exists kv k m,
    o = JDict kv /\ assoc "kind" kv = Some k /\ assoc "metadata" kv = Some m.
Proof.
  unfold normalize. rewrite filter_In. intros [_ H].
  apply andb_prop in H. destruct H as [Hk Hm].
  destruct o as [| | | | | |kv]; try discriminate. simpl in Hk, Hm.
  destruct (assoc "kind" kv) as [k|] eqn:Ek'; [|discriminate].
  destruct (assoc "metadata" kv) as [m|] eqn:Em'; [|discriminate].
  exists kv, k, m. auto.
Qed.

(** ** Further facts: edges and members *)

Lemma emit_all_in {A T} (emit : A -> result (list T)) (xs : list A)
      (es : list T) :
  emit_all emit xs = Ok es ->
  forall e, In e es -> exists x ex, In x xs /\ emit x = Ok ex /\ In e ex.
Proof.
  revert es. induction xs as [|x xs IH]; intros es H e He; simpl in H.
  - inversion H; subst. destruct He.
  - unbind H as e1 E1. unbind H as es' Ees. inversion H; subst es.
    apply in_app_or in He. destruct He as [He|He].
    + exists x, e1. simpl. auto.
    + destruct (IH _ Ees e He) as (y & ey & Hy & Hey & Hin).
      exists y, ey. simpl. auto.
Qed.

Lemma contribution_members (wls : list json) (key : string) (s w : json) :
  In w (contribution wls key s) ->
  In w wls /\ exists h, ns_key s = Some h /\ ns_key w = Some h.
Proof.
  unfold contribution.
  destruct (svc_selector s) as [sel|]; [|intros []].
  destruct (ns_key s) as [h|]; [|intros []].
  destruct (obj_key s) as [skey|]; [|intros []].
  destruct (truthy sel && String.eqb key skey); [|intros []].
  rewrite filter_In. intros [Hin Hb]. split; [assumption|].
  exists h. split; [reflexivity|].
  apply andb_prop in Hb. destruct Hb as [Hn _].
  unfold in_namespace in Hn. destruct (ns_key w) as [h'|]; [|discriminate].
  apply hkey_eqb_eq in Hn. now subst.
Qed.

Lemma route_edges_ingress (ings : list json) (es : list route_edge) :
  resolve_routes ings = Ok es ->
  forall e, In e es -> In (re_ingress e) ings.
Proof.
  rewrite resolve_routes_emit. intros H e He.
  destruct (emit_all_in _ _ _ H e He) as (ing & ei & Hing & Hi & Hei).
  unfold ingress_emit in Hi. unbind Hi as n En. unbind Hi as rs Er.
  destruct (emit_all_in _ _ _ Hi e Hei) as (r & er & _ & Hr & Her).
  unfold rule_emit in Hr. unbind Hr as ps Ep.
  destruct (emit_all_in _ _ _ Hr e Her) as (p & ep & _ & Hp & Hep).
  unfold path_emit in Hp. unbind Hp as nm Enm. inversion Hp; subst ep.
  destruct (truthy nm); [|destruct Hep].
  destruct Hep as [<-|[]]. exact Hing.
Qed.

Lemma owner_edges_ends (wls pds : list json) (es : list owner_edge) :
  resolve_owners wls pds = Ok es ->
  forall e, In e es -> In (oe_workload e) wls /\ In (oe_pod e) pds.
Proof.
  rewrite resolve_owners_emit. intros H e He.
  destruct (emit_all_in _ _ _ H e He) as (p & ep & Hp & Hpe & Hep).
  unfold pod_emit in Hpe. unbind Hpe as owners Eo.
  destruct (emit_all_in _ _ _ Hpe e Hep) as (oref & eo & _ & Hoe & Heo).
  unfold owner_emit in Hoe. unbind Hoe as oname En. unbind Hoe as okind Ek.
  destruct (emit_all_in _ _ _ Hoe e Heo) as (w & ew & Hw & Hwe & Hew).
  unfold workload_emit in Hwe. unbind Hwe as b Eb. inversion Hwe; subst ew.
  destruct b; [|destruct Hew]. destruct Hew as [<-|[]]. simpl. auto.
Qed.

(** ** Further facts: the groups *)

Lemma od_in_find {K V} (eqb : K -> K -> bool) (k : K) (v : V)
      (d : odict K V) :
  (forall a b, eqb a b = true <-> a = b) ->
  NoDup (map fst d) -> In (k, v) d -> od_find eqb k d = Some v.
Proof.
  intros Heq. induction d as [|[k0 v0] d IH]; simpl; [intros _ []|].
  intros Hnd [Hkv|Hin]; inversion Hnd as [|? ? Hn Hd]; subst.
  - inversion Hkv; subst.
    assert (E : eqb k k = true) by now apply Heq. now rewrite E.
  - destruct (eqb k k0) eqn:E0; [|auto].
    apply Heq in E0; subst k0. exfalso; apply Hn.
    change k with (fst (k, v)). now apply in_map.
Qed.

Lemma file_by_ns_lookup {V} (dflt : V) (f : json -> V -> V) (xs : list json) :
  forall d0 d,
    for_each xs (fun d x => n <- ns x ;; nd_modify dflt (f x) n d) d0 = Ok d ->
    forall h,
      nd_value dflt h d
      = fold_left (fun v x => f x v) (filter (in_namespace h) xs)
                  (nd_value dflt h d0).
Proof.
  induction xs as [|x xs IH]; simpl; intros d0 d H h.
  - now inversion H.
  - unbind H as d1 E. unbind E as n En. unfold nd_modify in E.
    unbind E as hx Eh. inversion E; subst d1; clear E.
    rewrite (IH _ _ H h).
    assert (Ex : in_namespace h x = hkey_eqb h hx).
    { unfold in_namespace, ns_key. now rewrite En, Eh. }
    assert (Ev : nd_value dflt h
                   (od_modify hkey_eqb (n, dflt)
                      (fun e => (fst e, f x (snd e))) hx d0)
                 = if hkey_eqb h hx then f x (nd_value dflt h d0)
                   else nd_value dflt h d0).
    { unfold nd_value. rewrite (od_find_modify _ _ hkey_eqb hkey_eqb_eq).
      destruct (hkey_eqb h hx) eqn:Ehh; [|reflexivity].
      apply hkey_eqb_eq in Ehh; subst hx.
      destruct (od_find hkey_eqb h d0); reflexivity. }
    rewrite Ev, Ex. destruct (hkey_eqb h hx); reflexivity.
Qed.

Lemma fold_add_service (l : list json) (g : group) :
  fold_left (fun v x => add_service x v) l g
  = Group (grp_services g ++ l) (grp_workloads g).
Proof.
  revert g. induction l as [|x l IH]; intros g; simpl.
  - destruct g; simpl. now rewrite app_nil_r.
  - rewrite IH. simpl. now rewrite <- app_assoc.
Qed.

Lemma fold_add_workload (l : list json) (g : group) :
  fold_left (fun v x => add_workload x v) l g
  = Group (grp_services g) (grp_workloads g ++ l).
Proof.
  revert g. induction l as [|x l IH]; intros g; simpl.
  - destruct g; simpl. now rewrite app_nil_r.
  - rewrite IH. simpl. now rewrite <- app_assoc.
Qed.

(** ** Further facts: keys *)

Lemma append_sep_inj (c : ascii) (a a' r r' : string) :
  has_char c a = false -> has_char c a' = false ->
  (a ++ String c r)%string = (a' ++ String c r')%string ->
  a = a' /\ r = r'.
Proof.
  revert a'. induction a as [|x a IH]; intros [|y a'] Ha Ha' H;
    simpl in *.
  - inversion H. auto.
  - inversion H; subst y. apply orb_false_elim in Ha'.
    destruct Ha' as [E _]. now rewrite Ascii.eqb_refl in E.
  - inversion H; subst x. apply orb_false_elim in Ha.
    destruct Ha as [E _]. now rewrite Ascii.eqb_refl in E.
  - inversion H; subst y.
    apply orb_false_elim in Ha. apply orb_false_elim in Ha'.
    destruct (IH a' (proj2 Ha) (proj2 Ha') H2) as [-> ->]. auto.
Qed.

Lemma append_cancel_l (p x y : string) :
  (p ++ x)%string = (p ++ y)%string -> x = y.
Proof.
  induction p as [|c p IH]; simpl; intros H; [assumption|].
  inversion H. auto.
Qed.

Lemma str_append_assoc (a b c : string) :
  ((a ++ b) ++ c = a ++ (b ++ c))%string.
Proof.
  induction a as [|x a IH]; simpl; [reflexivity | now rewrite IH].
Qed.



(** ** Numeric namespaces *)

Lemma is_num_key (k : json) :
  is_num k = true -> exists h p, hash k = Ok h /\ key_num h = Some p.
Proof.
  destruct k as [| | |f| | |]; try discriminate; intros _.
  - do 2 eexists. split; reflexivity.
  - do 2 eexists. split; reflexivity.
  - destruct (key_num_num_key (fval f)) as [p Hp].
    exists (num_key (fval f)), p. split; [reflexivity | exact Hp].
Qed.

Lemma py_lt_total_num (a b : json) :
  is_num a = true -> is_num b = true -> exists r, py_lt a b = Ok r.
Proof.
  intros Ha Hb.
  destruct (is_num_key _ Ha) as (ha & p & Eha & Ep).
  destruct (is_num_key _ Hb) as (hb & q & Ehb & Eq).
  rewrite (py_lt_num _ _ _ _ _ _ Eha Ehb Ep Eq). eauto.
Qed.

Lemma insert_sorted_total_num {V} (x : json * V) (l : list (json * V)) :
  is_num (fst x) = true ->
  Forall (fun y => is_num (fst y) = true) l ->
  exists r, insert_sorted x l = Ok r /\
            Forall (fun y => is_num (fst y) = true) r.
Proof.
  intros Hx. induction 1 as [|y l Hy Hl IH]; simpl.
  - eexists. split; [reflexivity|]. now constructor.
  - destruct (py_lt_total_num _ _ Hx Hy) as [[|] ->]; simpl.
    + eexists. split; [reflexivity|]. repeat constructor; assumption.
    + destruct IH as (r & -> & Hr). simpl. eexists.
      split; [reflexivity|]. now constructor.
Qed.

Lemma sorted_total_num {V} (l : list (json * V)) :
  Forall (fun y => is_num (fst y) = true) l -> exists r, sorted l = Ok r.
Proof.
  intros Hl. unfold sorted.
  assert (H : exists r,
             for_each l (fun acc x => insert_sorted x acc) [] = Ok r /\
             Forall (fun y : json * V => is_num (fst y) = true) r).
  { apply (for_each_total
             (fun acc : list (json * V) =>
                Forall (fun y => is_num (fst y) = true) acc));
      [|constructor].
    intros acc x Hin Hacc. rewrite Forall_forall in Hl.
    apply insert_sorted_total_num; auto. }
  destruct H as (r & Hr & _). eauto.
Qed.

Lemma file_by_ns_total_num {V} (dflt : V) (f : json -> V -> V)
      (xs : list json) (d0 : nsdict V) :
  (forall x, In x xs -> exists n, ns x = Ok n /\ is_num n = true) ->
  Forall (fun e => is_num (fst (snd e)) = true) d0 ->
  exists d,
    for_each xs (fun d x => n <- ns x ;; nd_modify dflt (f x) n d) d0 = Ok d /\
    Forall (fun e => is_num (fst (snd e)) = true) d.
Proof.
  intros Hx Hd0.
  apply (for_each_total
           (fun d : nsdict V =>
              Forall (fun e => is_num (fst (snd e)) = true) d));
    [|assumption].
  intros acc x Hin Hacc. destruct (Hx _ Hin) as (n & -> & Hn).
  destruct (is_num_key _ Hn) as (h & p & Eh & _).
  unfold nd_modify. simpl. rewrite Eh. simpl.
  eexists. split; [reflexivity|].
  apply od_modify_forall; auto using hkey_eqb_eq.
Qed.

(** ** The text of the diagrams, loop by loop *)

Lemma lines_loop_ok {A} (line : A -> result string) (rend : A -> string)
      (xs : list A) :
  (forall x, In x xs -> line x = Ok (rend x)) ->
  forall lines,
    for_each xs (fun lines x => l <- line x ;; Ok (lines ++ [l])) lines
    = Ok (lines ++ map rend xs).
Proof.
  induction xs as [|x xs IH]; simpl; intros H lines.
  - now rewrite app_nil_r.
  - rewrite (H x) by now left. simpl.
    rewrite IH by (intros; apply H; now right).
    now rewrite <- app_assoc.
Qed.

Lemma for_each_render {A E} (rend : E -> list string)
      (body : list string -> A -> result (list string))
      (emit : A -> result (list E)) (xs : list A) :
  (forall acc x,
      In x xs -> body acc x = (es <- emit x ;; Ok (acc ++ flat_map rend es))) ->
  forall acc,
    for_each xs body acc
    = (es <- emit_all emit xs ;; Ok (acc ++ flat_map rend es)).
Proof.
  induction xs as [|x xs IH]; simpl; intros H acc.
  - now rewrite app_nil_r.
  - rewrite (H acc x) by now left.
    destruct (emit x) as [e|]; simpl; [|reflexivity].
    rewrite IH by (intros; apply H; now right).
    destruct (emit_all emit xs) as [es|]; simpl; [|reflexivity].
    now rewrite flat_map_app, app_assoc.
Qed.

Lemma flat_map_single {A B} (f : A -> B) (l : list A) :
  flat_map (fun x => [f x]) l = map f l.
Proof. induction l as [|x l IH]; simpl; [reflexivity | now rewrite IH]. Qed.

Lemma readable_fields (o : json) :
  readable o ->
  exists n nm k, ns o = Ok n /\ name o = Ok nm /\ kind o = Ok k.
Proof.
  intros [n Hn]. destruct (ns_ok_name_kind _ _ Hn) as (nm & k & Hnm & Hk).
  eauto 6.
Qed.

Lemma obj_key_readable (o : json) (key : string) :
  obj_key o = Ok key -> readable o.
Proof.
  unfold obj_key. intros H. unbind H as n En. now exists n.
Qed.

Lemma n_id_alias (prefix : string) (o : json) :
  readable o -> n_id prefix o = Ok (alias prefix o).
Proof.
  intros Hr. destruct (readable_fields _ Hr) as (n & nm & k & Hn & Hnm & Hk).
  unfold n_id, alias, txt. now rewrite Hnm, Hn.
Qed.

(** Tactic: read the fields of a readable object in a line. *)
Ltac read_fields Hr :=
  let n := fresh "n" in
  let nm := fresh "nm" in
  let k := fresh "k" in
  let Hn := fresh "Hn" in
  let Hnm := fresh "Hnm" in
  let Hk := fresh "Hk" in
  destruct (readable_fields _ Hr) as (n & nm & k & Hn & Hnm & Hk);
  unfold txt; rewrite ?Hn, ?Hnm, ?Hk; simpl.

Lemma svc_container_line_ok (namespace s : json) :
  readable s ->
  svc_container_line namespace s = Ok (render_svc_container namespace s).
Proof.
  intros Hr. unfold svc_container_line, render_svc_container.
  read_fields Hr. reflexivity.
Qed.

Lemma wl_container_line_ok (namespace w : json) :
  readable w ->
  wl_container_line namespace w = Ok (render_wl_container namespace w).
Proof.
  intros Hr. unfold wl_container_line, render_wl_container.
  read_fields Hr. reflexivity.
Qed.

Lemma rel_line_ok (s w : json) :
  readable s -> readable w ->
  rel_line s w = Ok (render_rel (BackendEdge s w)).
Proof.
  intros Hs Hw. unfold rel_line, render_rel. simpl.
  read_fields Hs. read_fields Hw. reflexivity.
Qed.

Lemma backend_arrow_line_ok (s w : json) :
  readable s -> readable w ->
  backend_arrow_line s w = Ok (render_arrow (BackendEdge s w)).
Proof.
  intros Hs Hw. unfold backend_arrow_line, render_arrow. simpl.
  now rewrite (n_id_alias "svc" s Hs), (n_id_alias "wl" w Hw).
Qed.

Lemma owner_arrow_line_ok (w p : json) :
  readable w -> readable p ->
  owner_arrow_line w p = Ok (render_owner (OwnerEdge w p)).
Proof.
  intros Hw Hp. unfold owner_arrow_line, render_owner. simpl.
  now rewrite (n_id_alias "wl" w Hw), (n_id_alias "pod" p Hp).
Qed.

Lemma svc_node_line_ok (s : json) :
  readable s -> svc_node_line s = Ok (render_svc_node s).
Proof.
  intros Hr. unfold svc_node_line, render_svc_node.
  rewrite (n_id_alias "svc" s Hr). read_fields Hr. reflexivity.
Qed.

Lemma wl_node_line_ok (w : json) :
  readable w -> wl_node_line w = Ok (render_wl_node w).
Proof.
  intros Hr. unfold wl_node_line, render_wl_node.
  rewrite (n_id_alias "wl" w Hr). read_fields Hr. reflexivity.
Qed.

Lemma pod_node_line_ok (p : json) :
  readable p -> pod_node_line p = Ok (render_pod_node p).
Proof.
  intros Hr. unfold pod_node_line, render_pod_node.
  rewrite (n_id_alias "pod" p Hr). read_fields Hr. reflexivity.
Qed.

Lemma cloud_line_ok (ing : json) :
  readable ing -> cloud_line ing = Ok (render_cloud ing).
Proof.
  intros Hr. unfold cloud_line, render_cloud.
  rewrite (n_id_alias "ing" ing Hr). read_fields Hr. reflexivity.
Qed.

(** *** Node lines *)

Lemma node_lines_of_spec (line : json -> result string)
      (rend : json -> string) (os : list json) :
  (forall o, readable o -> line o = Ok (rend o)) ->
  (forall o e, ns o = Raise e -> line o = Raise e) ->
  forall low,
    node_lines_of line low os
    = (node_lines os ;;; Ok (low ++ map rend os)).
Proof.
  intros Hok Hraise. unfold node_lines_of, node_lines.
  induction os as [|o os IH]; simpl; intros low.
  - now rewrite app_nil_r.
  - unfold node_line at 1. destruct (ns o) as [n|e] eqn:En.
    + destruct (ns_ok_name_kind _ _ En) as (nm & k & Hnm & _).
      rewrite Hnm. simpl. rewrite (Hok o) by now exists n. simpl.
      rewrite IH.
      destruct (for_each os (fun _ o0 => node_line o0) tt); simpl;
        [|reflexivity].
      now rewrite <- app_assoc.
    + simpl. now rewrite (Hraise o e En).
Qed.

(** *** Container view *)

Lemma group_lines_ok (lines : list string) (kg : json * group) :
  (forall s, In s (grp_services (snd kg)) -> readable s) ->
  (forall w, In w (grp_workloads (snd kg)) -> readable w) ->
  group_lines lines kg = Ok (lines ++ render_group kg).
Proof.
  intros Hs Hw. unfold group_lines, render_group.
  rewrite (lines_loop_ok _ (render_svc_container (fst kg)))
    by (intros; apply svc_container_line_ok; auto).
  simpl.
  rewrite (lines_loop_ok _ (render_wl_container (fst kg)))
    by (intros; apply wl_container_line_ok; auto).
  simpl. f_equal. rewrite <- !app_assoc. reflexivity.
Qed.

Lemma groups_lines_ok (gs : list (json * group)) :
  (forall kg s, In kg gs -> In s (grp_services (snd kg)) -> readable s) ->
  (forall kg w, In kg gs -> In w (grp_workloads (snd kg)) -> readable w) ->
  forall lines,
    for_each gs group_lines lines = Ok (lines ++ flat_map render_group gs).
Proof.
  induction gs as [|kg gs IH]; simpl; intros Hs Hw lines.
  - now rewrite app_nil_r.
  - rewrite group_lines_ok by (intros; eauto).
    simpl. rewrite IH by (intros; eauto). now rewrite <- app_assoc.
Qed.

Lemma backend_edges_emit (t : backend_table) (svcs : list json) :
  backend_edges t svcs
  = emit_all (fun s => ws <- backends_of t s ;; Ok (map (BackendEdge s) ws))
             svcs.
Proof.
  unfold backend_edges.
  rewrite (for_each_emit_all _
             (fun s => ws <- backends_of t s ;; Ok (map (BackendEdge s) ws))).
  - destruct (emit_all _ svcs); reflexivity.
  - intros acc s. destruct (backends_of t s); reflexivity.
Qed.

Lemma backend_lines_spec (line : json -> json -> result string)
      (rend : backend_edge -> string) (t : backend_table)
      (svcs : list json) :
  (forall s w, readable s -> readable w ->
               line s w = Ok (rend (BackendEdge s w))) ->
  (forall key w, In w (table_get t key) -> readable w) ->
  forall lines,
    for_each svcs
      (fun lines s =>
         skey <- obj_key s ;;
         for_each (table_get t skey)
           (fun lines w => l <- line s w ;; Ok (lines ++ [l])) lines)
      lines
    = (es <- backend_edges t svcs ;; Ok (lines ++ map rend es)).
Proof.
  intros Hline Hread lines. rewrite backend_edges_emit.
  rewrite (for_each_render (fun e => [rend e]) _
             (fun s => ws <- backends_of t s ;; Ok (map (BackendEdge s) ws))).
  - destruct (emit_all _ svcs); simpl; [|reflexivity].
    now rewrite flat_map_single.
  - intros acc s _. unfold backends_of.
    destruct (obj_key s) as [key|] eqn:Ek; simpl; [|reflexivity].
    rewrite (lines_loop_ok _ (fun w => rend (BackendEdge s w))).
    + now rewrite flat_map_single, map_map.
    + intros w Hw. apply Hline; [eapply obj_key_readable; eauto|].
      eapply Hread; eauto.
Qed.

Lemma path_rel_lines_emit (ing ns_ing : json) (lines : list string)
      (p : json) :
  readable ing ->
  path_rel_lines ing ns_ing lines p
  = (es <- path_emit ing ns_ing p ;;
     Ok (lines ++ flat_map render_route_rel es)).
Proof.
  intros Hr. unfold path_rel_lines, path_emit, path_service_name.
  destruct (get p "backend" empty_dict) as [b|]; simpl; [|reflexivity].
  destruct (get b "service" empty_dict) as [svc|]; simpl; [|reflexivity].
  destruct (get svc "name" JNull) as [nm|]; simpl; [|reflexivity].
  destruct (truthy nm); simpl; [|now rewrite app_nil_r].
  unfold ingress_boundary_line, ingress_rel_line.
  read_fields Hr. now rewrite <- app_assoc.
Qed.

Lemma rule_rel_lines_emit (ing ns_ing : json) (lines : list string)
      (r : json) :
  readable ing ->
  rule_rel_lines ing ns_ing lines r
  = (es <- rule_emit ing ns_ing r ;;
     Ok (lines ++ flat_map render_route_rel es)).
Proof.
  intros Hr. unfold rule_rel_lines, rule_emit, rule_paths.
  destruct (get r "http" empty_dict) as [h|]; simpl; [|reflexivity].
  destruct (get h "paths" empty_list) as [paths|]; simpl; [|reflexivity].
  destruct (iter paths) as [ps|]; simpl; [|reflexivity].
  apply for_each_render. intros; now apply path_rel_lines_emit.
Qed.

Lemma ingress_rel_lines_emit (lines : list string) (ing : json) :
  ingress_rel_lines lines ing
  = (es <- ingress_emit ing ;; Ok (lines ++ flat_map render_route_rel es)).
Proof.
  unfold ingress_rel_lines, ingress_emit, ingress_rules.
  destruct (ns ing) as [n|] eqn:En; simpl; [|reflexivity].
  destruct (get ing "spec" empty_dict) as [sp|]; simpl; [|reflexivity].
  destruct (get sp "rules" empty_list) as [rules|]; simpl; [|reflexivity].
  destruct (iter rules) as [rs|]; simpl; [|reflexivity].
  apply for_each_render. intros. apply rule_rel_lines_emit. now exists n.
Qed.

Lemma ingresses_rel_lines_spec (ings : list json) (lines : list string) :
  for_each ings ingress_rel_lines lines
  = (es <- resolve_routes ings ;;
     Ok (lines ++ flat_map render_route_rel es)).
Proof.
  rewrite resolve_routes_emit. apply for_each_render.
  intros. apply ingress_rel_lines_emit.
Qed.

(** *** Topology view *)

Lemma try_owner_line_emit (p oname okind : json) (low : list string)
      (w : json) :
  try_owner_line p oname okind low w
  = (es <- workload_emit p oname okind w ;;
     Ok (low ++ flat_map (fun e => [render_owner e]) es)).
Proof.
  unfold try_owner_line, workload_emit, owner_test.
  destruct (ns w) as [nw|] eqn:Enw; simpl; [|reflexivity].
  destruct (ns p) as [np|] eqn:Enp; simpl; [|reflexivity].
  destruct (py_eq nw np); simpl; [|now rewrite app_nil_r].
  destruct (name w) as [nmw|]; simpl; [|reflexivity].
  destruct (py_eq nmw oname); simpl; [|now rewrite app_nil_r].
  destruct (kind w) as [kw|]; simpl; [|reflexivity].
  destruct (py_eq kw okind); simpl; [|now rewrite app_nil_r].
  rewrite owner_arrow_line_ok; [reflexivity | now exists nw | now exists np].
Qed.

Lemma owner_link_lines_emit (wls : list json) (p : json)
      (low : list string) (oref : json) :
  owner_link_lines wls p low oref
  = (es <- owner_emit wls p oref ;;
     Ok (low ++ flat_map (fun e => [render_owner e]) es)).
Proof.
  unfold owner_link_lines, owner_emit.
  destruct (get oref "name" JNull) as [oname|]; simpl; [|reflexivity].
  destruct (get oref "kind" JNull) as [okind|]; simpl; [|reflexivity].
  apply for_each_render. intros. apply try_owner_line_emit.
Qed.

Lemma pod_link_lines_emit (wls : list json) (low : list string) (p : json) :
  pod_link_lines wls low p
  = (es <- pod_emit wls p ;;
     Ok (low ++ flat_map (fun e => [render_owner e]) es)).
Proof.
  unfold pod_link_lines, pod_emit, owner_refs.
  destruct (get p "metadata" empty_dict) as [m|]; simpl; [|reflexivity].
  destruct (get m "ownerReferences" empty_list) as [o|]; simpl;
    [|reflexivity].
  destruct (iter (or_else o empty_list)) as [owners|]; simpl; [|reflexivity].
  apply for_each_render. intros. apply owner_link_lines_emit.
Qed.

Lemma pods_link_lines_spec (wls pds : list json) (low : list string) :
  for_each pds (pod_link_lines wls) low
  = (es <- resolve_owners wls pds ;; Ok (low ++ map render_owner es)).
Proof.
  rewrite resolve_owners_emit.
  rewrite (for_each_render (fun e => [render_owner e]) _ (pod_emit wls)).
  - destruct (emit_all (pod_emit wls) pds); simpl; [|reflexivity].
    now rewrite flat_map_single.
  - intros. apply pod_link_lines_emit.
Qed.

Lemma path_arrow_lines_emit (ing ns_ing : json) (low : list string)
      (p : json) :
  readable ing ->
  path_arrow_lines ing ns_ing low p
  = (es <- path_emit ing ns_ing p ;;
     Ok (low ++ flat_map (fun e => [render_forward e]) es)).
Proof.
  intros Hr. unfold path_arrow_lines, path_emit, path_service_name.
  destruct (get p "backend" empty_dict) as [b|]; simpl; [|reflexivity].
  destruct (get b "service" empty_dict) as [svc|]; simpl; [|reflexivity].
  destruct (get svc "name" JNull) as [nm|]; simpl; [|reflexivity].
  destruct (truthy nm); simpl; [|now rewrite app_nil_r].
  unfold forward_line, render_forward. simpl.
  now rewrite (n_id_alias "ing" ing Hr).
Qed.

Lemma rule_arrow_lines_emit (ing ns_ing : json) (low : list string)
      (r : json) :
  readable ing ->
  rule_arrow_lines ing ns_ing low r
  = (es <- rule_emit ing ns_ing r ;;
     Ok (low ++ flat_map (fun e => [render_forward e]) es)).
Proof.
  intros Hr. unfold rule_arrow_lines, rule_emit, rule_paths.
  destruct (get r "http" empty_dict) as [h|]; simpl; [|reflexivity].
  destruct (get h "paths" empty_list) as [paths|]; simpl; [|reflexivity].
  destruct (iter paths) as [ps|]; simpl; [|reflexivity].
  apply for_each_render. intros; now apply path_arrow_lines_emit.
Qed.

Lemma ingress_arrow_lines_emit (low : list string) (ing : json) :
  ingress_arrow_lines low ing
  = (es <- ingress_emit ing ;;
     Ok (low ++ render_cloud ing :: map render_forward es)).
Proof.
  unfold ingress_arrow_lines, ingress_emit, ingress_rules.
  destruct (ns ing) as [n|e] eqn:En.
  - assert (Hr : readable ing) by now exists n.
    rewrite (cloud_line_ok ing Hr). simpl.
    destruct (get ing "spec" empty_dict) as [sp|]; simpl; [|reflexivity].
    destruct (get sp "rules" empty_list) as [rules|]; simpl; [|reflexivity].
    destruct (iter rules) as [rs|]; simpl; [|reflexivity].
    rewrite (for_each_render (fun e => [render_forward e]) _
               (rule_emit ing n)).
    + destruct (emit_all (rule_emit ing n) rs); simpl; [|reflexivity].
      now rewrite flat_map_single, <- app_assoc.
    + intros. now apply rule_arrow_lines_emit.
  - unfold cloud_line. rewrite En. reflexivity.
Qed.

Lemma routes_list_emit (ing : json) (es : list route_edge) :
  ingress_emit ing = Ok es -> routes_list ing = es.
Proof.
  intros H. unfold routes_list, routes_of.
  rewrite ingress_routes_emit, H. reflexivity.
Qed.

Lemma ingresses_arrow_lines_spec (ings : list json) :
  forall low,
    for_each ings ingress_arrow_lines low
    = (es <- resolve_routes ings ;;
       Ok (low
             ++ flat_map
                  (fun ing =>
                     render_cloud ing
                     :: map render_forward (routes_list ing))
                  ings)).
Proof.
  rewrite resolve_routes_emit.
  induction ings as [|ing ings IH]; simpl; intros low.
  - now rewrite app_nil_r.
  - rewrite ingress_arrow_lines_emit.
    destruct (ingress_emit ing) as [es|] eqn:Ei; simpl; [|reflexivity].
    rewrite IH. rewrite (routes_list_emit _ _ Ei).
    destruct (emit_all ingress_emit ings); simpl; [|reflexivity].
    now rewrite <- app_assoc.
Qed.

(** *** What the views can rely on *)

Lemma build_by_ns_members (svcs wls : list json) (d : nsdict group)
      (h : hkey) (k : json) (grp : group) :
  build_by_ns svcs wls = Ok d ->
  In (h, (k, grp)) d ->
  hash k = Ok h /\
  grp_services grp = filter (in_namespace h) svcs /\
  grp_workloads grp = filter (in_namespace h) wls.
Proof.
  intros Ed Hin.
  destruct (build_by_ns_spec _ _ _ Ed) as [[Hnodup Hall] _].
  rewrite Forall_forall in Hall. split; [apply (Hall _ Hin)|].
  pose proof (od_in_find hkey_eqb h (k, grp) d hkey_eqb_eq Hnodup Hin) as Hf.
  assert (Hv : nd_value no_group h d = grp).
  { unfold nd_value. now rewrite Hf. }
  unfold build_by_ns in Ed. unbind Ed as d1 E1.
  rewrite (file_by_ns_lookup no_group add_workload wls d1 d Ed h) in Hv.
  rewrite (file_by_ns_lookup no_group add_service svcs [] d1 E1 h) in Hv.
  rewrite fold_add_workload, fold_add_service in Hv.
  subst grp. simpl. auto.
Qed.

Lemma in_namespace_readable (h : hkey) (o : json) :
  in_namespace h o = true -> readable o.
Proof.
  unfold in_namespace, ns_key, readable.
  destruct (ns o) as [n|]; [eauto | discriminate].
Qed.

Lemma namespace_groups_readable (svcs wls : list json)
      (gs : list (json * group)) :
  namespace_groups svcs wls = Ok gs ->
  forall kg, In kg gs ->
             (forall s, In s (grp_services (snd kg)) -> readable s) /\
             (forall w, In w (grp_workloads (snd kg)) -> readable w).
Proof.
  unfold namespace_groups. intros H kg Hin. unbind H as d Ed.
  destruct (build_by_ns_spec _ _ _ Ed) as [Hok _].
  destruct (nsdict_items_keys d Hok) as [_ Hnd].
  destruct (sorted_spec _ _ H Hnd) as [_ Hp].
  apply (Permutation_in _ (Permutation_sym Hp)) in Hin.
  unfold nd_items in Hin. apply in_map_iff in Hin.
  destruct Hin as ([h [k grp]] & <- & Hin). simpl.
  destruct (build_by_ns_members _ _ _ _ _ _ Ed Hin) as (_ & -> & ->).
  split; intros o Ho; apply filter_In in Ho;
    eapply in_namespace_readable; apply Ho.
Qed.

Lemma table_readable (wls svcs : list json) (t : backend_table) :
  build_svc_backends wls svcs = Ok t ->
  forall key w, In w (table_get t key) -> readable w.
Proof.
  intros Ht key w Hw.
  rewrite (build_svc_backends_spec _ _ _ Ht key), in_flat_map in Hw.
  destruct Hw as (s & _ & Hc).
  destruct (contribution_members _ _ _ _ Hc) as (_ & h & _ & Hn).
  unfold ns_key in Hn. unfold readable.
  destruct (ns w) as [n|]; [eauto | discriminate].
Qed.

Lemma backend_rel_lines_spec (t : backend_table) (svcs : list json)
      (lines : list string) :
  (forall key w, In w (table_get t key) -> readable w) ->
  for_each svcs (backend_rel_lines t) lines
  = (es <- backend_edges t svcs ;; Ok (lines ++ map render_rel es)).
Proof.
  intros Hr. exact (backend_lines_spec rel_line render_rel t svcs
                      rel_line_ok Hr lines).
Qed.

Lemma backend_arrow_lines_spec (t : backend_table) (svcs : list json)
      (low : list string) :
  (forall key w, In w (table_get t key) -> readable w) ->
  for_each svcs (backend_arrow_lines t) low
  = (es <- backend_edges t svcs ;; Ok (low ++ map render_arrow es)).
Proof.
  intros Hr. exact (backend_lines_spec backend_arrow_line render_arrow t svcs
                      backend_arrow_line_ok Hr low).
Qed.

Lemma container_view_spec (t : backend_table) (b : buckets) :
  (forall key w, In w (table_get t key) -> readable w) ->
  container_view t b
  = (gs <- namespace_groups (services b) (workloads b) ;;
     cb <- backend_edges t (services b) ;;
     cr <- resolve_routes (ingresses b) ;;
     Ok (render_container gs cb cr)).
Proof.
  intros Hr. unfold container_view, namespace_groups.
  destruct (build_by_ns (services b) (workloads b)) as [d|] eqn:Ed; simpl;
    [|reflexivity].
  destruct (sorted (nd_items d)) as [gs|] eqn:Es; simpl; [|reflexivity].
  assert (Hg : namespace_groups (services b) (workloads b) = Ok gs).
  { unfold namespace_groups. rewrite Ed. exact Es. }
  rewrite groups_lines_ok;
    [|intros kg s Hkg; apply (namespace_groups_readable _ _ _ Hg kg Hkg)
     |intros kg w Hkg; apply (namespace_groups_readable _ _ _ Hg kg Hkg)].
  simpl. rewrite (backend_rel_lines_spec t _ _ Hr).
  destruct (backend_edges t (services b)) as [cb|]; simpl; [|reflexivity].
  rewrite ingresses_rel_lines_spec.
  destruct (resolve_routes (ingresses b)) as [cr|]; simpl; [|reflexivity].
  unfold render_container. f_equal. rewrite <- !app_assoc. reflexivity.
Qed.

Lemma topology_view_spec (include_pods : bool) (t : backend_table)
      (b : buckets) :
  (forall key w, In w (table_get t key) -> readable w) ->
  topology_view include_pods t b
  = (node_lines (services b) ;;;
     node_lines (workloads b) ;;;
     (if include_pods then node_lines (pods b) else Ok tt) ;;;
     tb <- backend_edges t (services b) ;;
     own <- (if include_pods then resolve_owners (workloads b) (pods b)
             else Ok []) ;;
     tr <- resolve_routes (ingresses b) ;;
     Ok (render_topology include_pods (services b) (workloads b) (pods b)
                         (ingresses b) tb own)).
Proof.
  intros Hr. unfold topology_view.
  rewrite (node_lines_of_spec svc_node_line render_svc_node)
    by (try apply svc_node_line_ok;
        intros o e En; unfold svc_node_line; now rewrite En).
  destruct (node_lines (services b)) as [[]|]; simpl; [|reflexivity].
  rewrite (node_lines_of_spec wl_node_line render_wl_node)
    by (try apply wl_node_line_ok;
        intros o e En; unfold wl_node_line; now rewrite En).
  destruct (node_lines (workloads b)) as [[]|]; simpl; [|reflexivity].
  destruct include_pods.
  - rewrite (node_lines_of_spec pod_node_line render_pod_node)
      by (try apply pod_node_line_ok;
          intros o e En; unfold pod_node_line; now rewrite En).
    destruct (node_lines (pods b)) as [[]|]; simpl; [|reflexivity].
    rewrite (backend_arrow_lines_spec t _ _ Hr).
    destruct (backend_edges t (services b)) as [tb|]; simpl; [|reflexivity].
    rewrite pods_link_lines_spec.
    destruct (resolve_owners (workloads b) (pods b)) as [own|]; simpl;
      [|reflexivity].
    rewrite ingresses_arrow_lines_spec.
    destruct (resolve_routes (ingresses b)) as [tr|]; simpl; [|reflexivity].
    unfold render_topology. f_equal. rewrite <- !app_assoc. reflexivity.
  - simpl. rewrite (backend_arrow_lines_spec t _ _ Hr).
    destruct (backend_edges t (services b)) as [tb|]; simpl; [|reflexivity].
    rewrite ingresses_arrow_lines_spec.
    destruct (resolve_routes (ingresses b)) as [tr|]; simpl; [|reflexivity].
    unfold render_topology. f_equal. simpl. rewrite <- !app_assoc.
    reflexivity.
Qed.

(** ** The files *)

Lemma main_texts_facts (include_pods : bool) (docs : list json) :
  exists n,
    map fst (fst (main_texts include_pods docs)) = firstn n file_names /\
    snd (main_texts include_pods docs) = (main include_pods docs ;;; Ok tt) /\
    (fst (main_texts include_pods docs) = [] <->
     exists e,
       (b <- classify (normalize docs) ;;
        build_svc_backends (workloads b) (services b) ;;; Ok tt) = Raise e) /\
    ((exists g, main include_pods docs = Ok g) ->
     map fst (fst (main_texts include_pods docs)) = file_names).
Proof.
  unfold main_texts, main. cbv zeta.
  destruct (classify (normalize docs)) as [b|e] eqn:Eb; cbn [bind].
  { destruct (build_svc_backends (workloads b) (services b)) as [t|e] eqn:Et;
      cbn [bind].
    - pose proof (table_readable _ _ _ Et) as Hr.
      rewrite (container_view_spec t b Hr),
        (topology_view_spec include_pods t b Hr).
      assert (Hno : forall (l : list (string * string)) x,
                 x :: l = [] <-> exists e : exn, @Ok unit tt = Raise e).
      { intros l x. split; [discriminate | intros [e He]; discriminate]. }
      assert (Hko : forall e : exn,
                 (exists g : graph, @Raise graph e = Ok g) ->
                 forall l : list string, l = file_names).
      { intros e [g Hg]. discriminate. }
      destruct (namespace_groups (services b) (workloads b)) as [gs|e];
        cbn [bind];
        [|exists 1%nat; split; [reflexivity|]; split; [reflexivity|];
          split; [apply Hno | intros Hg; exact (Hko _ Hg _)]].
      destruct (backend_edges t (services b)) as [cb|e]; cbn [bind];
        [|exists 1%nat; split; [reflexivity|]; split; [reflexivity|];
          split; [apply Hno | intros Hg; exact (Hko _ Hg _)]].
      destruct (resolve_routes (ingresses b)) as [cr|e]; cbn [bind];
        [|exists 1%nat; split; [reflexivity|]; split; [reflexivity|];
          split; [apply Hno | intros Hg; exact (Hko _ Hg _)]].
      destruct (node_lines (services b)) as [[]|e]; cbn [bind];
        [|exists 2%nat; split; [reflexivity|]; split; [reflexivity|];
          split; [apply Hno | intros Hg; exact (Hko _ Hg _)]].
      destruct (node_lines (workloads b)) as [[]|e]; cbn [bind];
        [|exists 2%nat; split; [reflexivity|]; split; [reflexivity|];
          split; [apply Hno | intros Hg; exact (Hko _ Hg _)]].
      destruct (if include_pods then node_lines (pods b) else Ok tt)
        as [[]|e]; cbn [bind];
        [|exists 2%nat; split; [reflexivity|]; split; [reflexivity|];
          split; [apply Hno | intros Hg; exact (Hko _ Hg _)]].
      destruct (if include_pods then resolve_owners (workloads b) (pods b)
                else Ok []) as [own|e]; cbn [bind];
        [|exists 2%nat; split; [reflexivity|]; split; [reflexivity|];
          split; [apply Hno | intros Hg; exact (Hko _ Hg _)]].
      exists 3%nat. split; [reflexivity|]. split; [reflexivity|].
      split; [apply Hno | reflexivity].
    - exists 0%nat. repeat split.
      + intros _. now exists e.
      + intros [g Hg]. discriminate. }
  exists 0%nat. repeat split.
  - intros _. now exists e.
  - intros [g Hg]. discriminate.
Qed.

Lemma main_files_written (encodes : string -> bool) (include_pods : bool)
      (docs : list json) :
  main_files encodes include_pods docs
  = (fst (written encodes (fst (main_texts include_pods docs))),
     ending_of (snd (written encodes (fst (main_texts include_pods docs))))
               (snd (main_texts include_pods docs))).
Proof.
  unfold main_files, main_texts.
  destruct (b <- classify (normalize docs) ;;
            t <- build_svc_backends (workloads b) (services b) ;;
            Ok (b, t)) as [[b t]|e]; [|reflexivity].
  destruct (container_view t b) as [lines|e]; cbn [fst snd written app];
    [|destruct (encodes c4_ctx); reflexivity].
  destruct (topology_view include_pods t b) as [low|e];
    cbn [fst snd written app];
    destruct (encodes c4_ctx); try reflexivity;
    destruct (encodes (join_lines lines)); try reflexivity;
    destruct (encodes (join_lines low)); reflexivity.
Qed.

Lemma written_names (encodes : string -> bool)
      (texts : list (string * string)) :
  exists k, map fst (fst (written encodes texts)) = firstn k (map fst texts).
Proof.
  induction texts as [|[name text] rest [k IH]]; simpl.
  - exists 0%nat. reflexivity.
  - destruct (encodes text); simpl.
    + exists (S k). simpl. now rewrite IH.
    + exists 1%nat. reflexivity.
Qed.

Lemma written_nil (encodes : string -> bool)
      (texts : list (string * string)) :
  fst (written encodes texts) = [] <-> texts = [].
Proof.
  destruct texts as [|[name text] rest]; simpl; [tauto|].
  destruct (encodes text); simpl; split; discriminate.
Qed.

Lemma written_all (encodes : string -> bool)
      (texts : list (string * string)) :
  (forall f, In f texts -> encodes (snd f) = true) <->
  snd (written encodes texts) = true.
Proof.
  induction texts as [|[name text] rest IH]; simpl.
  - split; [reflexivity | intros _ f []].
  - destruct (encodes text) eqn:E; simpl.
    + rewrite <- IH. split.
      * intros H f Hf. apply H. now right.
      * intros H f [<-|Hf]; [exact E | now apply H].
    + split; [|discriminate]. intros H.
      specialize (H (name, text) (or_introl eq_refl)). simpl in H. congruence.
Qed.

Lemma written_same (encodes : string -> bool)
      (texts : list (string * string)) :
  snd (written encodes texts) = true -> fst (written encodes texts) = texts.
Proof.
  induction texts as [|[name text] rest IH]; simpl; [reflexivity|].
  destruct (encodes text); simpl; [|discriminate].
  intros H. now rewrite IH.
Qed.

Lemma written_in (encodes : string -> bool)
      (texts : list (string * string)) (name text : string) :
  In (name, text) (fst (written encodes texts)) ->
  In (name, text) texts \/
  (text = "" /\ snd (written encodes texts) = false).
Proof.
  induction texts as [|[name' text'] rest IH]; simpl; [intros []|].
  destruct (encodes text'); simpl.
  - intros [H|H]; [now left; left|].
    destruct (IH H) as [H1|H1]; [left; now right | now right].
  - intros [H|[]]. inversion H. now right.
Qed.

Lemma topology_view_header (include_pods : bool) (t : backend_table)
      (b : buckets) (low : list string) :
  (forall key w, In w (table_get t key) -> readable w) ->
  topology_view include_pods t b = Ok low ->
  exists rest, low = topology_header ++ rest.
Proof.
  intros Hr H. rewrite (topology_view_spec include_pods t b Hr) in H.
  unbind H as u1 E1. unbind H as u2 E2. unbind H as u3 E3.
  unbind H as tb Etb. unbind H as own Eown. unbind H as tr Etr.
  inversion H. unfold render_topology. eexists. reflexivity.
Qed.

Lemma topology_text_holds_arrow (rest : list string) :
  exists p r,
    join_lines (topology_header ++ rest) = (p ++ title_arrow ++ r)%string.
Proof.
  exists ("@startuml" ++ nl ++ "title Kubernetes Topology - Services ")%string.
  eexists. unfold join_lines, topology_header. simpl. reflexivity.
Qed.

(** ** The statements of the specification *)

Lemma no_member_nil {A} (l : list A) : (forall x, ~ In x l) -> l = [].
Proof.
  destruct l as [|a l]; [reflexivity|].
  intros H. exfalso. apply (H a). now left.
Qed.

(** C1, as amended.  For a Service [s] with a non-empty (truthy) selector
    whose key no other loaded Service shares, and a Workload [w] of the same
    namespace: [w] is among the backends of [s] if and only if every pair
    [(k, v)] of the selector satisfies [labels(w).get(k) == v].  Extra labels
    of the Workload are ignored, so the relation is not symmetric: labels
    [{app: x, tier: y}] satisfy the selector [{app: x}] but not the selector
    [{app: x, tier: z}] when [y <> z]. *)
Theorem backends_subset_matching
        (wls svcs : list json) (t : backend_table) (s w sel : json) :
  build_svc_backends wls svcs = Ok t ->
  In s svcs -> In w wls ->
  svc_selector s = Ok sel -> truthy sel = true ->
  key_unique svcs s ->
  same_namespace s w ->
  (exists bs, backends_of t s = Ok bs /\
              (In w bs <-> selector_satisfied sel w)) /\
  (forall x y z : string,
      y <> z ->
      labels_match (strs [("app", x); ("tier", y)]) (strs [("app", x)])
      = Ok true /\
      labels_match (strs [("app", x); ("tier", y)])
                   (strs [("app", x); ("tier", z)])
      = Ok false).
Proof.
  intros Hr Hs Hw Hsel Ht Hu (h & Hns & Hnw). split.
  - destruct (ns_key_obj_key _ _ Hns) as [key Hk].
    exists (table_get t key). unfold backends_of. rewrite Hk. simpl.
    split; [reflexivity|].
    rewrite (backends_unique_key _ _ _ _ _ _ _ Hr Hs Hu Hsel Ht Hns Hk w).
    rewrite <- hits_iff. unfold in_namespace. rewrite Hnw, hkey_eqb_refl.
    tauto.
  - intros x y z Hyz. unfold labels_match. simpl.
    rewrite String.eqb_refl. simpl. split; [reflexivity|].
    apply String.eqb_neq in Hyz. now rewrite Hyz.
Qed.

(** C5, as amended.  A Service whose selector is empty, null or absent, and
    whose key no other loaded Service shares, has no backends and gets no
    Service -> Workload edge, whatever Workloads are loaded. *)
Theorem empty_selector_no_backends
        (wls svcs : list json) (t : backend_table) (s sel : json)
        (key : string) :
  build_svc_backends wls svcs = Ok t ->
  In s svcs ->
  svc_selector s = Ok sel -> truthy sel = false ->
  key_unique svcs s ->
  obj_key s = Ok key ->
  backends_of t s = Ok [] /\
  forall es, backend_edges t svcs = Ok es ->
             forall e, In e es -> be_service e <> s.
Proof.
  intros Hr Hs Hsel Ht Hu Hk.
  assert (E : table_get t key = []).
  { apply no_member_nil. intros w Hw.
    rewrite (build_svc_backends_spec _ _ _ Hr key), in_flat_map in Hw.
    destruct Hw as (s' & Hs' & Hin).
    destruct (contribution_in _ _ _ _ Hin) as (Hk' & _).
    assert (s' = s) by (apply Hu; congruence). subst s'.
    now rewrite (contribution_falsy _ _ _ _ Hsel Ht) in Hin. }
  split.
  - unfold backends_of. rewrite Hk. simpl. now rewrite E.
  - intros es He e Hin Heq.
    destruct (backend_edges_spec _ _ _ He e Hin) as (_ & key' & Hk' & Hw).
    rewrite Heq, Hk in Hk'. inversion Hk'; subst key'.
    now rewrite E in Hw.
Qed.

Lemma routes_of_emit (ing : json) : routes_of ing = ingress_emit ing.
Proof.
  unfold routes_of. rewrite ingress_routes_emit.
  destruct (ingress_emit ing); reflexivity.
Qed.


(** C3.  For a readable Pod and readable Workloads, the pass links the Pod
    to one Workload per pair (owner reference, Workload) such that the
    Workload has the namespace of the Pod and the kind and the name of the
    reference, references in order and Workloads in load order.  A Pod with
    no owner reference, or whose references name no loaded Workload, gets no
    edge; a reference to an unloaded ReplicaSet is not followed further.
    The run makes this pass when Pods are included. *)
Theorem pod_ownership_per_match
        (wls : list json) (p : json) (owners : list json) :
  readable p ->
  (forall w, In w wls -> readable w) ->
  owner_refs p = Ok owners ->
  (forall oref, In oref owners -> exists kv, oref = JDict kv) ->
  pod_links wls [] p
  = Ok (flat_map
          (fun oref =>
             map (fun w => OwnerEdge w p) (filter (owner_matchb p oref) wls))
          owners) /\
  (forall oref w, owner_matchb p oref w = true <-> owner_matches p oref w) /\
  (owners = [] -> pod_links wls [] p = Ok []) /\
  ((forall oref w, In oref owners -> In w wls -> ~ owner_matches p oref w) ->
   pod_links wls [] p = Ok []) /\
  (forall pds,
      resolve_owners wls pds = emit_all (fun q => pod_links wls [] q) pds) /\
  (forall flag docs g,
      main flag docs = Ok g ->
      if flag
      then resolve_owners (filter is_workload (normalize docs))
                          (filter (kind_is "Pod") (normalize docs))
           = Ok (g_owners g)
      else g_owners g = []) /\
  (exists g,
      main true [deploy_frontend; rs_frontend; pod_frontend] = Ok g /\
      g_owners g = []).
Proof.
  intros Hp Hw Ho Hd.
  assert (E : pod_links wls [] p
              = Ok (flat_map
                      (fun oref =>
                         map (fun w => OwnerEdge w p)
                             (filter (owner_matchb p oref) wls))
                      owners)).
  { rewrite pod_links_emit, (pod_emit_explicit _ _ _ Hp Hw Ho Hd).
    reflexivity. }
  split; [exact E|]. split; [intros; apply owner_matchb_iff|].
  split; [intros ->; now rewrite E|]. split.
  { intros Hno. rewrite E. f_equal. apply no_member_nil.
    intros e He. apply in_flat_map in He. destruct He as (oref & Hin & He).
    apply in_map_iff in He. destruct He as (w & _ & Hf).
    apply filter_In in Hf. destruct Hf as [Hwin Hm].
    apply owner_matchb_iff in Hm. exact (Hno oref w Hin Hwin Hm). }
  split.
  { intros pds. rewrite resolve_owners_emit. apply emit_all_ext.
    intros q. rewrite pod_links_emit. destruct (pod_emit wls q); reflexivity. }
  split.
  { intros flag docs g Hg.
    destruct (main_ok _ _ _ Hg) as (b & t & Hb & _ & _ & _ & _ & _ & _ & Hown).
    destruct (classify_spec _ _ Hb) as (Hwl & _ & _ & Hpd & _).
    now rewrite <- Hwl, <- Hpd. }
  eexists. split; [vm_compute; reflexivity | reflexivity].
Qed.

(** C4, as amended.  The Workloads returned for a Pod are one per matching
    pair (owner reference, Workload), so there may be several.  There is at
    most one when the Pod lists at most one owner reference and the loaded
    Workloads have pairwise distinct string identities (namespace, kind,
    name). *)
Theorem owner_workloads_per_match
        (wls : list json) (p : json) (owners : list json) :
  readable p ->
  (forall w, In w wls -> str_ident w <> None) ->
  owner_refs p = Ok owners ->
  (forall oref, In oref owners -> exists kv, oref = JDict kv) ->
  owner_workloads_of wls p
  = Ok (flat_map (fun oref => filter (owner_matchb p oref) wls) owners) /\
  (NoDup (map str_ident wls) ->
   (List.length owners <= 1)%nat ->
   exists ws, owner_workloads_of wls p = Ok ws /\ (List.length ws <= 1)%nat).
Proof.
  intros Hp Hid Ho Hd.
  assert (Hw : forall w, In w wls -> readable w).
  { intros w Hin. specialize (Hid w Hin). unfold str_ident in Hid.
    destruct (ns w) as [n|] eqn:En; [now exists n | congruence]. }
  assert (E : owner_workloads_of wls p
              = Ok (flat_map (fun oref => filter (owner_matchb p oref) wls)
                             owners)).
  { unfold owner_workloads_of.
    rewrite pod_links_emit, (pod_emit_explicit _ _ _ Hp Hw Ho Hd). simpl.
    f_equal. clear. induction owners as [|oref owners IH]; simpl;
      [reflexivity|].
    rewrite map_app, IH, map_map. simpl. now rewrite map_id. }
  split; [exact E|]. intros Hnd Hlen. eexists. split; [exact E|].
  destruct owners as [|oref [|oref' owners]]; simpl in *; [lia | | lia].
  rewrite app_nil_r. apply (filter_at_most_one str_ident); [assumption|].
  intros x y Hx Hy Px Py. apply owner_matchb_iff in Px, Py.
  apply (owner_match_ident p oref); auto.
Qed.

(** C6, as amended.  The key of a resource is the string
    [namespace:kind:name], but resources with identical keys are neither
    merged nor replaced: every loaded document of a recognised kind stays in
    its role bucket, in load order, and each copy of a Workload is matched
    on its own labels by a Service that has a key of its own. *)
Theorem identical_keys_are_all_kept (objs : list json) (b : buckets) :
  classify objs = Ok b ->
  (workloads b = filter is_workload objs /\
   services b = filter (kind_is "Service") objs /\
   ingresses b = filter (kind_is "Ingress") objs /\
   pods b = filter (kind_is "Pod") objs /\
   endpoints b = filter is_endpoint objs) /\
  (forall o n k nm,
      ns o = Ok n -> kind o = Ok k -> name o = Ok nm ->
      obj_key o = Ok (str n ++ ":" ++ str k ++ ":" ++ str nm)%string) /\
  (forall t s sel h key,
      build_svc_backends (workloads b) (services b) = Ok t ->
      In s (services b) -> key_unique (services b) s ->
      svc_selector s = Ok sel -> truthy sel = true ->
      ns_key s = Some h -> obj_key s = Ok key ->
      forall w, In w (table_get t key)
                <-> In w objs /\ is_workload w = true /\
                    in_namespace h w = true /\ hits sel w = true).
Proof.
  intros Hb. pose proof (classify_spec _ _ Hb) as Hc.
  split; [exact Hc|]. split.
  - intros o n k nm Hn Hk Hnm. unfold obj_key. now rewrite Hn, Hk, Hnm.
  - intros t s sel h key Hr Hs Hu Hsel Ht Hn Hk w.
    rewrite (backends_unique_key _ _ _ _ _ _ _ Hr Hs Hu Hsel Ht Hn Hk w).
    destruct Hc as (-> & _). rewrite filter_In. tauto.
Qed.

(** C7, as amended.  The accessors answer in load order, not in key order:
    the backends under a key are the matching Workloads of each Service
    filed under it, Services and Workloads both in load order; the routes of
    an Ingress follow its rules, and under each rule its paths; the owners
    of a Pod follow its owner references, and under each reference the load
    order of the Workloads; the routes and the owner edges of a run follow
    the load order of the Ingresses and of the Pods.  Only the namespace
    groups are sorted: their keys are strictly ascending, hence distinct. *)
Theorem accessors_in_load_order
        (wls svcs : list json) (t : backend_table)
        (gs : list (json * group)) :
  build_svc_backends wls svcs = Ok t ->
  namespace_groups svcs wls = Ok gs ->
  (forall s key,
      obj_key s = Ok key ->
      backends_of t s = Ok (flat_map (contribution wls key) svcs)) /\
  StronglySorted key_lt gs /\
  (forall ings, resolve_routes ings = emit_all routes_of ings) /\
  (forall pds,
      resolve_owners wls pds = emit_all (fun q => pod_links wls [] q) pds) /\
  (forall ing n rs pss nms,
      ns ing = Ok n ->
      ingress_rules ing = Ok rs ->
      Forall2 (fun r ps => rule_paths r = Ok ps) rs pss ->
      Forall2 (fun p nm => path_service_name p = Ok nm)
              (List.concat pss) nms ->
      routes_of ing
      = Ok (map (fun nm => RouteEdge ing nm n) (filter truthy nms))) /\
  (forall ings ess,
      Forall2 (fun ing es => routes_of ing = Ok es) ings ess ->
      resolve_routes ings = Ok (List.concat ess)) /\
  (forall p owners,
      readable p ->
      owner_refs p = Ok owners ->
      (forall oref, In oref owners -> exists kv, oref = JDict kv) ->
      owner_workloads_of wls p
      = Ok (flat_map (fun oref => filter (owner_matchb p oref) wls) owners) /\
      pod_links wls [] p
      = Ok (flat_map
              (fun oref =>
                 map (fun w => OwnerEdge w p)
                     (filter (owner_matchb p oref) wls))
              owners)) /\
  (forall pds ess,
      Forall2 (fun p es => pod_links wls [] p = Ok es) pds ess ->
      resolve_owners wls pds = Ok (List.concat ess)).
Proof.
  intros Hr Hg.
  pose proof (build_svc_backends_readable _ _ _ Hr) as Hw.
  assert (Hroutes : forall ings,
             resolve_routes ings = emit_all routes_of ings).
  { intros ings. rewrite resolve_routes_emit.
    apply emit_all_ext. intros x. now rewrite routes_of_emit. }
  assert (Howners : forall pds,
             resolve_owners wls pds
             = emit_all (fun q => pod_links wls [] q) pds).
  { intros pds. rewrite resolve_owners_emit. apply emit_all_ext.
    intros q. rewrite pod_links_emit.
    destruct (pod_emit wls q); reflexivity. }
  split; [|split; [|split; [|split; [|split; [|split; [|split]]]]]].
  - intros s key Hk. unfold backends_of. rewrite Hk. simpl.
    now rewrite (build_svc_backends_spec _ _ _ Hr key).
  - apply (namespace_groups_spec _ _ _ Hg).
  - exact Hroutes.
  - exact Howners.
  - intros ing n rs pss nms Hn Hrs Hp Hnm.
    rewrite routes_of_emit. unfold ingress_emit. rewrite Hn, Hrs. simpl.
    apply (rules_emit_names _ _ _ _ Hp _ Hnm).
  - intros ings ess HF. rewrite Hroutes. now apply emit_all_concat.
  - intros p owners Hp Ho Hd. split.
    + now apply owner_workloads_explicit.
    + rewrite pod_links_emit, (pod_emit_explicit _ _ _ Hp Hw Ho Hd).
      reflexivity.
  - intros pds ess HF. rewrite Howners. now apply emit_all_concat.
Qed.

(** C8.  Two runs over the same documents end the same way: with the same
    groups and the same edges in the same order, or with the same
    exception.  Within one run, the passes that are made twice (the backend
    edges and the Ingress routes, once for the container view and once for
    the topology view) give the same edges in the same order both times. *)
Theorem resolution_deterministic
        (include_pods : bool) (docs : list json) (r1 r2 : result graph) :
  main include_pods docs = r1 ->
  main include_pods docs = r2 ->
  r1 = r2 /\
  forall g, r1 = Ok g ->
            g_container_backends g = g_backends g /\
            g_container_routes g = g_routes g.
Proof.
  intros H1 H2. split.
  - rewrite <- H1, <- H2. reflexivity.
  - intros g Hg. rewrite Hg in H1.
    destruct (main_ok _ _ _ H1) as (b & t & _ & _ & _ & _ & Hb & _ & Hr & _).
    split; assumption.
Qed.

(** C9 fails on an Ingress whose [spec.rules] is null: the loop of line 148
    iterates [None]. *)
Theorem null_rules_raise (include_pods : bool) :
  main include_pods [ingress_null_rules] = Raise TypeError.
Proof.
  destruct include_pods; vm_compute; reflexivity.
Qed.

(** C10.  The namespace groups of a run are exactly the namespaces of its
    Service and Workload documents: a namespace that only holds Pods,
    Ingresses or Endpoints has no group. *)
Theorem groups_hold_services_or_workloads
        (include_pods : bool) (docs : list json) (g : graph) :
  main include_pods docs = Ok g ->
  forall h,
    (exists k grp, In (k, grp) (g_groups g) /\ hash k = Ok h) <->
    (exists o, In o (normalize docs) /\
               (kind_is "Service" o = true \/ is_workload o = true) /\
               ns_key o = Some h).
Proof.
  intros Hg h.
  destruct (main_ok _ _ _ Hg) as (b & t & Hb & _ & Hgr & _).
  destruct (classify_spec _ _ Hb) as (Hw & Hs & _).
  destruct (namespace_groups_spec _ _ _ Hgr) as [_ Hkeys].
  rewrite Hkeys, Hw, Hs. split.
  - intros (o & Hin & Hn). exists o. apply in_app_or in Hin.
    destruct Hin as [Hin|Hin]; apply filter_In in Hin; tauto.
  - intros (o & Hin & [Hk|Hk] & Hn); exists o;
      (split; [apply in_or_app; rewrite !filter_In; tauto | assumption]).
Qed.

(** ** Further statements: loading *)

(** X1.  Every object that [load_objects] returns is a dict with a [kind]
    and a [metadata] key, so the classification of lines 76-87 reads the
    kind of each loaded object and never raises. *)
Theorem loaded_objects_are_classified (a : sources) (objs : list json) :
  load_objects a = Ok objs ->
  (forall o, In o objs ->
             exists kv k m,
               o = JDict kv /\ assoc "kind" kv = Some k /\
               assoc "metadata" kv = Some m /\ kind o = Ok k) /\
  exists b, classify objs = Ok b.
Proof.
  unfold load_objects. intros H. unbind H as docs Ed.
  inversion H; subst objs. split.
  - intros o Hin. destruct (normalize_in _ _ Hin) as (kv & k & m & -> & Hk & Hm).
    exists kv, k, m. repeat split; try assumption.
    unfold kind. simpl. now rewrite Hk.
  - apply classify_total. intros o Hin.
    destruct (normalize_in _ _ Hin) as (kv & _ & _ & -> & _). eauto.
Qed.

(** X2.  A JSON list document with a non-empty [items] list loads exactly
    like a YAML stream made of its items. *)
Theorem json_list_loads_like_yaml (kv : list (string * json)) (l : list json) :
  assoc "items" kv = Some (JList l) ->
  l <> [] ->
  load_objects (Sources (Some (JDict kv)) None None)
  = load_objects (Sources None (Some l) None).
Proof.
  intros Hi Hl. unfold load_objects, read_objects, read_json. simpl.
  rewrite Hi. destruct l as [|x l]; [congruence|]. simpl.
  rewrite !app_nil_r. f_equal. symmetry.
  apply (normalize_read_yaml (x :: l)).
Qed.

(** X3.  The test [if doc:] of the YAML readers changes nothing: a YAML
    stream loads as the normalization of all its documents, and a
    directory loads as one stream made of its files, end to end. *)
Theorem yaml_and_dir_load (docs : list json) (files : list (list json)) :
  load_objects (Sources None (Some docs) None) = Ok (normalize docs) /\
  load_objects (Sources None None (Some files))
  = Ok (normalize (List.concat files)).
Proof.
  unfold load_objects, read_objects. simpl. split.
  - now rewrite app_nil_r, normalize_read_yaml.
  - now rewrite normalize_flat_read_yaml.
Qed.

(** X4.  Loading is idempotent: what [load_objects] returned, fed back as a
    YAML stream, is returned unchanged. *)
Theorem load_objects_idempotent (a : sources) (objs : list json) :
  load_objects a = Ok objs ->
  load_objects (Sources None (Some objs) None) = Ok objs.
Proof.
  unfold load_objects at 1. intros H. unbind H as docs Ed.
  inversion H; subst objs.
  unfold load_objects, read_objects. simpl.
  now rewrite app_nil_r, normalize_read_yaml, normalize_idem.
Qed.

(** ** Further statements: selectors *)

(** X5.  On a selector that is a dict without a [matchLabels] key (the
    layout of a Service), [selector_map] returns what [svc_selector]
    returns. *)
Theorem selector_map_agrees_with_svc_selector
        (o : json) (kv : list (string * json)) :
  svc_selector o = Ok (JDict kv) ->
  assoc "matchLabels" kv = None ->
  selector_map o = Ok (JDict kv).
Proof.
  unfold svc_selector, selector_map. intros H Hml.
  unbind H as sp Es. unbind H as sel El. rewrite Es. simpl. rewrite El. simpl.
  unfold or_else in H. destruct (truthy sel) eqn:Et.
  - inversion H; subst sel. simpl. rewrite Hml. simpl.
    unfold or_else. now rewrite Et.
  - inversion H; subst kv. destruct sel as [| | | | | |kv']; try reflexivity.
    destruct kv'; [reflexivity | discriminate].
Qed.

(** X6.  [selector_map] raises nothing where [svc_selector] raises
    nothing, and it returns a dict, except when [matchLabels] holds a
    truthy value that is not a dict, which it returns as it is. *)
Theorem selector_map_total (o v : json) :
  svc_selector o = Ok v ->
  exists v',
    selector_map o = Ok v' /\
    (is_dict v' = true \/
     exists sp kv,
       get o "spec" empty_dict = Ok sp /\
       get sp "selector" empty_dict = Ok (JDict kv) /\
       assoc "matchLabels" kv = Some v' /\ truthy v' = true).
Proof.
  unfold svc_selector, selector_map. intros H.
  unbind H as sp Es. unbind H as sel El. rewrite Es. simpl. rewrite El. simpl.
  destruct sel as [| | | | | |kv]; try (eexists; split; [reflexivity|now left]).
  simpl. destruct (assoc "matchLabels" kv) as [ml|] eqn:Eml.
  - unfold or_else. destruct (truthy ml) eqn:Et.
    + exists ml. split; [reflexivity|].
      destruct (is_dict ml) eqn:Ed; [now left|]. right. exists sp, kv. auto.
    + eexists. split; [reflexivity | now left].
  - unfold or_else. destruct (truthy (JDict kv));
      eexists; (split; [reflexivity | now left]).
Qed.

(** ** Further statements: keys *)

(** X7.  On objects whose namespace and kind are strings without a colon,
    and whose name is a string, [obj_key] is injective: equal keys mean
    equal namespace, kind and name. *)
Theorem obj_key_injective (a b : json) (na ka ma nb kb mb : string) :
  ns a = Ok (JStr na) -> kind a = Ok (JStr ka) -> name a = Ok (JStr ma) ->
  ns b = Ok (JStr nb) -> kind b = Ok (JStr kb) -> name b = Ok (JStr mb) ->
  has_char ":" na = false -> has_char ":" ka = false ->
  has_char ":" nb = false -> has_char ":" kb = false ->
  obj_key a = obj_key b ->
  na = nb /\ ka = kb /\ ma = mb.
Proof.
  intros Hna Hka Hma Hnb Hkb Hmb Cna Cka Cnb Ckb H.
  unfold obj_key in H. rewrite Hna, Hka, Hma, Hnb, Hkb, Hmb in H.
  simpl in H. inversion H as [H1].
  apply append_sep_inj in H1; [|assumption|assumption].
  destruct H1 as [-> H2].
  apply append_sep_inj in H2; [|assumption|assumption].
  destruct H2 as [-> ->]. auto.
Qed.

(** ** Further statements: matching *)

(** X8.  [wl_labels.get(k)] is [None] for a label that is absent, so a
    selector pair [(k, v)] is satisfied by a Workload without the label [k]
    exactly when [v] is null: a null value drops out of the test, any other
    value makes it fail. *)
Theorem absent_label_matches_null
        (lbl kvs : list (string * json)) (k : string) (v : json) :
  assoc k lbl = None ->
  (v = JNull ->
   labels_match (JDict lbl) (JDict ((k, v) :: kvs))
   = labels_match (JDict lbl) (JDict kvs)) /\
  (v <> JNull ->
   labels_match (JDict lbl) (JDict ((k, v) :: kvs)) = Ok false).
Proof.
  intros Ha. unfold labels_match. simpl. rewrite Ha. split.
  - intros ->. reflexivity.
  - intros Hv. destruct v; simpl; try reflexivity. congruence.
Qed.

(** X9.  A Service with a key of its own only gets backends of its own
    namespace. *)
Theorem backends_stay_in_namespace
        (include_pods : bool) (docs : list json) (g : graph)
        (e : backend_edge) :
  main include_pods docs = Ok g ->
  In e (g_backends g) ->
  key_unique (filter (kind_is "Service") (normalize docs)) (be_service e) ->
  same_namespace (be_service e) (be_workload e).
Proof.
  intros Hg He Hu.
  destruct (main_ok _ _ _ Hg) as (b & t & Hb & Ht & _ & Hbe & _).
  destruct (classify_spec _ _ Hb) as (_ & Hs & _). rewrite <- Hs in Hu.
  destruct (backend_edges_spec _ _ _ Hbe e He) as (Hin & key & Hk & Hw).
  rewrite (build_svc_backends_spec _ _ _ Ht key), in_flat_map in Hw.
  destruct Hw as (s' & Hs' & Hc).
  destruct (contribution_in _ _ _ _ Hc) as (Hk' & _).
  assert (s' = be_service e) by (apply Hu; congruence). subst s'.
  destruct (contribution_members _ _ _ _ Hc) as (_ & h & Hns & Hnw).
  exists h. auto.
Qed.

(** X10.  The edges of a run only join loaded objects of the right roles:
    a backend edge joins a loaded Service and a loaded Workload, an owner
    edge a loaded Workload and a loaded Pod, and a route edge leaves a
    loaded Ingress. *)
Theorem edges_join_loaded_objects
        (include_pods : bool) (docs : list json) (g : graph) :
  main include_pods docs = Ok g ->
  (forall e, In e (g_backends g) ->
             In (be_service e) (normalize docs) /\
             kind_is "Service" (be_service e) = true /\
             In (be_workload e) (normalize docs) /\
             is_workload (be_workload e) = true) /\
  (forall e, In e (g_owners g) ->
             In (oe_workload e) (normalize docs) /\
             is_workload (oe_workload e) = true /\
             In (oe_pod e) (normalize docs) /\
             kind_is "Pod" (oe_pod e) = true) /\
  (forall e, In e (g_routes g) ->
             In (re_ingress e) (normalize docs) /\
             kind_is "Ingress" (re_ingress e) = true).
Proof.
  intros Hg.
  destruct (main_ok _ _ _ Hg)
    as (b & t & Hb & Ht & _ & Hbe & _ & Hrt & _ & Hown).
  destruct (classify_spec _ _ Hb) as (Hw & Hs & Hi & Hp & _).
  split; [|split].
  - intros e He.
    destruct (backend_edges_spec _ _ _ Hbe e He) as (Hin & key & Hk & Hwk).
    rewrite Hs in Hin. apply filter_In in Hin.
    rewrite (build_svc_backends_spec _ _ _ Ht key), in_flat_map in Hwk.
    destruct Hwk as (s' & _ & Hc).
    destruct (contribution_members _ _ _ _ Hc) as (Hwin & _).
    rewrite Hw in Hwin. apply filter_In in Hwin. tauto.
  - intros e He. destruct include_pods.
    + destruct (owner_edges_ends _ _ _ Hown e He) as [H1 H2].
      rewrite Hw in H1. rewrite Hp in H2.
      apply filter_In in H1. apply filter_In in H2. tauto.
    + rewrite Hown in He. destruct He.
  - intros e He. pose proof (route_edges_ingress _ _ Hrt e He) as H1.
    rewrite Hi in H1. apply filter_In in H1. exact H1.
Qed.

(** X11.  Documents of other kinds never matter: leaving out every
    document that is not a Workload, a Service, an Ingress or a Pod
    (Endpoints and EndpointSlices included) gives the same run. *)
Theorem other_kinds_do_not_matter (include_pods : bool) (docs : list json) :
  main include_pods (filter recognised docs) = main include_pods docs.
Proof.
  assert (Hn : normalize (filter recognised docs)
               = filter recognised (normalize docs)).
  { unfold normalize. rewrite !filter_filter. apply filter_ext.
    intros o. apply andb_comm. }
  unfold main. cbv zeta. rewrite Hn.
  assert (Hd : forall o, In o (normalize docs) -> exists kv, o = JDict kv).
  { intros o Hin. destruct (normalize_in _ _ Hin) as (kv & _ & _ & -> & _).
    eauto. }
  destruct (classify_total (normalize docs) Hd) as [b Hb].
  destruct (classify_total (filter recognised (normalize docs))) as [b' Hb'].
  { intros o Hin. apply filter_In in Hin. apply Hd, Hin. }
  rewrite Hb, Hb'. simpl.
  destruct (classify_spec _ _ Hb) as (Hw & Hs & Hi & Hp & _).
  destruct (classify_spec _ _ Hb') as (Hw' & Hs' & Hi' & Hp' & _).
  assert (Ew : workloads b' = workloads b).
  { rewrite Hw, Hw', filter_filter. apply filter_ext. intros o.
    unfold recognised.
    destruct (is_workload o), (kind_is "Service" o), (kind_is "Ingress" o),
      (kind_is "Pod" o); reflexivity. }
  assert (Es : services b' = services b).
  { rewrite Hs, Hs', filter_filter. apply filter_ext. intros o.
    unfold recognised.
    destruct (is_workload o), (kind_is "Service" o), (kind_is "Ingress" o),
      (kind_is "Pod" o); reflexivity. }
  assert (Ei : ingresses b' = ingresses b).
  { rewrite Hi, Hi', filter_filter. apply filter_ext. intros o.
    unfold recognised.
    destruct (is_workload o), (kind_is "Service" o), (kind_is "Ingress" o),
      (kind_is "Pod" o); reflexivity. }
  assert (Ep : pods b' = pods b).
  { rewrite Hp, Hp', filter_filter. apply filter_ext. intros o.
    unfold recognised.
    destruct (is_workload o), (kind_is "Service" o), (kind_is "Ingress" o),
      (kind_is "Pod" o); reflexivity. }
  now rewrite Ew, Es, Ei, Ep.
Qed.

(** ** Further statements: the namespace groups *)

(** X12.  The groups partition the Services and the Workloads by
    namespace: the group of a namespace holds exactly the Services and the
    Workloads of that namespace, each in load order. *)
Theorem groups_partition
        (svcs wls : list json) (gs : list (json * group))
        (k : json) (grp : group) :
  namespace_groups svcs wls = Ok gs ->
  In (k, grp) gs ->
  exists h,
    hash k = Ok h /\
    grp_services grp = filter (in_namespace h) svcs /\
    grp_workloads grp = filter (in_namespace h) wls.
Proof.
  unfold namespace_groups. intros H Hin. unbind H as d Ed.
  destruct (build_by_ns_spec _ _ _ Ed) as [Hok _].
  destruct (nsdict_items_keys d Hok) as [_ Hnd].
  destruct (sorted_spec _ _ H Hnd) as [_ Hp].
  apply (Permutation_in _ (Permutation_sym Hp)) in Hin.
  unfold nd_items in Hin. apply in_map_iff in Hin.
  destruct Hin as ([h [k' grp']] & Heq & Hin). simpl in Heq.
  inversion Heq; subst k' grp'.
  exists h. exact (build_by_ns_members _ _ _ _ _ _ Ed Hin).
Qed.

(** X13.  When the run gets as far as two or more groups, none of their
    namespaces is null and no string namespace sits beside a numeric one:
    [sorted] compares every key with another one, and raises on [None] and
    on a string against a number. *)
Theorem group_keys_never_mix
        (svcs wls : list json) (gs : list (json * group)) :
  namespace_groups svcs wls = Ok gs ->
  (2 <= List.length gs)%nat ->
  (forall k grp, In (k, grp) gs -> k <> JNull) /\
  (forall k k' grp grp',
      In (k, grp) gs -> In (k', grp') gs ->
      is_str k = true -> is_num k' = true -> False).
Proof.
  intros H Hlen. destruct (namespace_groups_spec _ _ _ H) as [Hs _].
  destruct gs as [|[ka ga] [|[kb gb] r]]; simpl in Hlen; try lia.
  inversion Hs as [|? ? _ Hall]; subst.
  rewrite Forall_forall in Hall.
  set (P := fun k : json => exists x, hash k = Ok (HStr x)).
  set (N := fun k : json =>
              exists h p, hash k = Ok h /\ key_num h = Some p).
  assert (Hlt : forall a b, py_lt a b = Ok true ->
                            (P a /\ P b) \/ (N a /\ N b)).
  { intros a b Hab.
    destruct (py_lt_cases _ _ _ Hab) as
        [(x & y & Ha & Hb & _)|(ha & hb & p & q & Ha & Hb & Kp & Kq & _)].
    - left. split; eexists; eassumption.
    - right. split; do 2 eexists; split; eassumption. }
  assert (Hex : forall k, P k -> N k -> False).
  { intros k [x Hx] (h & p & Hh & Hp). rewrite Hx in Hh.
    inversion Hh; subst h. discriminate. }
  assert (Hcls : forall k grp,
             In (k, grp) ((ka, ga) :: (kb, gb) :: r) ->
             (P ka /\ P k) \/ (N ka /\ N k)).
  { intros k grp [Heq|Hin].
    - inversion Heq; subst k grp.
      destruct (Hlt ka kb (Hall (kb, gb) (or_introl eq_refl))) as [[Ha _]|[Ha _]];
        [left | right]; split; assumption.
    - apply (Hlt ka k (Hall (k, grp) Hin)). }
  split.
  - intros k grp Hin ->.
    destruct (Hcls _ _ Hin) as [[_ [x Hx]]|[_ (h & p & Hh & Hp)]].
    + discriminate.
    + simpl in Hh. inversion Hh; subst h. discriminate.
  - intros k k' grp grp' Hin Hin' Hk Hk'.
    assert (Pk : P k).
    { destruct k; try discriminate. eexists. reflexivity. }
    assert (Nk' : N k').
    { destruct k' as [| | |f| | |]; try discriminate.
      - do 2 eexists. split; reflexivity.
      - do 2 eexists. split; reflexivity.
      - destruct (key_num_num_key (fval f)) as [p Hp].
        exists (num_key (fval f)), p. split; [reflexivity | exact Hp]. }
    destruct (Hcls _ _ Hin) as [[Pa _]|[Na Nk]];
      destruct (Hcls _ _ Hin') as [[Pa' Pk']|[Na' _]]; eauto.
Qed.

(** ** Further statements: the diagrams *)

(** X14.  When the resolution succeeds the three texts are handed to
    [write], and they say what the graph says: the context diagram is the
    fixed text,
    the container diagram lists the groups, then a [Rel] line per backend
    edge, then a [Boundary] and a [Rel] line per route edge; the topology
    diagram lists the nodes of the Services, Workloads and (if included)
    Pods, an arrow per backend edge and per owner edge, and for each
    Ingress its [cloud] node followed by an arrow per route. *)
Theorem main_texts_render_graph
        (include_pods : bool) (docs : list json) (g : graph) :
  main include_pods docs = Ok g ->
  main_texts include_pods docs
  = ([("c4-context.puml", c4_ctx);
      ("c4-container.puml",
       join_lines
         (render_container (g_groups g) (g_container_backends g)
                           (g_container_routes g)));
      ("k8s-topology.puml",
       join_lines
         (render_topology include_pods
            (filter (kind_is "Service") (normalize docs))
            (filter is_workload (normalize docs))
            (filter (kind_is "Pod") (normalize docs))
            (filter (kind_is "Ingress") (normalize docs))
            (g_backends g) (g_owners g)))],
     Ok tt).
Proof.
  intros H. unfold main in H. cbv zeta in H.
  unbind H as b Eb. unbind H as t Et. unbind H as gs Eg.
  unbind H as cb Ecb. unbind H as cr Ecr.
  unbind H as u1 E1. unbind H as u2 E2. unbind H as u3 E3.
  unbind H as tb Etb. unbind H as own Eown. unbind H as tr Etr.
  inversion H; subst g; simpl. clear H.
  destruct (classify_spec _ _ Eb) as (Hw & Hs & Hi & Hp & _).
  rewrite <- Hw, <- Hs, <- Hi, <- Hp.
  pose proof (table_readable _ _ _ Et) as Hr.
  unfold main_texts. rewrite Eb. simpl. rewrite Et. simpl.
  rewrite (container_view_spec t b Hr), Eg. simpl. rewrite Ecb. simpl.
  rewrite Ecr. simpl.
  rewrite (topology_view_spec include_pods t b Hr), E1. simpl.
  rewrite E2. simpl. rewrite E3. simpl. rewrite Ecb. simpl.
  rewrite Eown. simpl. rewrite Ecr. simpl.
  assert (tb = cb) by congruence. subst tb. reflexivity.
Qed.

(** X15.  The files are created in the order context, container, topology,
    each when its text is complete, and stay as they are when the script
    ends early.  Each text is stored whole, up to the first one that the
    encoding of the platform refuses: that file is left empty and the script
    ends there.  So the files created are a prefix of the three; none is
    created exactly when classification or backend matching raises; the
    script ends normally exactly when the resolution succeeds and the three
    texts can be encoded, and then the three files hold their texts; it
    ends with an exception of the resolution only if the resolution ends
    so. *)
Theorem files_written_are_a_prefix
        (encodes : string -> bool) (include_pods : bool) (docs : list json) :
  main_files encodes include_pods docs
  = (fst (written encodes (fst (main_texts include_pods docs))),
     ending_of (snd (written encodes (fst (main_texts include_pods docs))))
               (snd (main_texts include_pods docs))) /\
  (exists n,
      map fst (fst (main_files encodes include_pods docs)) = firstn n file_names) /\
  (fst (main_files encodes include_pods docs) = [] <->
   exists e,
     (b <- classify (normalize docs) ;;
      build_svc_backends (workloads b) (services b) ;;; Ok tt) = Raise e) /\
  (snd (main_files encodes include_pods docs) = Done <->
   (exists g, main include_pods docs = Ok g) /\
   (forall f, In f (fst (main_texts include_pods docs)) ->
              encodes (snd f) = true)) /\
  (snd (main_files encodes include_pods docs) = Done ->
   fst (main_files encodes include_pods docs)
   = fst (main_texts include_pods docs) /\
   map fst (fst (main_files encodes include_pods docs)) = file_names) /\
  (forall e,
      snd (main_files encodes include_pods docs) = Raised e ->
      main include_pods docs = Raise e) /\
  (forall name text,
      In (name, text) (fst (main_files encodes include_pods docs)) ->
      In (name, text) (fst (main_texts include_pods docs)) \/
      (text = "" /\ snd (main_files encodes include_pods docs) = EncodeFailed)).
Proof.
  destruct (main_texts_facts include_pods docs) as (n & Hn & Hend & Hnil & H3).
  pose proof (main_files_written encodes include_pods docs) as E.
  set (texts := fst (main_texts include_pods docs)) in *.
  set (r := snd (main_texts include_pods docs)) in *.
  rewrite E. cbn [fst snd].
  assert (Hdone : ending_of (snd (written encodes texts)) r = Done <->
                  snd (written encodes texts) = true /\ r = Ok tt).
  { unfold ending_of. destruct (snd (written encodes texts)), r as [[]|e];
      split; try discriminate; try (intros [? ?]; discriminate); auto. }
  assert (Hmain : r = Ok tt <-> exists g, main include_pods docs = Ok g).
  { rewrite Hend. destruct (main include_pods docs) as [g|e]; simpl; split.
    - eauto.
    - reflexivity.
    - discriminate.
    - intros [g Hg]. discriminate. }
  split; [reflexivity|]. split; [|split; [|split; [|split; [|split]]]].
  - destruct (written_names encodes texts) as [k Hk]. exists (Nat.min k n).
    rewrite Hk, Hn. apply firstn_firstn.
  - rewrite written_nil. exact Hnil.
  - rewrite Hdone, <- Hmain, <- written_all. tauto.
  - intros Hd. apply Hdone in Hd. destruct Hd as [Hw Hr].
    rewrite (written_same _ _ Hw). split; [reflexivity|].
    apply H3. now apply Hmain.
  - intros e He. unfold ending_of in He.
    destruct (snd (written encodes texts)); [|discriminate].
    rewrite Hend in He.
    destruct (main include_pods docs) as [g|e']; simpl in He; [discriminate|].
    now inversion He.
  - intros name text Hin. destruct (written_in _ _ _ _ Hin) as [H|[H1 H2]].
    + now left.
    + right. split; [assumption|]. unfold ending_of. now rewrite H2.
Qed.

(** X16.  The container view draws an Ingress once per route, with a
    [Boundary] line and a [Rel] line each time, so not at all when none of
    its paths names a service; the topology view draws its [cloud] node
    once, then an arrow per route. *)
Theorem ingress_lines_per_route
        (ing : json) (es : list route_edge) (lines low : list string) :
  routes_of ing = Ok es ->
  ingress_rel_lines lines ing
  = Ok (lines ++ flat_map render_route_rel es) /\
  ingress_arrow_lines low ing
  = Ok (low ++ render_cloud ing :: map render_forward es) /\
  (es = [] ->
   ingress_rel_lines lines ing = Ok lines /\
   ingress_arrow_lines low ing = Ok (low ++ [render_cloud ing])).
Proof.
  intros H. unfold routes_of in H. rewrite ingress_routes_emit in H.
  destruct (ingress_emit ing) as [es'|] eqn:Ei; [|discriminate].
  simpl in H. inversion H; subst es'. clear H.
  assert (E1 : ingress_rel_lines lines ing
               = Ok (lines ++ flat_map render_route_rel es)).
  { now rewrite ingress_rel_lines_emit, Ei. }
  assert (E2 : ingress_arrow_lines low ing
               = Ok (low ++ render_cloud ing :: map render_forward es)).
  { now rewrite ingress_arrow_lines_emit, Ei. }
  split; [exact E1|]. split; [exact E2|].
  intros ->. rewrite E1, E2. simpl. now rewrite app_nil_r.
Qed.

(** X17.  With one prefix, [n_id] tells apart objects whose names are
    strings without an underscore: equal aliases mean equal name and
    namespace. *)
Theorem n_id_injective (prefix : string) (a b : json)
        (ma na mb nb : string) :
  name a = Ok (JStr ma) -> ns a = Ok (JStr na) ->
  name b = Ok (JStr mb) -> ns b = Ok (JStr nb) ->
  has_char "_" ma = false -> has_char "_" mb = false ->
  n_id prefix a = n_id prefix b ->
  ma = mb /\ na = nb.
Proof.
  intros Hma Hna Hmb Hnb Ca Cb H. unfold n_id in H.
  rewrite Hma, Hna, Hmb, Hnb in H. simpl in H. inversion H as [H1].
  apply append_cancel_l in H1. inversion H1 as [H2].
  apply append_sep_inj in H2; assumption.
Qed.

(** X18.  The arrow that line 206 draws for a route ends at the alias of
    the Service node with that name in the namespace of the Ingress:
    whenever such a Service is loaded, the arrow reaches the node that
    line 170 declares for it. *)
Theorem forward_arrow_reaches_service_node
        (ing ns_ing svcname s : json) :
  readable ing ->
  name s = Ok svcname ->
  ns s = Ok ns_ing ->
  exists id_ing id_svc node,
    n_id "ing" ing = Ok id_ing /\
    n_id "svc" s = Ok id_svc /\
    svc_node_line s = Ok (node ++ " as " ++ id_svc)%string /\
    forward_line ing ns_ing svcname
    = Ok (id_ing ++ " --> " ++ id_svc ++ " : forwards")%string.
Proof.
  intros Hr Hnm Hns.
  assert (Hs : readable s) by now exists ns_ing.
  exists (alias "ing" ing), (alias "svc" s),
    ("node " ++ quoted (txt (ns s) ++ "/svc/" ++ txt (name s)))%string.
  split; [now apply n_id_alias|]. split; [now apply n_id_alias|]. split.
  - rewrite (svc_node_line_ok s Hs). reflexivity.
  - unfold forward_line. rewrite (n_id_alias "ing" ing Hr).
    cbn [bind]. do 2 f_equal.
    unfold alias, txt. rewrite Hnm, Hns. simpl.
    now rewrite !str_append_assoc.
Qed.

(** X20.  In the container view a [Rel] line names its ends as their
    [Container] lines declare them: for a Service and a Workload whose
    namespaces are strings, each is listed in the group of its namespace,
    and the aliases of lines 134 and 136 are the ones line 142 uses. *)
Theorem rel_ends_are_declared
        (svcs wls : list json) (gs : list (json * group))
        (s w : json) (ns_s ns_w : string) :
  namespace_groups svcs wls = Ok gs ->
  In s svcs -> In w wls ->
  ns s = Ok (JStr ns_s) -> ns w = Ok (JStr ns_w) ->
  exists grp_s grp_w decl_s decl_w,
    In (JStr ns_s, grp_s) gs /\ In s (grp_services grp_s) /\
    In (JStr ns_w, grp_w) gs /\ In w (grp_workloads grp_w) /\
    svc_container_line (JStr ns_s) s
    = Ok ("    Container(" ++ alias "svc" s ++ decl_s)%string /\
    wl_container_line (JStr ns_w) w
    = Ok ("    Container(" ++ alias "wl" w ++ decl_w)%string /\
    rel_line s w
    = Ok ("Rel(" ++ alias "svc" s ++ ", " ++ alias "wl" w ++ ", "
            ++ quoted "routes to" ++ ")")%string.
Proof.
  intros Hg Hs Hw Hns Hnw.
  assert (Hmem : forall k grp,
             In (k, grp) gs ->
             exists h, hash k = Ok h /\
                       grp_services grp = filter (in_namespace h) svcs /\
                       grp_workloads grp = filter (in_namespace h) wls).
  { intros k grp Hin. pose proof Hg as H. unfold namespace_groups in H.
    unbind H as d Ed.
    destruct (build_by_ns_spec _ _ _ Ed) as [Hok _].
    destruct (nsdict_items_keys d Hok) as [_ Hnd].
    destruct (sorted_spec _ _ H Hnd) as [_ Hp].
    apply (Permutation_in _ (Permutation_sym Hp)) in Hin.
    unfold nd_items in Hin. apply in_map_iff in Hin.
    destruct Hin as ([h [k' grp']] & Heq & Hin). simpl in Heq.
    inversion Heq; subst k' grp'.
    exists h. exact (build_by_ns_members _ _ _ _ _ _ Ed Hin). }
  assert (Hgrp : forall o n,
             In o (svcs ++ wls) -> ns o = Ok (JStr n) ->
             exists grp,
               In (JStr n, grp) gs /\
               grp_services grp = filter (in_namespace (HStr n)) svcs /\
               grp_workloads grp = filter (in_namespace (HStr n)) wls /\
               in_namespace (HStr n) o = true).
  { intros o n Ho Hn.
    assert (Hk : ns_key o = Some (HStr n)).
    { unfold ns_key. now rewrite Hn. }
    destruct (namespace_groups_spec _ _ _ Hg) as [_ Hkeys].
    destruct (proj2 (Hkeys (HStr n))) as (k & grp & Hin & Hh);
      [exists o; auto|].
    assert (k = JStr n) by now apply hash_str.
    subst k. exists grp. split; [assumption|].
    destruct (Hmem _ _ Hin) as (h & Hh' & E1 & E2).
    simpl in Hh'. inversion Hh'; subst h.
    repeat split; try assumption.
    unfold in_namespace. rewrite Hk. apply hkey_eqb_refl. }
  destruct (Hgrp s ns_s) as (grp_s & Is & Es & _ & Ms);
    [apply in_or_app; auto | assumption |].
  destruct (Hgrp w ns_w) as (grp_w & Iw & _ & Ew & Mw);
    [apply in_or_app; auto | assumption |].
  assert (Rs : readable s) by now exists (JStr ns_s).
  assert (Rw : readable w) by now exists (JStr ns_w).
  exists grp_s, grp_w,
    (", " ++ quoted ("Service: " ++ txt (name s)) ++ ", "
       ++ quoted "K8s Service" ++ ")")%string,
    (", " ++ quoted (txt (kind w) ++ ": " ++ txt (name w)) ++ ", "
       ++ quoted "K8s Workload" ++ ")")%string.
  split; [assumption|]. split; [rewrite Es; apply filter_In; auto|].
  split; [assumption|]. split; [rewrite Ew; apply filter_In; auto|].
  split; [|split].
  - rewrite (svc_container_line_ok _ s Rs).
    unfold render_svc_container, alias. rewrite Hns. simpl.
    now rewrite !str_append_assoc.
  - rewrite (wl_container_line_ok _ w Rw).
    unfold render_wl_container, alias. rewrite Hnw. simpl.
    now rewrite !str_append_assoc.
  - rewrite (rel_line_ok s w Rs Rw).
    unfold render_rel, alias. simpl.
    now rewrite !str_append_assoc.
Qed.

(** X21.  Without [--include-pods] the Pods never matter: leaving every
    Pod out of the input gives the same graph and the same texts, and the
    same exception when the run raises. *)
Theorem pods_ignored_without_flag (docs : list json) :
  main false (filter not_pod docs) = main false docs /\
  main_texts false (filter not_pod docs) = main_texts false docs.
Proof.
  assert (Hn : normalize (filter not_pod docs)
               = filter not_pod (normalize docs)).
  { unfold normalize. rewrite !filter_filter. apply filter_ext.
    intros o. apply andb_comm. }
  assert (Hd : forall o, In o (normalize docs) -> exists kv, o = JDict kv).
  { intros o Hin. destruct (normalize_in _ _ Hin) as (kv & _ & _ & -> & _).
    eauto. }
  destruct (classify_total (normalize docs) Hd) as [b Hb].
  destruct (classify_total (filter not_pod (normalize docs))) as [b' Hb'].
  { intros o Hin. apply filter_In in Hin. apply Hd, Hin. }
  destruct (classify_spec _ _ Hb) as (Hw & Hs & Hi & _).
  destruct (classify_spec _ _ Hb') as (Hw' & Hs' & Hi' & _).
  assert (Hk : forall o c, c <> "Pod" ->
                           kind_is c o = true -> not_pod o = true).
  { intros o c Hc H. unfold not_pod, kind_is in *.
    destruct (kind o) as [k|]; [|discriminate].
    apply py_eq_str in H. subst k. simpl.
    destruct (String.eqb c "Pod") eqn:E; [|reflexivity].
    apply String.eqb_eq in E. contradiction. }
  assert (Ew : workloads b' = workloads b).
  { rewrite Hw, Hw', filter_filter. apply filter_ext. intros o.
    destruct (is_workload o) eqn:E;
      [rewrite andb_true_r | now rewrite andb_false_r].
    unfold is_workload in E. unfold not_pod, kind_is.
    destruct (kind o) as [k|]; [|discriminate].
    destruct (workload_type_str k E) as (c & -> & Hin).
    simpl in Hin.
    repeat (destruct Hin as [<-|Hin]; [reflexivity|]). destruct Hin. }
  assert (Es : services b' = services b).
  { rewrite Hs, Hs', filter_filter. apply filter_ext. intros o.
    destruct (kind_is "Service" o) eqn:E;
      [rewrite andb_true_r | now rewrite andb_false_r].
    apply (Hk o "Service"); [discriminate | assumption]. }
  assert (Ei : ingresses b' = ingresses b).
  { rewrite Hi, Hi', filter_filter. apply filter_ext. intros o.
    destruct (kind_is "Ingress" o) eqn:E;
      [rewrite andb_true_r | now rewrite andb_false_r].
    apply (Hk o "Ingress"); [discriminate | assumption]. }
  split.
  - unfold main. cbv zeta. rewrite Hn, Hb, Hb'. cbn [bind].
    now rewrite Ew, Es, Ei.
  - unfold main_texts. rewrite Hn, Hb, Hb'. cbn [bind].
    rewrite Ew, Es.
    destruct (build_svc_backends (workloads b) (services b)) as [t|e];
      [|reflexivity].
    cbn [bind]. unfold container_view, topology_view.
    now rewrite Ew, Es, Ei.
Qed.

(** X22.  The title of the topology diagram holds an arrow that is not
    ASCII.  Where the encoding of the platform refuses every text with this
    arrow in it, no run ends normally, whatever the documents: the topology
    file, if the run gets to it, is left empty. *)
Theorem arrow_needs_encoding
        (encodes : string -> bool) (include_pods : bool) (docs : list json) :
  (forall p r, encodes (p ++ title_arrow ++ r)%string = false) ->
  snd (main_files encodes include_pods docs) <> Done /\
  (forall text,
      In ("k8s-topology.puml", text)
         (fst (main_files encodes include_pods docs)) ->
      text = "").
Proof.
  intros H. unfold main_files.
  destruct (classify (normalize docs)) as [b|e]; cbn [bind];
    [|split; [discriminate | intros text []]].
  destruct (build_svc_backends (workloads b) (services b)) as [t|e] eqn:Et;
    cbn [bind]; [|split; [discriminate | intros text []]].
  pose proof (table_readable _ _ _ Et) as Hr.
  destruct (encodes c4_ctx);
    [|split; [discriminate | intros text [Hin|[]]; discriminate Hin]].
  destruct (container_view t b) as [lines|e];
    [|split; [discriminate | intros text [Hin|[]]; discriminate Hin]].
  destruct (encodes (join_lines lines));
    [|split; [discriminate
             | intros text [Hin|[Hin|[]]]; discriminate Hin]].
  destruct (topology_view include_pods t b) as [low|e] eqn:Etop;
    [|split; [discriminate
             | intros text [Hin|[Hin|[]]]; discriminate Hin]].
  destruct (topology_view_header _ _ _ _ Hr Etop) as [rest ->].
  destruct (topology_text_holds_arrow rest) as (p & r & ->).
  rewrite H. split; [discriminate|].
  intros text [Hin|[Hin|[Hin|[]]]]; try discriminate Hin.
  now inversion Hin.
Qed.

(** X23.  Namespaces that are numbers (bools, ints and floats, mixed as
    they may be) never make the grouping raise: the Services and the
    Workloads are grouped, the groups in ascending order of value. *)
Theorem numeric_namespaces_are_grouped (svcs wls : list json) :
  (forall o, In o (svcs ++ wls) ->
             exists n, ns o = Ok n /\ is_num n = true) ->
  exists gs, namespace_groups svcs wls = Ok gs /\ StronglySorted key_lt gs.
Proof.
  intros H.
  assert (G : exists gs, namespace_groups svcs wls = Ok gs).
  { unfold namespace_groups, build_by_ns.
    destruct (file_by_ns_total_num no_group add_service svcs [])
      as (d1 & -> & Hd1);
      [intros x Hx; apply H, in_or_app; now left | constructor|].
    simpl.
    destruct (file_by_ns_total_num no_group add_workload wls d1)
      as (d & -> & Hd);
      [intros x Hx; apply H, in_or_app; now right | assumption|].
    simpl. apply sorted_total_num. unfold nd_items.
    rewrite Forall_forall in *.
    intros y Hy. apply in_map_iff in Hy. destruct Hy as (e & <- & He).
    auto. }
  destruct G as [gs Hgs]. exists gs. split; [assumption|].
  apply (namespace_groups_spec _ _ _ Hgs).
Qed.

End Script.

(** ** The statements at work on the sample manifests *)

(** [svc_frontend] selects [deploy_frontend]. *)
Lemma backends_subset_matching_frontend :
  (exists bs,
      backends_of plain_repr
        [("web:Service:frontend", [deploy_frontend])] svc_frontend = Ok bs /\
      (In deploy_frontend bs
       <-> selector_satisfied (strs [("app", "frontend")]) deploy_frontend)) /\
  (forall x y z : string,
      y <> z ->
      labels_match (strs [("app", x); ("tier", y)]) (strs [("app", x)])
      = Ok true /\
      labels_match (strs [("app", x); ("tier", y)])
                   (strs [("app", x); ("tier", z)])
      = Ok false).
Proof.
  apply (backends_subset_matching plain_repr
           [deploy_frontend] [svc_frontend]
           [("web:Service:frontend", [deploy_frontend])]
           svc_frontend deploy_frontend (strs [("app", "frontend")])).
  - reflexivity.
  - simpl; auto.
  - simpl; auto.
  - reflexivity.
  - reflexivity.
  - intros s' [<-|[]] _. reflexivity.
  - exists (HStr "web"). split; reflexivity.
Defined.

(** C1 as stated fails on a Service without a selector: every pair of its
    (empty) selector is satisfied by [deploy_frontend], which sits in the
    same namespace, and yet the Service has no backend.  It also fails the
    other way round when two Services are filed under one key: the backends
    of [svc_frontend] then hold a Workload that its selector rejects. *)
Lemma empty_selector_matches_nothing :
  (exists t sel,
      build_svc_backends plain_repr [deploy_frontend] [svc_headless] = Ok t /\
      svc_selector svc_headless = Ok sel /\
      same_namespace svc_headless deploy_frontend /\
      selector_satisfied sel deploy_frontend /\
      backends_of plain_repr t svc_headless = Ok []) /\
  (exists t sel,
      build_svc_backends plain_repr [deploy_other]
                       [svc_frontend; svc_frontend_other] = Ok t /\
      svc_selector svc_frontend = Ok sel /\
      same_namespace svc_frontend deploy_other /\
      ~ selector_satisfied sel deploy_other /\
      backends_of plain_repr t svc_frontend = Ok [deploy_other]).
Proof.
  split.
  - exists [], (JDict []). repeat split.
    + exists (HStr "web"). split; reflexivity.
    + exists [], (strs [("app", "frontend"); ("tier", "ui")]).
      repeat split. intros k v [].
  - eexists. eexists. split; [reflexivity|]. split; [reflexivity|].
    split; [exists (HStr "web"); split; reflexivity|].
    split; [|reflexivity].
    intros (kvs & lbl & Hi & Hl & Hall).
    vm_compute in Hi, Hl. inversion Hi; inversion Hl; subst kvs lbl.
    destruct (Hall "app" (JStr "frontend") (or_introl eq_refl))
      as (g & Hg & He).
    vm_compute in Hg. inversion Hg; subst g. discriminate He.
Qed.

(** A Service without a selector and with a key of its own. *)
Lemma empty_selector_no_backends_headless :
  backends_of plain_repr [] svc_headless = Ok [] /\
  forall es,
    backend_edges plain_repr [] [svc_headless] = Ok es ->
    forall e, In e es -> be_service e <> svc_headless.
Proof.
  apply (empty_selector_no_backends plain_repr
           [deploy_frontend] [svc_headless] [] svc_headless (JDict [])
           "web:Service:frontend").
  - reflexivity.
  - simpl; auto.
  - reflexivity.
  - reflexivity.
  - intros s' [<-|[]] _. reflexivity.
  - reflexivity.
Defined.

(** C5 as stated fails when a second Service is filed under the same key:
    the Service without a selector is handed the backends of its namesake,
    and the run draws an edge from it. *)
Lemma empty_selector_inherits_backends :
  svc_selector svc_headless = Ok (JDict []) /\
  exists t g,
    build_svc_backends plain_repr [deploy_frontend] [svc_headless; svc_frontend]
    = Ok t /\
    backends_of plain_repr t svc_headless = Ok [deploy_frontend] /\
    main plain_repr false [svc_headless; svc_frontend; deploy_frontend] = Ok g /\
    In (BackendEdge svc_headless deploy_frontend) (g_backends g).
Proof.
  split; [reflexivity|].
  eexists. eexists. split; [reflexivity|]. split; [reflexivity|].
  split; [vm_compute; reflexivity|]. simpl. auto.
Qed.



(** The Pod of the unloaded ReplicaSet is linked to nothing. *)
Lemma pod_frontend_unlinked :
  pod_links [deploy_frontend] [] pod_frontend = Ok [].
Proof.
  refine (proj1 (pod_ownership_per_match plain_repr
                   [deploy_frontend] pod_frontend
                   [owner_ref "ReplicaSet" "frontend-deploy-rs"] _ _ _ _)).
  - exists (JStr "web"). reflexivity.
  - intros w [<-|[]]. exists (JStr "web"). reflexivity.
  - reflexivity.
  - intros oref [<-|[]]. unfold owner_ref. eauto.
Defined.

(** A Pod with one owner reference, among Workloads with distinct
    identities. *)
Lemma pod_of_deploy_one_owner :
  exists ws,
    owner_workloads_of [deploy_frontend; sts_db] pod_of_deploy = Ok ws /\
    (List.length ws <= 1)%nat.
Proof.
  refine (proj2 (owner_workloads_per_match
                   [deploy_frontend; sts_db] pod_of_deploy
                   [owner_ref "Deployment" "frontend-deploy"] _ _ _ _) _ _).
  - exists (JStr "web"). reflexivity.
  - intros w [<-|[<-|[]]]; discriminate.
  - reflexivity.
  - intros oref [<-|[]]. unfold owner_ref. eauto.
  - repeat constructor; simpl; intuition discriminate.
  - simpl. lia.
Defined.

(** C4 as stated fails on a Pod that lists two owners, both loaded: two
    Workloads are returned.  So it does on a Pod with one owner whose
    document was loaded twice. *)
Lemma two_owners_two_workloads :
  owner_workloads_of [deploy_frontend; sts_db] pod_two_owners
  = Ok [deploy_frontend; sts_db] /\
  owner_workloads_of [deploy_frontend; deploy_frontend] pod_of_deploy
  = Ok [deploy_frontend; deploy_frontend].
Proof. split; reflexivity. Qed.

(** Two documents for [web/x] are both kept. *)
Lemma duplicate_deployments_kept :
  workloads
    (Buckets [deploy_x_first; deploy_x_second] [svc_frontend] [] [] [])
  = filter is_workload [deploy_x_first; svc_frontend; deploy_x_second].
Proof.
  exact (proj1 (proj1 (identical_keys_are_all_kept plain_repr
                         [deploy_x_first; svc_frontend; deploy_x_second]
                         (Buckets [deploy_x_first; deploy_x_second]
                                  [svc_frontend] [] [] [])
                         eq_refl))).
Defined.

(** C6 as stated fails on two documents with the key [web:Deployment:x]:
    the first-loaded one does not give way to the last-loaded one, and the
    edges of the run reflect both copies. *)
Lemma both_copies_get_edges :
  obj_key plain_repr deploy_x_first = obj_key plain_repr deploy_x_second /\
  deploy_x_first <> deploy_x_second /\
  main plain_repr false
      [svc_selecting "a" [("app", "a")]; svc_selecting "b" [("app", "b")];
       deploy_x_first; deploy_x_second]
  = Ok (Graph
          [(JStr "web",
            Group [svc_selecting "a" [("app", "a")];
                   svc_selecting "b" [("app", "b")]]
                  [deploy_x_first; deploy_x_second])]
          [BackendEdge (svc_selecting "a" [("app", "a")]) deploy_x_first;
           BackendEdge (svc_selecting "b" [("app", "b")]) deploy_x_second]
          []
          [BackendEdge (svc_selecting "a" [("app", "a")]) deploy_x_first;
           BackendEdge (svc_selecting "b" [("app", "b")]) deploy_x_second]
          [] []).
Proof.
  split; [reflexivity|]. split; [discriminate|]. vm_compute. reflexivity.
Qed.

(** Backends in load order, groups in key order. *)
Lemma frontend_backends_in_load_order :
  (forall s key,
      obj_key plain_repr s = Ok key ->
      backends_of plain_repr
        [("web:Service:frontend", [deploy_zeta; deploy_alpha])] s
      = Ok (flat_map (contribution plain_repr [deploy_zeta; deploy_alpha] key)
                     [svc_frontend; svc_api])) /\
  StronglySorted key_lt
    [(JStr "api", Group [svc_api] []);
     (JStr "web", Group [svc_frontend] [deploy_zeta; deploy_alpha])].
Proof.
  pose proof (accessors_in_load_order plain_repr
                [deploy_zeta; deploy_alpha] [svc_frontend; svc_api]
                [("web:Service:frontend", [deploy_zeta; deploy_alpha])]
                [(JStr "api", Group [svc_api] []);
                 (JStr "web",
                  Group [svc_frontend] [deploy_zeta; deploy_alpha])]
                eq_refl eq_refl) as (H1 & H2 & _).
  split; assumption.
Defined.

(** C7 as stated fails on two Workloads loaded as [zeta], [alpha]: the
    backends of [svc_frontend] come back in that order, which is not the
    order of their names. *)
Lemma backends_not_in_key_order :
  exists t bs,
    build_svc_backends plain_repr [deploy_zeta; deploy_alpha] [svc_frontend]
    = Ok t /\
    backends_of plain_repr t svc_frontend = Ok bs /\
    bs = [deploy_zeta; deploy_alpha] /\
    ~ in_key_order bs.
Proof.
  eexists. eexists. split; [reflexivity|]. split; [reflexivity|].
  split; [reflexivity|]. intros H.
  destruct (H 0%nat 1%nat deploy_zeta deploy_alpha) as (ka & kb & Ea & Eb & Hc);
    [lia | reflexivity | reflexivity |].
  vm_compute in Ea, Eb. inversion Ea; inversion Eb; subst ka kb.
  apply Hc. reflexivity.
Qed.

(** Two runs over the scenario of the frontend Service. *)
Lemma frontend_runs_agree :
  main plain_repr true [svc_frontend; deploy_frontend; pod_of_deploy]
  = main plain_repr true [svc_frontend; deploy_frontend; pod_of_deploy] /\
  forall g,
    main plain_repr true [svc_frontend; deploy_frontend; pod_of_deploy]
    = Ok g ->
    g_container_backends g = g_backends g /\
    g_container_routes g = g_routes g.
Proof.
  exact (resolution_deterministic plain_repr true
           [svc_frontend; deploy_frontend; pod_of_deploy] _ _
           eq_refl eq_refl).
Defined.

(** [web] holds a Service and has a group; [batch] only holds a Pod and has
    none. *)
Lemma batch_has_no_group :
  (exists k grp,
      In (k, grp) [(JStr "web", Group [svc_frontend] [deploy_frontend])] /\
      hash k = Ok (HStr "web")) /\
  ~ (exists k grp,
        In (k, grp) [(JStr "web", Group [svc_frontend] [deploy_frontend])] /\
        hash k = Ok (HStr "batch")).
Proof.
  pose proof (groups_hold_services_or_workloads plain_repr true
                [svc_frontend; deploy_frontend; pod_batch] _ eq_refl) as H.
  split.
  - apply (proj2 (H (HStr "web"))). exists svc_frontend.
    split; [simpl; auto|]. split; [left; reflexivity | reflexivity].
  - intros Hex. apply (proj1 (H (HStr "batch"))) in Hex.
    destruct Hex as (o & Hin & Hk & Hn).
    destruct Hin as [<-|[<-|[<-|[]]]].
    + discriminate.
    + discriminate.
    + destruct Hk; discriminate.
Defined.

(** Documents with a missing selector, missing labels, no namespace, a
    dangling owner reference and a path without a named service are all
    shaped: the run completes, files the bare Deployment under [default],
    and draws no edge. *)
Lemma partial_documents_run :
  ns deploy_bare = Ok (JStr "default") /\
  forallb shaped
    [svc_headless; deploy_bare; pod_frontend; ingress_resource_backend]
  = true /\
  exists g,
    main plain_repr true
        [svc_headless; deploy_bare; pod_frontend; ingress_resource_backend]
    = Ok g /\
    map fst (g_groups g) = [JStr "default"; JStr "web"] /\
    g_backends g = [] /\ g_owners g = [] /\ g_routes g = [].
Proof.
  split; [reflexivity|]. split; [reflexivity|].
  destruct (main_total_on_shaped plain_repr true
              [svc_headless; deploy_bare; pod_frontend;
               ingress_resource_backend]) as [g Hg].
  { intros o Hin. simpl in Hin.
    destruct Hin as [<-|[<-|[<-|[<-|[]]]]]; reflexivity. }
  exists g. split; [exact Hg|].
  vm_compute in Hg. inversion Hg; subst g. repeat split.
Defined.

(** ** The further statements at work on the sample manifests *)

Lemma loaded_stream_is_classified :
  (forall o,
      In o [svc_frontend; deploy_frontend] ->
      exists kv k m,
        o = JDict kv /\ assoc "kind" kv = Some k /\
        assoc "metadata" kv = Some m /\ kind o = Ok k) /\
  exists b, classify [svc_frontend; deploy_frontend] = Ok b.
Proof.
  apply (loaded_objects_are_classified
           (Sources None
                    (Some [svc_frontend; JNull; JStr "note"; deploy_frontend])
                    None)).
  reflexivity.
Defined.

Lemma kubectl_list_loads_like_yaml :
  load_objects (Sources (Some kubectl_list) None None)
  = load_objects (Sources None (Some [svc_frontend; deploy_frontend]) None).
Proof.
  apply (json_list_loads_like_yaml
           [("apiVersion", JStr "v1"); ("kind", JStr "List");
            ("metadata", JDict []);
            ("items", JList [svc_frontend; deploy_frontend])]).
  - reflexivity.
  - discriminate.
Defined.

Lemma kubectl_list_reloads :
  load_objects (Sources None (Some [svc_frontend; deploy_frontend]) None)
  = Ok [svc_frontend; deploy_frontend].
Proof.
  apply (load_objects_idempotent (Sources (Some kubectl_list) None None)).
  reflexivity.
Defined.

Lemma selector_map_of_service :
  selector_map svc_frontend = Ok (JDict [("app", JStr "frontend")]).
Proof.
  apply selector_map_agrees_with_svc_selector; reflexivity.
Defined.

Lemma selector_map_of_deployment :
  exists v',
    selector_map deploy_with_selector = Ok v' /\
    (is_dict v' = true \/
     exists sp kv,
       get deploy_with_selector "spec" empty_dict = Ok sp /\
       get sp "selector" empty_dict = Ok (JDict kv) /\
       assoc "matchLabels" kv = Some v' /\ truthy v' = true).
Proof.
  apply (selector_map_total deploy_with_selector
           (JDict [("matchLabels", strs [("app", "frontend")])])).
  reflexivity.
Defined.

Lemma frontend_services_share_identity :
  "web" = "web" /\ "Service" = "Service" /\ "frontend" = "frontend".
Proof.
  apply (obj_key_injective plain_repr svc_frontend svc_headless
           "web" "Service" "frontend" "web" "Service" "frontend");
    reflexivity.
Defined.

Lemma missing_app_label :
  (JNull = JNull ->
   labels_match (JDict [("tier", JStr "ui")])
                (JDict [("app", JNull); ("tier", JStr "ui")])
   = labels_match (JDict [("tier", JStr "ui")])
                  (JDict [("tier", JStr "ui")])) /\
  (JNull <> JNull ->
   labels_match (JDict [("tier", JStr "ui")])
                (JDict [("app", JNull); ("tier", JStr "ui")])
   = Ok false).
Proof.
  apply (absent_label_matches_null
           [("tier", JStr "ui")] [("tier", JStr "ui")] "app" JNull).
  reflexivity.
Defined.

Lemma frontend_backend_in_namespace :
  same_namespace svc_frontend deploy_frontend.
Proof.
  apply (backends_stay_in_namespace plain_repr false
           [svc_frontend; deploy_frontend] _
           (BackendEdge svc_frontend deploy_frontend) eq_refl).
  - simpl. auto.
  - intros s' Hin _. simpl in Hin. destruct Hin as [<-|[]]. reflexivity.
Defined.

Lemma frontend_edges_join_loaded_objects :
  exists g,
    main plain_repr true
         [svc_frontend; deploy_frontend; pod_of_deploy; ingress_main]
    = Ok g /\
    (forall e, In e (g_backends g) ->
               In (be_service e)
                  (normalize
                     [svc_frontend; deploy_frontend; pod_of_deploy;
                      ingress_main]) /\
               kind_is "Service" (be_service e) = true /\
               In (be_workload e)
                  (normalize
                     [svc_frontend; deploy_frontend; pod_of_deploy;
                      ingress_main]) /\
               is_workload (be_workload e) = true).
Proof.
  eexists. split; [vm_compute; reflexivity|].
  apply (edges_join_loaded_objects plain_repr true
           [svc_frontend; deploy_frontend; pod_of_deploy; ingress_main]).
  reflexivity.
Defined.

Lemma web_group_holds_web_objects :
  exists h,
    hash (JStr "web") = Ok h /\
    [svc_frontend] = filter (in_namespace h) [svc_frontend; svc_api] /\
    [deploy_zeta; deploy_alpha]
    = filter (in_namespace h) [deploy_zeta; deploy_alpha].
Proof.
  apply (groups_partition
           [svc_frontend; svc_api] [deploy_zeta; deploy_alpha]
           [(JStr "api", Group [svc_api] []);
            (JStr "web", Group [svc_frontend] [deploy_zeta; deploy_alpha])]
           (JStr "web") (Group [svc_frontend] [deploy_zeta; deploy_alpha])).
  - reflexivity.
  - simpl. auto.
Defined.

Lemma api_and_web_never_mix :
  (forall k grp,
      In (k, grp)
         [(JStr "api", Group [svc_api] []);
          (JStr "web", Group [svc_frontend] [deploy_zeta; deploy_alpha])] ->
      k <> JNull) /\
  (forall k k' grp grp',
      In (k, grp)
         [(JStr "api", Group [svc_api] []);
          (JStr "web", Group [svc_frontend] [deploy_zeta; deploy_alpha])] ->
      In (k', grp')
         [(JStr "api", Group [svc_api] []);
          (JStr "web", Group [svc_frontend] [deploy_zeta; deploy_alpha])] ->
      is_str k = true -> is_num k' = true -> False).
Proof.
  apply (group_keys_never_mix
           [svc_frontend; svc_api] [deploy_zeta; deploy_alpha]).
  - reflexivity.
  - simpl. lia.
Defined.

(** The three texts of the frontend scenario. *)
Lemma frontend_files_written :
  exists g,
    main plain_repr true [svc_frontend; deploy_frontend; ingress_main] = Ok g /\
    main_texts plain_repr true [svc_frontend; deploy_frontend; ingress_main]
    = ([("c4-context.puml", c4_ctx);
        ("c4-container.puml",
         join_lines
           (render_container plain_repr (g_groups g) (g_container_backends g)
                             (g_container_routes g)));
        ("k8s-topology.puml",
         join_lines
           (render_topology plain_repr true [svc_frontend] [deploy_frontend]
                            [] [ingress_main] (g_backends g) (g_owners g)))],
       Ok tt).
Proof.
  eexists. split; [reflexivity|].
  apply (main_texts_render_graph plain_repr true
           [svc_frontend; deploy_frontend; ingress_main]).
  reflexivity.
Defined.

(** The Ingress whose only path has a resource backend: nothing in the
    container view, a lone [cloud] node in the topology view. *)
Lemma resource_backend_ingress_lines :
  ingress_rel_lines plain_repr [] ingress_resource_backend = Ok [] /\
  ingress_arrow_lines plain_repr [] ingress_resource_backend
  = Ok [render_cloud plain_repr ingress_resource_backend].
Proof.
  apply (proj2 (proj2 (ingress_lines_per_route plain_repr
                         ingress_resource_backend [] [] [] eq_refl))).
  reflexivity.
Defined.

(** Two Services with one alias have one name and one namespace. *)
Lemma frontend_aliases_agree :
  "frontend" = "frontend" /\ "web" = "web".
Proof.
  apply (n_id_injective plain_repr "svc" svc_frontend svc_frontend_other);
    reflexivity.
Defined.

(** The arrow of the Ingress [web/main] ends at the node of the Service
    [web/frontend]. *)
Lemma main_ingress_arrow_reaches_frontend :
  exists id_ing id_svc node,
    n_id plain_repr "ing" ingress_main = Ok id_ing /\
    n_id plain_repr "svc" svc_frontend = Ok id_svc /\
    svc_node_line plain_repr svc_frontend
    = Ok (node ++ " as " ++ id_svc)%string /\
    forward_line plain_repr ingress_main (JStr "web") (JStr "frontend")
    = Ok (id_ing ++ " --> " ++ id_svc ++ " : forwards")%string.
Proof.
  apply (forward_arrow_reaches_service_node plain_repr).
  - exists (JStr "web"). reflexivity.
  - reflexivity.
  - reflexivity.
Defined.

(** The [Rel] line of the frontend Service and its Deployment names the
    aliases of their [Container] lines in the group [web]. *)
Lemma frontend_rel_ends_are_declared :
  exists grp_s grp_w decl_s decl_w,
    In (JStr "web", grp_s) [(JStr "web", Group [svc_frontend] [deploy_frontend])] /\
    In svc_frontend (grp_services grp_s) /\
    In (JStr "web", grp_w) [(JStr "web", Group [svc_frontend] [deploy_frontend])] /\
    In deploy_frontend (grp_workloads grp_w) /\
    svc_container_line plain_repr (JStr "web") svc_frontend
    = Ok ("    Container(" ++ alias plain_repr "svc" svc_frontend ++ decl_s)%string /\
    wl_container_line plain_repr (JStr "web") deploy_frontend
    = Ok ("    Container(" ++ alias plain_repr "wl" deploy_frontend ++ decl_w)%string /\
    rel_line plain_repr svc_frontend deploy_frontend
    = Ok ("Rel(" ++ alias plain_repr "svc" svc_frontend ++ ", "
            ++ alias plain_repr "wl" deploy_frontend ++ ", "
            ++ quoted "routes to" ++ ")")%string.
Proof.
  apply (rel_ends_are_declared plain_repr [svc_frontend] [deploy_frontend]).
  - reflexivity.
  - simpl. auto.
  - simpl. auto.
  - reflexivity.
  - reflexivity.
Defined.

Lemma ascii_only_refuses_arrow (p r : string) :
  ascii_only (p ++ title_arrow ++ r) = false.
Proof.
  induction p as [|c p IH]; [reflexivity|].
  change (ascii_char c && ascii_only (p ++ title_arrow ++ r) = false).
  rewrite IH. apply andb_false_r.
Qed.

(** Under an ASCII encoding the frontend scenario ends in the last
    [write]. *)
Lemma ascii_locale_never_finishes :
  snd (main_files plain_repr ascii_only true [svc_frontend; deploy_frontend])
  <> Done /\
  (forall text,
      In ("k8s-topology.puml", text)
         (fst (main_files plain_repr ascii_only true
                          [svc_frontend; deploy_frontend])) ->
      text = "").
Proof.
  apply arrow_needs_encoding. exact ascii_only_refuses_arrow.
Defined.

(** [True], [1.5] and [2] are grouped. *)
Lemma numbers_are_grouped :
  exists gs,
    namespace_groups [] [deploy_two; deploy_one_and_a_half; deploy_true]
    = Ok gs /\
    StronglySorted key_lt gs.
Proof.
  apply (numeric_namespaces_are_grouped
           [] [deploy_two; deploy_one_and_a_half; deploy_true]).
  intros o [<-|[<-|[<-|[]]]]; eexists; split; reflexivity.
Defined.
